(** * OpenClaw dev cockpit: gateway handlers, session attribution, usage
      totals, and the brain-context cache and hook

    Part I embeds the program: the JSON values and property reads the
    handlers of [src/gateway/server-methods/projects.ts] rely on, the handlers
    themselves over an explicit world (disk, spawned processes, responses),
    the brain-context cache and the truncation of the brain-context hook.
    The attribution rule and the usage aggregation live in Python scripts of
    the dev-cockpit skill; they are modelled from their specification.
    It then embeds the two hooks of the intelligence service, brain-context
    and brain-ingest, over a world of requests, timers, clock readings and
    log entries, and the projects controller of the UI over its state.
    Part II states and proves the properties. *)

From Stdlib Require Import ZArith Lia Floats Ascii.
From stdpp Require Import base strings list gmap pretty.

Set Warnings "-register-all".

(* ===================================================================== *)
(** * Part I: the embedding                                               *)
(* ===================================================================== *)

(** ** JavaScript values read by the handlers *)

Module Js.

(** A JSON document as [JSON.parse] returns it. Numbers are binary64; an
    object is the list of its own properties, in property order. *)
Inductive json : Type :=
| JNull
| JBool (b : bool)
| JNum (x : float)
| JStr (s : string)
| JArr (items : list json)
| JObj (props : list (string * json)).

(** The outcome of a property read: nothing, a part of the document, or a
    function or prototype object of the host reached through the prototype
    chain (never a part of a document). *)
Inductive jsval : Type :=
| Undefined
| Val (v : json)
| Builtin.

(** ToBoolean. Every built-in reached by name is a function or an object. *)
Definition truthy (v : jsval) : bool :=
  match v with
  | Undefined => false
  | Builtin => true
  | Val JNull => false
  | Val (JBool b) => b
  | Val (JNum x) => negb (PrimFloat.eqb x 0%float || PrimFloat.is_nan x)
  | Val (JStr s) => negb (String.eqb s "")
  | Val (JArr _) => true
  | Val (JObj _) => true
  end.

(** Own property lookup. *)
Fixpoint own_get (k : string) (ps : list (string * json)) : option json :=
  match ps with
  | [] => None
  | (k', v) :: rest => if String.eqb k k' then Some v else own_get k rest
  end.

(** [o[k] = v] on the own properties: an existing property keeps its place,
    a new one (whose name is not an array index) goes last. *)
Fixpoint own_set (k : string) (v : json) (ps : list (string * json))
  : list (string * json) :=
  match ps with
  | [] => [(k, v)]
  | (k', v') :: rest =>
      if String.eqb k k' then (k, v) :: rest else (k', v') :: own_set k v rest
  end.

(** The string-keyed properties of [Object.prototype] (ECMAScript with
    Annex B, as in Node). *)
Definition object_prototype_names : list string :=
  [ "constructor"; "__defineGetter__"; "__defineSetter__"; "hasOwnProperty";
    "__lookupGetter__"; "__lookupSetter__"; "isPrototypeOf";
    "propertyIsEnumerable"; "toString"; "valueOf"; "__proto__";
    "toLocaleString" ].

Definition on_object_prototype (k : string) : bool :=
  existsb (String.eqb k) object_prototype_names.

(** The values that are not plain objects have a prototype of their own
    before [Object.prototype]; which names it defines depends on the host. *)
Inductive kind : Type := KArray | KString | KNumber | KBoolean.

(** An array index as a property key is the decimal numeral of the index. *)
Definition index_of_key (k : string) (len : nat) : option nat :=
  List.find (fun i => String.eqb (pretty i) k) (seq 0 len).

Definition number_of_nat (n : nat) : float :=
  PrimFloat.of_uint63 (Uint63.of_Z (Z.of_nat n)).

Definition inherited (own_proto : string -> bool) (k : string) : jsval :=
  if own_proto k || on_object_prototype k then Builtin else Undefined.

(** [v[k]] for a computed key [k], on a value that is neither [null] nor
    [undefined]: own properties first, then the prototype chain. *)
Definition member (proto_has : kind -> string -> bool) (v : json) (k : string)
  : jsval :=
  match v with
  | JNull => Undefined
  | JObj ps =>
      match own_get k ps with
      | Some x => Val x
      | None => inherited (fun _ => false) k
      end
  | JArr items =>
      match index_of_key k (length items) with
      | Some i => match items !! i with Some x => Val x | None => Undefined end
      | None =>
          if String.eqb k "length" then Val (JNum (number_of_nat (length items)))
          else inherited (proto_has KArray) k
      end
  | JStr s =>
      match index_of_key k (String.length s) with
      | Some i =>
          match String.get i s with
          | Some c => Val (JStr (String c EmptyString))
          | None => Undefined
          end
      | None =>
          if String.eqb k "length" then Val (JNum (number_of_nat (String.length s)))
          else inherited (proto_has KString) k
      end
  | JNum _ => inherited (proto_has KNumber) k
  | JBool _ => inherited (proto_has KBoolean) k
  end.

(** A read of one of the literal property names of the handlers ([projects],
    [project], [enabled], [days], [roots]) on a value that is neither [null]
    nor [undefined]. No built-in prototype defines one of these names, so only
    an own property of an object answers. *)
Definition field (v : json) (k : string) : jsval :=
  match v with
  | JObj ps => match own_get k ps with Some x => Val x | None => Undefined end
  | _ => Undefined
  end.

(** Optional chaining [v?.k] with a literal name. *)
Definition opt_field (v : jsval) (k : string) : jsval :=
  match v with
  | Val JNull => Undefined
  | Val x => field x k
  | _ => Undefined
  end.

(** Optional chaining [v?.[k]] with a computed key; the only base the
    handlers use it on is the result of a [field] read. *)
Definition opt_member (proto_has : kind -> string -> bool) (v : jsval) (k : string)
  : jsval :=
  match v with
  | Val JNull => Undefined
  | Val x => member proto_has x k
  | _ => Undefined
  end.

(** Writing a value back under a key that [member] resolved to an own
    property: objects are shared by reference in the program, this is the
    functional counterpart. *)
Definition store (container : json) (k : string) (v : json) : json :=
  match container with
  | JObj ps => JObj (own_set k v ps)
  | JArr items =>
      match index_of_key k (length items) with
      | Some i => JArr (<[i := v]> items)
      | None => container
      end
  | _ => container
  end.

(** ToString of a JSON value, as the argument vector of a spawned process
    receives an entry that is not a string. [num] is Number::toString. *)
Fixpoint to_string (num : float -> string) (v : json) : string :=
  match v with
  | JNull => "null"
  | JBool true => "true"
  | JBool false => "false"
  | JNum x => num x
  | JStr s => s
  | JArr items =>
      String.concat ","
        (List.map (fun x => match x with JNull => "" | _ => to_string num x end) items)
  | JObj _ => "[object Object]"
  end.

End Js.

(** ** The gateway handlers of [projects.ts] *)

Module Gateway.
Import Js.

(** Modelled from the spec: the error taxonomy (InvalidRequest, NotFound,
    Unavailable). The table [ErrorCodes] is declared in [../protocol/index.js],
    which is missing; the handlers name [INVALID_REQUEST] and
    [UNAVAILABLE] only. *)
Inductive ErrorCode : Type := INVALID_REQUEST | UNAVAILABLE | NOT_FOUND.

Record ErrorShape : Type := errorShape { code : ErrorCode; message : string }.

(** One call [respond(ok, payload, error)]. *)
Record Response : Type :=
  { ok : bool; payload : option json; error : option ErrorShape }.

(** The options object handed to [execFile]. *)
Record ExecOptions : Type :=
  { timeout : Z; maxBuffer : Z; env_extra : list (string * string) }.

Record Invocation : Type :=
  { file : string; args : list string; options : ExecOptions }.

(** The file system: contents by path, and the paths on which reads and
    writes are refused by the operating system. *)
Record Disk : Type := { files : gmap string string; sealed : gset string }.

(** A computation returns or throws; a thrown value is carried as the text
    [String(err)] that the handlers report. *)
Inductive result (A : Type) : Type :=
| Ok (a : A)
| Throw (err : string).
Arguments Ok {A} a.
Arguments Throw {A} err.

(** What the handlers take from the platform: the environment, the location
    of the module, Node's [path] functions, [JSON], Number::toString, the
    names the built-in prototypes define, and the outcome of a child process
    (its standard output or the failure [execFile] rejects with, a timeout
    or an overflow of the output buffer included) together with what the
    process did to the disk. *)
Record Host : Type :=
  { env_HOME : option string;
    module_dir : string;
    path_join : list string -> string;
    path_resolve : list string -> string;
    JSON_parse : string -> result json;
    JSON_stringify : json -> string;
    number_to_string : float -> string;
    proto_has : kind -> string -> bool;
    spawn : Invocation -> Disk -> result string * Disk }.

Record World : Type :=
  { disk : Disk; spawned : list Invocation; responded : list Response }.

(** The line feed that ends the registry file. *)
Definition newline : string := String "010"%char EmptyString.

(** State and exceptions: the world after a throw is the world at the throw. *)
Definition M (A : Type) : Type := World -> result A * World.

#[export] Instance M_ret : MRet M := fun A a w => (Ok a, w).

#[export] Instance M_bind : MBind M := fun A B f m w =>
  match m w with
  | (Ok a, w') => f a w'
  | (Throw e, w') => (Throw e, w')
  end.

Definition throw {A : Type} (e : string) : M A := fun w => (Throw e, w).

Definition lift {A : Type} (r : result A) : M A := fun w => (r, w).

Definition try_catch {A : Type} (body : M A) (handler : string -> M A) : M A :=
  fun w =>
    match body w with
    | (Ok a, w') => (Ok a, w')
    | (Throw e, w') => handler e w'
    end.

Definition fs_existsSync (p : string) : M bool := fun w =>
  (Ok (match files (disk w) !! p with Some _ => true | None => false end), w).

Definition fs_readFileSync (p : string) : M string := fun w =>
  if bool_decide (p ∈ sealed (disk w)) then
    (Throw ("Error: EACCES: permission denied, open '" +:+ p +:+ "'"), w)
  else
    match files (disk w) !! p with
    | Some text => (Ok text, w)
    | None => (Throw ("Error: ENOENT: no such file or directory, open '" +:+ p +:+ "'"), w)
    end.

Definition fs_writeFileSync (p : string) (data : string) : M unit := fun w =>
  if bool_decide (p ∈ sealed (disk w)) then
    (Throw ("Error: EACCES: permission denied, open '" +:+ p +:+ "'"), w)
  else
    (Ok tt,
     {| disk := {| files := <[p := data]> (files (disk w)); sealed := sealed (disk w) |};
        spawned := spawned w;
        responded := responded w |}).

Definition respond (ok : bool) (payload : option json) (error : option ErrorShape)
  : M unit := fun w =>
  (Ok tt,
   {| disk := disk w;
      spawned := spawned w;
      responded := responded w ++ [ {| ok := ok; payload := payload; error := error |} ] |}).

Section Handlers.
Variable h : Host.

Definition execFileAsync (file : string) (args : list string) (options : ExecOptions)
  : M string := fun w =>
  let inv := {| file := file; args := args; options := options |} in
  let '(out, d) := spawn h inv (disk w) in
  (out, {| disk := d; spawned := spawned w ++ [inv]; responded := responded w |}).

Definition resolveScriptsDir : string :=
  let thisDir := module_dir h in
  let root := path_resolve h [thisDir; "../../.."] in
  path_join h [root; "skills"; "dev-cockpit"; "scripts"].

Definition HOME : string := default "/tmp" (env_HOME h).
Definition COCKPIT_DIR : string := path_join h [HOME; ".openclaw"; "cockpit"].
Definition REGISTRY_PATH : string := path_join h [COCKPIT_DIR; "projects.json"].

Definition runPythonScript (scriptName : string) (args : list string) : M json :=
  let scriptsDir := resolveScriptsDir in
  let scriptPath := path_join h [scriptsDir; scriptName] in
  present ← fs_existsSync scriptPath;
  if negb present then throw ("Error: Script not found: " +:+ scriptPath)
  else
    stdout ← execFileAsync "python3" (scriptPath :: args)
               {| timeout := 30000;
                  maxBuffer := 10 * 1024 * 1024;
                  env_extra := [("PYTHONDONTWRITEBYTECODE", "1")] |};
    lift (JSON_parse h stdout).

Definition unavailable (err : string) : M unit :=
  respond false None (Some (errorShape UNAVAILABLE err)).

(** [projects.list] *)
Definition projects_list : M unit :=
  try_catch
    (present ← fs_existsSync REGISTRY_PATH;
     if negb present then
       respond true
         (Some (JObj [("projects", JObj []);
                      ("message", JStr "No registry found. Run projects.scan first.")]))
         None
     else
       raw ← fs_readFileSync REGISTRY_PATH;
       registry ← lift (JSON_parse h raw);
       respond true (Some registry) None)
    unavailable.

(** The arguments [--days] and [--project] of [projects.usage] and
    [projects.git]. *)
Definition days_args (params : json) : list string :=
  match opt_field (Val params) "days" with
  | Val (JNum d) => ["--days"; number_to_string h d]
  | _ => []
  end.

Definition project_args (params : json) : list string :=
  match opt_field (Val params) "project" with
  | Val (JStr p) => ["--project"; p]
  | _ => []
  end.

(** [projects.usage] *)
Definition projects_usage (params : json) : M unit :=
  try_catch
    (let args := ["--format"; "json"] ++ days_args params ++ project_args params in
     result ← runPythonScript "project_usage.py" args;
     respond true (Some result) None)
    unavailable.

(** [projects.scan] *)
Definition projects_scan (params : json) : M unit :=
  try_catch
    (let roots :=
       match opt_field (Val params) "roots" with
       | Val (JArr items) => List.map (to_string (number_to_string h)) items
       | _ => [path_join h [HOME; "dev"]]
       end in
     let args := ["--output"; REGISTRY_PATH]
                 ++ List.flat_map (fun root => ["--root"; root]) roots in
     result ← runPythonScript "project_scan.py" args;
     present ← fs_existsSync REGISTRY_PATH;
     if (present : bool) then
       raw ← fs_readFileSync REGISTRY_PATH;
       registry ← lift (JSON_parse h raw);
       respond true (Some registry) None
     else respond true (Some result) None)
    unavailable.

(** [registry.projects]: a read on [null] throws. *)
Definition read_projects (registry : json) : M jsval :=
  match registry with
  | JNull => throw "TypeError: Cannot read properties of null (reading 'projects')"
  | _ => mret (field registry "projects")
  end.

(** [registry.projects[projectName].enabled = enabled] in module (strict)
    code. The target is found as [member] finds it; an object of the
    document takes the property, an array or a built-in takes it without any
    change to the document, a primitive refuses it. *)
Definition assign_enabled (registry : json) (projectName : string) (enabled : bool)
  : M json :=
  projects ← read_projects registry;
  match projects return M json with
  | Val JNull | Undefined | Builtin =>
      throw ("TypeError: Cannot read properties of undefined (reading '"
             +:+ projectName +:+ "')")
  | Val container =>
      match member (proto_has h) container projectName return M json with
      | Undefined | Val JNull =>
          throw "TypeError: Cannot set properties of undefined (setting 'enabled')"
      | Val (JObj ps) =>
          mret (store registry "projects"
                  (store container projectName
                     (JObj (own_set "enabled" (JBool enabled) ps))))
      | Val (JArr _) => mret registry
      | Builtin => mret registry
      | Val _ => throw "TypeError: Cannot create property 'enabled' on a primitive value"
      end
  end.

(** [projects.toggle] *)
Definition projects_toggle (params : json) : M unit :=
  let projectName :=
    match opt_field (Val params) "project" with Val (JStr s) => Some s | _ => None end in
  let enabled :=
    match opt_field (Val params) "enabled" with Val (JBool b) => Some b | _ => None end in
  match projectName, enabled with
  | Some projectName, Some enabled =>
      if String.eqb projectName "" then
        respond false None
          (Some (errorShape INVALID_REQUEST "project (string) and enabled (boolean) required"))
      else
        try_catch
          (present ← fs_existsSync REGISTRY_PATH;
           if negb present then
             respond false None (Some (errorShape INVALID_REQUEST "No registry found"))
           else
             raw ← fs_readFileSync REGISTRY_PATH;
             registry ← lift (JSON_parse h raw);
             projects ← read_projects registry;
             if negb (truthy (opt_member (proto_has h) projects projectName)) then
               respond false None
                 (Some (errorShape INVALID_REQUEST ("Project not found: " +:+ projectName)))
             else
               registry' ← assign_enabled registry projectName enabled;
               fs_writeFileSync REGISTRY_PATH (JSON_stringify h registry' +:+ newline);;
               respond true
                 (Some (JObj [("project", JStr projectName); ("enabled", JBool enabled)]))
                 None)
          unavailable
  | _, _ =>
      respond false None
        (Some (errorShape INVALID_REQUEST "project (string) and enabled (boolean) required"))
  end.

(** [projects.git] *)
Definition projects_git (params : json) : M unit :=
  try_catch
    (let args := ["--format"; "json"] ++ days_args params ++ project_args params in
     result ← runPythonScript "git_activity.py" args;
     respond true (Some result) None)
    unavailable.

(** *** The second copy of the module, with the path checks

    It differs from the first in [sanitizePath], [sanitizeProjectName] and
    their use in [projects.usage], [projects.scan] and [projects.git];
    [projects.list] and [projects.toggle] are the same text. *)

(** [s.includes(needle)] *)
Fixpoint includes (needle s : string) : bool :=
  String.prefix needle s
  || match s with
     | EmptyString => false
     | String _ rest => includes needle rest
     end.

Definition sanitizePath (p : string) : option string :=
  let resolved := path_resolve h [p] in
  if negb (String.prefix (HOME +:+ "/") resolved) && negb (String.eqb resolved HOME)
  then None
  else Some resolved.

(** The test of [/[/\\]|\.\./]. *)
Definition sanitizeProjectName (name : string) : option string :=
  if includes "/" name || includes "\" name || includes ".." name then None
  else Some name.

Definition invalid_name : M unit :=
  respond false None (Some (errorShape INVALID_REQUEST "Invalid project name")).

(** The shared shape of the guarded [projects.usage] and [projects.git]. *)
Definition guarded_script_handler (script : string) (params : json) : M unit :=
  try_catch
    (let args := ["--format"; "json"] ++ days_args params in
     let run (args : list string) : M unit :=
       result ← runPythonScript script args;
       respond true (Some result) None in
     match opt_field (Val params) "project" with
     | Val (JStr p) =>
         match sanitizeProjectName p with
         | Some name =>
             if String.eqb name "" then invalid_name
             else run (args ++ ["--project"; name])
         | None => invalid_name
         end
     | _ => run args
     end)
    unavailable.

Definition guarded_projects_usage : json -> M unit :=
  guarded_script_handler "project_usage.py".

Definition guarded_projects_git : json -> M unit :=
  guarded_script_handler "git_activity.py".

Definition valid_roots (rawRoots : list json) : list string :=
  omap sanitizePath
    (omap (fun r => match r with JStr s => Some s | _ => None end) rawRoots).

Definition guarded_projects_scan (params : json) : M unit :=
  try_catch
    (let rawRoots :=
       match opt_field (Val params) "roots" with
       | Val (JArr items) => items
       | _ => [JStr (path_join h [HOME; "dev"])]
       end in
     let roots := valid_roots rawRoots in
     match roots with
     | [] =>
         respond false None
           (Some (errorShape INVALID_REQUEST "No valid roots after path validation"))
     | _ =>
         let args := ["--output"; REGISTRY_PATH]
                     ++ List.flat_map (fun root => ["--root"; root]) roots in
         result ← runPythonScript "project_scan.py" args;
         present ← fs_existsSync REGISTRY_PATH;
         if (present : bool) then
           raw ← fs_readFileSync REGISTRY_PATH;
           registry ← lift (JSON_parse h raw);
           respond true (Some registry) None
         else respond true (Some result) None
     end)
    unavailable.

End Handlers.

(** A handler starts with nothing spawned and nothing answered. *)
Definition initial (d : Disk) : World :=
  {| disk := d; spawned := []; responded := [] |}.

(** *** Vocabulary of the properties *)

Definition success (p : json) : Response :=
  {| ok := true; payload := Some p; error := None |}.

Definition failure (c : ErrorCode) (msg : string) : Response :=
  {| ok := false; payload := None; error := Some (errorShape c msg) |}.

(** The projects map of a registry document: the own properties of its
    [projects] object, none when the property is missing or [null]. A
    document that is not an object, or whose [projects] is not a map, has no
    projects map. *)
Definition registry_projects (registry : json) : option (list (string * json)) :=
  match registry with
  | JObj top =>
      match own_get "projects" top with
      | Some (JObj ps) => Some ps
      | Some JNull => Some []
      | None => Some []
      | Some _ => None
      end
  | _ => None
  end.

(** What is asked of a handler that runs an aggregation script, from a
    world with disk [d]: it returns, it answers once, every process it
    spawns carries the two bounds, and a failure of the process is answered
    by [UNAVAILABLE] with the text of the failure. *)
Definition bounded_and_reported (h : Host) (handler : json -> M unit) : Prop :=
  ∀ (params : json) (d : Disk),
    let out := handler params (initial d) in
    out.1 = Ok tt
    ∧ (∃ resp, responded out.2 = [resp])
    ∧ (∀ inv, inv ∈ spawned out.2 →
         timeout (options inv) = 30000%Z
         ∧ maxBuffer (options inv) = (10 * 1024 * 1024)%Z)
    ∧ (∀ inv err, inv ∈ spawned out.2 → (spawn h inv d).1 = Throw err →
         responded out.2 = [failure UNAVAILABLE err]).

(** A path that is the home directory or lies below it. *)
Definition within_home (h : Host) (r : string) : Prop :=
  r = HOME h ∨ ∃ rest, r = HOME h +:+ "/" +:+ rest.

End Gateway.

(** ** The project registry and session attribution *)

Module Registry.

(** The types [ProjectEntry] and [ProjectRegistry] of the UI controller.
    [projects] is a record keyed by name; its iteration order is kept. *)
Record ProjectEntry : Type :=
  { path : string;
    enabled : bool;
    tags : list string;
    language : string;
    discovered : string;
    description : string;
    lastCommit : option string }.

Record ProjectRegistry : Type :=
  { version : Z;
    scannedAt : string;
    scanRoots : list string;
    projects : list (string * ProjectEntry) }.

(** Modelled from the spec: the sentinel [_unmatched] of sessions that
    belong to no project; the script that produces it is missing. *)
Definition UNMATCHED : string := "_unmatched".

(** Modelled from the spec: the matching rule of [attribute] (Session
    Attribution); it is implemented by [scripts/project_usage.py] of the
    dev-cockpit skill, which is missing. A project matches if
    [cwd] equals its path or starts with its path followed by a path
    separator. *)
Definition path_matches (cwd p : string) : bool :=
  String.eqb cwd p || String.prefix (p +:+ "/") cwd.

(** Modelled from the spec: one step of the scan over the registry in
    iteration order. Only enabled projects take part; a later project
    replaces the candidate only when its path is strictly longer, so a tie
    keeps the first. The script itself is missing. *)
Definition consider (cwd : string) (best : option (string * ProjectEntry))
    (candidate : string * ProjectEntry) : option (string * ProjectEntry) :=
  if enabled candidate.2 && path_matches cwd (path candidate.2) then
    match best with
    | None => Some candidate
    | Some b =>
        if (String.length (path b.2) <? String.length (path candidate.2))%nat
        then Some candidate
        else best
    end
  else best.

(** Modelled from the spec: the project a working directory belongs to,
    none for an empty [cwd] or when nothing matches. The script that
    implements it is missing. *)
Definition best_match (cwd : string) (registry : ProjectRegistry)
  : option (string * ProjectEntry) :=
  if String.eqb cwd "" then None
  else fold_left (consider cwd) (projects registry) None.

(** Modelled from the spec: [attribute(cwd, registry)], a project name or
    the sentinel [_unmatched]; the script that implements it is missing. *)
Definition attribute (cwd : string) (registry : ProjectRegistry) : string :=
  match best_match cwd registry with
  | Some (name, _) => name
  | None => UNMATCHED
  end.

(** *** Vocabulary of the properties *)

(** [cwd] is the directory [p] or lies below it. *)
Definition on_boundary (cwd p : string) : Prop :=
  cwd = p ∨ ∃ rest, cwd = p +:+ "/" +:+ rest.

(** An enabled project whose path matches [cwd]. *)
Definition eligible (cwd : string) (c : string * ProjectEntry) : Prop :=
  enabled c.2 = true ∧ path_matches cwd (path c.2) = true.

End Registry.

(** ** Usage aggregation and its totals *)

Module Usage.
Import Registry.

Section Aggregation.

(** Costs are the numbers the session log records; the aggregation only adds
    them. Nothing is assumed of the addition (binary64 addition is not
    associative). *)
Context {Cost : Type}.
Variable cost_zero : Cost.
Variable cost_add : Cost -> Cost -> Cost.

(** Modelled from the spec: the rounding of a per-project cost for the
    result, and the rounding of the grand total. The specification names the
    per-project rounding and fixes neither its precision nor whether the
    grand total is rounded too, so both are taken as given; the aggregation
    script is missing. *)
Variable round_project : Cost -> Cost.
Variable round_total : Cost -> Cost.

(** Modelled from the spec: what the aggregation reads of a session record
    (the session logs and their reader are missing): the
    working directory of the header and, per event, the timestamp
    (milliseconds), the model, the token counts and the recorded cost. *)
Record Event : Type :=
  { ev_timestamp : Z;
    ev_model : string;
    ev_input : Z;
    ev_output : Z;
    ev_cost : Cost }.

(** Modelled from the spec: a session record, its header reduced to [cwd];
    the reader of the session logs is missing. *)
Record SessionRecord : Type := { cwd : string; events : list Event }.

(** The type [ProjectUsageEntry] of the UI controller, with the fields that
    the grand totals read; [activeTimeHours] and the per-model breakdown are
    left out. *)
Record ProjectUsageEntry : Type :=
  { sessions : Z;
    totalTokens : Z;
    inputTokens : Z;
    outputTokens : Z;
    estimatedCostUSD : Cost }.

(** The [totals] object of [ProjectUsageResult]. *)
Record Totals : Type :=
  { totals_sessions : Z;
    totals_totalTokens : Z;
    totals_estimatedCostUSD : Cost }.

(** The type [ProjectUsageResult] of the UI controller, without
    [generatedAt]. *)
Record ProjectUsageResult : Type :=
  { days : option Z;
    projectFilter : option string;
    totalProjects : nat;
    projects : list (string * ProjectUsageEntry);
    totals : Totals }.

(** Modelled from the spec: the entry of a project before its first counted
    session; the aggregation script is missing. *)
Definition empty_entry : ProjectUsageEntry :=
  {| sessions := 0; totalTokens := 0; inputTokens := 0; outputTokens := 0;
     estimatedCostUSD := cost_zero |}.

(** Modelled from the spec: the window is counted in days of 24 hours; the
    aggregation script is missing. *)
Definition MS_PER_DAY : Z := 24 * 60 * 60 * 1000.

(** Modelled from the spec: an event counts when its timestamp lies in the
    trailing window of [days] days before [now]; no window means all time.
    The aggregation script is missing. *)
Definition in_window (now : Z) (days : option Z) (e : Event) : bool :=
  match days with
  | None => true
  | Some d => (now - d * MS_PER_DAY <=? ev_timestamp e)%Z && (ev_timestamp e <=? now)%Z
  end.

(** Modelled from the spec: per included event the owning project's input
    and output tokens, total tokens (input plus output) and cost grow by the
    event's values. The aggregation script is missing. *)
Definition add_event (u : ProjectUsageEntry) (e : Event) : ProjectUsageEntry :=
  {| sessions := sessions u;
     totalTokens := totalTokens u + (ev_input e + ev_output e);
     inputTokens := inputTokens u + ev_input e;
     outputTokens := outputTokens u + ev_output e;
     estimatedCostUSD := cost_add (estimatedCostUSD u) (ev_cost e) |}.

(** Modelled from the spec: a session with at least one event in the window
    counts once for its project, and its events in the window are added.
    The aggregation script is missing. *)
Definition add_session (counted : list Event) (u : ProjectUsageEntry)
  : ProjectUsageEntry :=
  fold_left add_event counted
    {| sessions := sessions u + 1;
       totalTokens := totalTokens u;
       inputTokens := inputTokens u;
       outputTokens := outputTokens u;
       estimatedCostUSD := estimatedCostUSD u |}.

(** Modelled from the spec: the entry of a project in the result under
    construction, updated in place or appended from the empty entry (the
    per-project map of the aggregation script, which is missing). *)
Fixpoint upsert (name : string) (f : ProjectUsageEntry -> ProjectUsageEntry)
    (acc : list (string * ProjectUsageEntry)) : list (string * ProjectUsageEntry) :=
  match acc with
  | [] => [(name, f empty_entry)]
  | (n, u) :: rest =>
      if String.eqb n name then (n, f u) :: rest else (n, u) :: upsert name f rest
  end.

(** Modelled from the spec: each session is attributed to a project (or to
    [_unmatched]) and accumulated there when it has an event in the window.
    The aggregation script is missing. *)
Definition accumulate (now : Z) (days : option Z) (registry : ProjectRegistry)
    (acc : list (string * ProjectUsageEntry)) (s : SessionRecord)
  : list (string * ProjectUsageEntry) :=
  match List.filter (in_window now days) (events s) with
  | [] => acc
  | counted => upsert (attribute (cwd s) registry) (add_session counted) acc
  end.

(** Modelled from the spec: the grand totals are summed across the included
    projects. The aggregation script is missing. *)
Definition add_to_totals (t : Totals) (p : string * ProjectUsageEntry) : Totals :=
  {| totals_sessions := totals_sessions t + sessions p.2;
     totals_totalTokens := totals_totalTokens t + totalTokens p.2;
     totals_estimatedCostUSD :=
       cost_add (totals_estimatedCostUSD t) (estimatedCostUSD p.2) |}.

(** Modelled from the spec: the totals before any project is added; the
    aggregation script is missing. *)
Definition zero_totals : Totals :=
  {| totals_sessions := 0; totals_totalTokens := 0;
     totals_estimatedCostUSD := cost_zero |}.

(** Modelled from the spec: the sums of the included projects before any
    rounding. The window is fixed once by [now]; the filter is a step after
    attribution; a missing registry gives no project. The aggregation
    script is missing. *)
Definition accumulated (now : Z) (days : option Z) (projectFilter : option string)
    (sessions : list SessionRecord) (registry : option ProjectRegistry)
  : list (string * ProjectUsageEntry) :=
  let all :=
    match registry with
    | None => []
    | Some r => fold_left (accumulate now days r) sessions []
    end in
  match projectFilter with
  | None => all
  | Some p => List.filter (fun e => String.eqb e.1 p) all
  end.

(** Modelled from the spec: the entry of a project as the result shows it,
    with its cost rounded; the counts are integers and stay as they are.
    The aggregation script is missing. *)
Definition reported (u : ProjectUsageEntry) : ProjectUsageEntry :=
  {| sessions := sessions u;
     totalTokens := totalTokens u;
     inputTokens := inputTokens u;
     outputTokens := outputTokens u;
     estimatedCostUSD := round_project (estimatedCostUSD u) |}.

(** Modelled from the spec: [aggregate(days, projectFilter, sessions,
    registry)]. The grand totals are the sum across the included projects,
    "computed independently of per-project rounding": they are summed from
    the costs before rounding, not from the rounded costs of the result.
    The aggregation script is missing. *)
Definition aggregate (now : Z) (days : option Z) (projectFilter : option string)
    (sessions : list SessionRecord) (registry : option ProjectRegistry)
  : ProjectUsageResult :=
  let included := accumulated now days projectFilter sessions registry in
  let sums := fold_left add_to_totals included zero_totals in
  {| days := days;
     projectFilter := projectFilter;
     totalProjects := length included;
     projects := List.map (fun p => (p.1, reported p.2)) included;
     totals :=
       {| totals_sessions := totals_sessions sums;
          totals_totalTokens := totals_totalTokens sums;
          totals_estimatedCostUSD := round_total (totals_estimatedCostUSD sums) |} |}.

(** The events of a session that fall in the window, and what they add up
    to: tokens, cost, and one session when there is any. *)
Definition counted_events (now : Z) (days : option Z) (s : SessionRecord) : list Event :=
  List.filter (in_window now days) (events s).

Definition counted_tokens (now : Z) (days : option Z) (s : SessionRecord) : Z :=
  foldr Z.add 0%Z
    (List.map (fun e => ev_input e + ev_output e)%Z (counted_events now days s)).

Definition counted_cost (now : Z) (days : option Z) (s : SessionRecord) : Cost :=
  fold_left cost_add (List.map ev_cost (counted_events now days s)) cost_zero.

Definition counted_session (now : Z) (days : option Z) (s : SessionRecord) : Z :=
  match counted_events now days s with
  | [] => 0
  | _ => 1
  end.

(** Whether the project a session is attributed to passes the filter. *)
Definition included_session (projectFilter : option string) (registry : ProjectRegistry)
    (s : SessionRecord) : bool :=
  match projectFilter with
  | None => true
  | Some p => String.eqb (attribute (cwd s) registry) p
  end.

End Aggregation.

Arguments Event Cost : clear implicits.
Arguments SessionRecord Cost : clear implicits.
Arguments ProjectUsageEntry Cost : clear implicits.
Arguments Totals Cost : clear implicits.
Arguments ProjectUsageResult Cost : clear implicits.

(** The sums the totals are compared with: integers, and costs added from
    the left starting at zero. *)
Definition sum_Z (l : list Z) : Z := foldr Z.add 0%Z l.

Definition sum_cost {Cost : Type} (cost_zero : Cost) (cost_add : Cost -> Cost -> Cost)
    (l : list Cost) : Cost :=
  fold_left cost_add l cost_zero.

End Usage.

(** ** The brain-context cache *)

Module BrainContextCache.

Record Entity : Type :=
  { entity_name : string; entity_type : string; entity_summary : option string }.

Record BrainContextPayload : Type :=
  { contextBlock : string;
    memoriesUsed : Z;
    retrievalMs : Z;
    identity : option string;
    entities : option (list Entity) }.

Record CacheEntry : Type := { payload : BrainContextPayload; expiresAt : Z }.

Definition DEFAULT_TTL_MS : Z := 30000.

(** The module-level [Map]; [now] is the value [Date.now()] returns at the
    call, in milliseconds. *)
Definition setBrainContext (now : Z) (sessionKey : string)
    (context : BrainContextPayload) (cache : gmap string CacheEntry)
  : gmap string CacheEntry :=
  <[sessionKey := {| payload := context; expiresAt := now + DEFAULT_TTL_MS |}]> cache.

Definition getBrainContext (now : Z) (sessionKey : string)
    (cache : gmap string CacheEntry)
  : option BrainContextPayload * gmap string CacheEntry :=
  match cache !! sessionKey with
  | None => (None, cache)
  | Some entry =>
      if (now >? expiresAt entry)%Z then (None, delete sessionKey cache)
      else (Some (payload entry), cache)
  end.

Definition clearBrainContext (sessionKey : string) (cache : gmap string CacheEntry)
  : gmap string CacheEntry :=
  delete sessionKey cache.

Definition clearAllBrainContext (cache : gmap string CacheEntry)
  : gmap string CacheEntry := ∅.

End BrainContextCache.

(** ** The brain-context hook: truncation of the context block *)

Module BrainContext.

(** [s.slice(0, end)] for an integer [end]: a negative end counts from the
    end of the string, and the result never leaves the string. A character
    of a [string] stands for a UTF-16 code unit. *)
Definition slice_from_start (s : string) (end_ : Z) : string :=
  let len := Z.of_nat (String.length s) in
  let to := if (end_ <? 0)%Z then Z.max (len + end_) 0 else Z.min end_ len in
  String.substring 0 (Z.to_nat to) s.

Definition TRUNCATED_SUFFIX : string :=
  String "010"%char "[...truncated]".

Definition truncateContextBlock (block : string) (maxChars : Z) : string :=
  if (Z.of_nat (String.length block) <=? maxChars)%Z then block
  else slice_from_start block maxChars +:+ TRUNCATED_SUFFIX.

(** [MAX_CONTEXT_CHARS], the bound the hook passes: [parsed] is the integer
    that [parseInt] reads from [BRAIN_CONTEXT_MAX_TOKENS] (from "2000" when
    the variable is unset), none when it reads no number. *)
Definition MAX_CONTEXT_CHARS (parsed : option Z) : Z :=
  (match parsed with
   | Some n => if (n =? 0)%Z then 2000 else n
   | None => 2000
   end * 4)%Z.

End BrainContext.

(** ** Sample inputs *)

Module Samples.
Import Js Gateway.

Definition quoted (s : string) : string :=
  String "034"%char (s +:+ String "034"%char "").

Definition block (opening closing indent : string) (items : list string) : string :=
  match items with
  | [] => opening +:+ closing
  | _ =>
      opening +:+ newline +:+ indent +:+ "  "
      +:+ String.concat ("," +:+ newline +:+ indent +:+ "  ") items
      +:+ newline +:+ indent +:+ closing
  end.

(** A printer in the layout of [JSON.stringify(value, null, 2)], for
    documents whose strings need no escape. *)
Fixpoint render (num : float -> string) (indent : string) (v : json) : string :=
  match v with
  | JNull => "null"
  | JBool true => "true"
  | JBool false => "false"
  | JNum x => num x
  | JStr s => quoted s
  | JArr items => block "[" "]" indent (List.map (render num (indent +:+ "  ")) items)
  | JObj ps =>
      block "{" "}" indent
        (List.map
           (fun p => let '(k, x) := p in
                     quoted k +:+ ": " +:+ render num (indent +:+ "  ") x) ps)
  end.

Definition sample_number (x : float) : string :=
  if PrimFloat.eqb x 1%float then "1"
  else if PrimFloat.eqb x 7%float then "7"
  else "0".

Definition openclaw_entry : json :=
  JObj [("path", JStr "/home/dev/dev/projects/openclaw");
        ("enabled", JBool true);
        ("tags", JArr [JStr "typescript"; JStr "agent-framework"]);
        ("language", JStr "typescript");
        ("discovered", JStr "2026-02-20");
        ("description", JStr "OpenClaw agent framework")].

Definition registry_doc : json :=
  JObj [("version", JNum 1%float);
        ("scannedAt", JStr "2026-02-20T17:00:00Z");
        ("scanRoots", JArr [JStr "/home/dev/dev"]);
        ("projects", JObj [("openclaw", openclaw_entry)])].

Definition registry_text : string := render sample_number "" registry_doc +:+ newline.

Definition sample_parse (text : string) : result json :=
  if String.eqb text registry_text then Ok registry_doc
  else if String.eqb text "{}" then Ok (JObj [])
  else Throw "SyntaxError: Unexpected token in JSON".

Definition sample_resolve (parts : list string) : string :=
  match parts with
  | [p] => p
  | _ => "/app"
  end.

(** A host whose child processes print an empty object and leave the disk. *)
Definition host : Host :=
  {| env_HOME := Some "/home/dev";
     module_dir := "/app/src/gateway/server-methods";
     path_join := String.concat "/";
     path_resolve := sample_resolve;
     JSON_parse := sample_parse;
     JSON_stringify := render sample_number "";
     number_to_string := sample_number;
     proto_has := fun _ _ => false;
     spawn := fun _ d => (Ok "{}", d) |}.

(** The same host with child processes that are killed at the timeout. *)
Definition slow_host : Host :=
  {| env_HOME := env_HOME host;
     module_dir := module_dir host;
     path_join := path_join host;
     path_resolve := path_resolve host;
     JSON_parse := JSON_parse host;
     JSON_stringify := JSON_stringify host;
     number_to_string := number_to_string host;
     proto_has := proto_has host;
     spawn := fun _ d => (Throw "Error: Command failed: python3 (killed by SIGTERM)", d) |}.

Definition script_files : gmap string string :=
  {[ "/app/skills/dev-cockpit/scripts/project_usage.py" := "";
     "/app/skills/dev-cockpit/scripts/project_scan.py" := "";
     "/app/skills/dev-cockpit/scripts/git_activity.py" := "" ]}.

Definition disk_without_registry : Disk :=
  {| files := script_files; sealed := ∅ |}.

Definition disk_with_registry : Disk :=
  {| files := <[REGISTRY_PATH host := registry_text]> script_files; sealed := ∅ |}.

Definition disk_with_garbage : Disk :=
  {| files := <[REGISTRY_PATH host := "{ projects: "]> script_files; sealed := ∅ |}.

Definition toggle_params (name : string) (enabled : bool) : json :=
  JObj [("project", JStr name); ("enabled", JBool enabled)].

Definition entry_at (p : string) (on : bool) : Registry.ProjectEntry :=
  {| Registry.path := p;
     Registry.enabled := on;
     Registry.tags := [];
     Registry.language := "typescript";
     Registry.discovered := "2026-02-20";
     Registry.description := "";
     Registry.lastCommit := None |}.

Definition registry_of (ps : list (string * Registry.ProjectEntry))
  : Registry.ProjectRegistry :=
  {| Registry.version := 1;
     Registry.scannedAt := "2026-02-20T17:00:00Z";
     Registry.scanRoots := ["/a"];
     Registry.projects := ps |}.

(** A project, a project nested in it, and a disabled one nested deeper. *)
Definition nested_registry : Registry.ProjectRegistry :=
  registry_of [("outer", entry_at "/a" true);
               ("inner", entry_at "/a/b" true);
               ("deep", entry_at "/a/b/c" false)].

Definition single_registry : Registry.ProjectRegistry :=
  registry_of [("b", entry_at "/a/b" true)].

(** The usage scenario of the specification, with costs in millionths of a
    dollar and times in milliseconds. *)
Definition scenario_registry : Registry.ProjectRegistry :=
  registry_of [("openclaw", entry_at "/dev/openclaw" true)].

Definition scenario_now : Z := 1771600000000.

Definition scenario_sessions : list (Usage.SessionRecord Z) :=
  [ {| Usage.cwd := "/dev/openclaw/ui";
       Usage.events :=
         [ {| Usage.ev_timestamp := scenario_now - 3600000;
              Usage.ev_model := "sonnet";
              Usage.ev_input := 100;
              Usage.ev_output := 50;
              Usage.ev_cost := 10000%Z |};
           {| Usage.ev_timestamp := scenario_now - 1800000;
              Usage.ev_model := "sonnet";
              Usage.ev_input := 20;
              Usage.ev_output := 10;
              Usage.ev_cost := 2000%Z |} ] |};
    {| Usage.cwd := "/dev/unknown-repo";
       Usage.events :=
         [ {| Usage.ev_timestamp := scenario_now - 60000;
              Usage.ev_model := "haiku";
              Usage.ev_input := 7;
              Usage.ev_output := 3;
              Usage.ev_cost := 100%Z |};
           {| Usage.ev_timestamp := scenario_now - 30 * 86400000;
              Usage.ev_model := "haiku";
              Usage.ev_input := 1000;
              Usage.ev_output := 1000;
              Usage.ev_cost := 5000%Z |} ] |} ].

(** Modelled from the spec: a rounding of costs for the samples. The
    specification names the per-project rounding and not its precision, and
    the aggregation script is missing; here costs are counted in millionths
    of a dollar and rounded to four decimals of a dollar, halves up. *)
Definition round_4_decimals (c : Z) : Z := ((c + 50) / 100 * 100)%Z.

(** Two projects with one small event each. *)
Definition small_registry : Registry.ProjectRegistry :=
  registry_of [("alpha", entry_at "/dev/alpha" true);
               ("beta", entry_at "/dev/beta" true)].

Definition small_sessions : list (Usage.SessionRecord Z) :=
  [ {| Usage.cwd := "/dev/alpha";
       Usage.events :=
         [ {| Usage.ev_timestamp := scenario_now - 3600000;
              Usage.ev_model := "haiku";
              Usage.ev_input := 4;
              Usage.ev_output := 2;
              Usage.ev_cost := 40%Z |} ] |};
    {| Usage.cwd := "/dev/beta/src";
       Usage.events :=
         [ {| Usage.ev_timestamp := scenario_now - 1800000;
              Usage.ev_model := "haiku";
              Usage.ev_input := 3;
              Usage.ev_output := 1;
              Usage.ev_cost := 40%Z |} ] |} ].

Definition sample_payload : BrainContextCache.BrainContextPayload :=
  {| BrainContextCache.contextBlock := "remembered";
     BrainContextCache.memoriesUsed := 3;
     BrainContextCache.retrievalMs := 120;
     BrainContextCache.identity := Some "agent";
     BrainContextCache.entities := None |}.

End Samples.

(** ** Vocabulary of the further gateway properties *)

Module GatewayMore.
Import Js Gateway.

(** The registry document with the flag of one project replaced: the value
    [projects.toggle] builds from the document [JObj top] whose projects map
    [ps] holds the object [entry] under [name]. *)
Definition with_flag (top ps entry : list (string * json)) (name : string)
    (enabled : bool) : json :=
  JObj (own_set "projects"
          (JObj (own_set name (JObj (own_set "enabled" (JBool enabled) entry)) ps)) top).

End GatewayMore.

(** ** The hooks of the intelligence service

    [brain-context] asks the service for memories when a message comes in
    and stores them in the brain context cache; [brain-ingest] forwards
    every turn of a conversation to the service. Both are handlers of hook
    events and must never fail the message flow. *)

Module Hooks.
Import Js BrainContextCache.

(** A value that [throw] raises or a promise rejects with: whether it is an
    [Error], its [name] and [message], and the text [String(err)]. *)
Record Thrown : Type :=
  { is_error : bool; err_name : string; err_message : string; err_text : string }.

Inductive outcome (A : Type) : Type :=
| Returned (a : A)
| Raised (e : Thrown).
Arguments Returned {A} a.
Arguments Raised {A} e.

(** [InjectResponse]; the body of a reply is taken to have this type, as
    the cast in [fetchContextInject] takes it. *)
Record InjectResponse : Type :=
  { context_block : option string;
    memories_used : option Z;
    inject_identity : option string;
    inject_entities : option (list Entity) }.

(** [{}] *)
Definition empty_response : InjectResponse :=
  {| context_block := None; memories_used := None;
     inject_identity := None; inject_entities := None |}.

(** What the handlers read of a [Response]: [ok], [status], [statusText]
    and the promise of [json()]. *)
Record FetchResponse : Type :=
  { resp_ok : bool;
    resp_status : Z;
    resp_statusText : string;
    resp_json : outcome InjectResponse }.

(** [new AbortController()] together with the timer
    [setTimeout(() => controller.abort(), ms)] that aborts it. *)
Record AbortTimer : Type := { timer_id : nat; timer_ms : Z }.

(** The arguments of a [fetch]; [req_signal] is the controller whose
    signal the request carries. *)
Record Request : Type :=
  { req_url : string;
    req_method : string;
    req_headers : list (string * string);
    req_body : string;
    req_signal : AbortTimer }.

Inductive Level : Type := Debug | Info | Warn | Error.

Inductive LogValue : Type :=
| LStr (s : string)
| LNum (n : Z)
| LUndefined.

Definition lstr (s : option string) : LogValue :=
  match s with
  | Some x => LStr x
  | None => LUndefined
  end.

Record LogEntry : Type :=
  { level : Level; text : string; meta : list (string * LogValue) }.

(** [Date]: a valid date has an ISO text, on an invalid one
    [toISOString()] throws. *)
Inductive JsDate : Type :=
| ValidDate (iso : string)
| InvalidDate.

(** The context of a message event. The declarations of the event and of
    its context are not in the files of the handlers; the records have the
    fields the handlers read, each one of the context optional. A value of
    [metadata] that [JSON.stringify] leaves out is [None]. *)
Record MessageContext : Type :=
  { content : option string;
    channelId : option string;
    from : option string;
    to : option string;
    success : option bool;
    conversationId : option string;
    messageId : option string;
    accountId : option string;
    metadata : option (list (string * option json)) }.

Record HookEvent : Type :=
  { type : string;
    action : string;
    sessionKey : string;
    timestamp : JsDate;
    context : MessageContext }.

(** What the handlers take from the platform and from the rest of the
    program: the service URL of the environment, the integer [parseInt]
    reads from [BRAIN_CONTEXT_MAX_TOKENS] (see [BrainContext]),
    [String.prototype.trim], [JSON.stringify], the two guards of the hook
    system (their module is missing), the outcome of the n-th [fetch] (a
    reply, or the value the promise rejects with, an abort by the timer
    included) and the value of the n-th [Date.now()]. *)
Record Env : Type :=
  { INTELLIGENCE_URL : option string;
    BRAIN_CONTEXT_MAX_TOKENS : option Z;
    trim : string -> string;
    stringify : json -> string;
    isMessageReceivedEvent : HookEvent -> bool;
    isMessageSentEvent : HookEvent -> bool;
    fetch : nat -> Request -> outcome FetchResponse;
    clock : nat -> Z }.

(** The state the handlers work on: the module-level cache, the requests
    sent, the readings of the clock taken, the timers started and those
    still pending, and the log. *)
Record World : Type :=
  { cache : gmap string CacheEntry;
    requests : list Request;
    ticks : nat;
    timers_started : nat;
    timers_pending : list nat;
    logs : list LogEntry }.

Definition Run (A : Type) : Type := World -> outcome A * World.

#[export] Instance Run_ret : MRet Run := fun A a w => (Returned a, w).

#[export] Instance Run_bind : MBind Run := fun A B f m w =>
  match m w with
  | (Returned a, w') => f a w'
  | (Raised e, w') => (Raised e, w')
  end.

Definition raise {A : Type} (e : Thrown) : Run A := fun w => (Raised e, w).

Definition await {A : Type} (r : outcome A) : Run A := fun w => (r, w).

Definition try_catch {A : Type} (body : Run A) (handler : Thrown -> Run A) : Run A :=
  fun w =>
    match body w with
    | (Returned a, w') => (Returned a, w')
    | (Raised e, w') => handler e w'
    end.

(** [try { body } finally { cleanup }] with a cleanup that returns. *)
Definition try_finally {A : Type} (body : Run A) (cleanup : Run unit) : Run A :=
  fun w =>
    match body w with
    | (r, w') =>
        match cleanup w' with
        | (Returned _, w'') => (r, w'')
        | (Raised e, w'') => (Raised e, w'')
        end
    end.

Definition log (l : Level) (msg : string) (fields : list (string * LogValue)) : Run unit :=
  fun w =>
    (Returned tt,
     {| cache := cache w; requests := requests w; ticks := ticks w;
        timers_started := timers_started w; timers_pending := timers_pending w;
        logs := logs w ++ [ {| level := l; text := msg; meta := fields |} ] |}).

(** [new AbortController()] and [setTimeout(() => controller.abort(), ms)] *)
Definition abort_after (ms : Z) : Run AbortTimer := fun w =>
  (Returned {| timer_id := timers_started w; timer_ms := ms |},
   {| cache := cache w; requests := requests w; ticks := ticks w;
      timers_started := S (timers_started w);
      timers_pending := timers_pending w ++ [timers_started w];
      logs := logs w |}).

Definition clearTimeout (t : AbortTimer) : Run unit := fun w =>
  (Returned tt,
   {| cache := cache w; requests := requests w; ticks := ticks w;
      timers_started := timers_started w;
      timers_pending :=
        List.filter (fun i => negb (Nat.eqb i (timer_id t))) (timers_pending w);
      logs := logs w |}).

Definition error_text (err : Thrown) : string :=
  if is_error err then err_message err else err_text err.

Definition is_abort (err : Thrown) : bool :=
  is_error err && String.eqb (err_name err) "AbortError".

(** The own properties of an object literal, in the order they are
    written; a property whose value is [undefined] is left out by
    [JSON.stringify]. *)
Definition object (ps : list (string * option json)) : json :=
  JObj (omap (fun p => match p.2 with Some v => Some (p.1, v) | None => None end) ps).

Definition str (s : option string) : option json := JStr <$> s.

(** The value of a decimal numeral. *)
Fixpoint digits_value (s : string) (acc : N) : option N :=
  match s with
  | EmptyString => Some acc
  | String c rest =>
      let d := N_of_ascii c in
      if (48 <=? d)%N && (d <=? 57)%N then digits_value rest (acc * 10 + (d - 48))%N
      else None
  end.

(** A property key that is an array index: the canonical numeral of an
    integer below 2^32 - 1. An object lists such keys first, in ascending
    order, before the other keys in the order of their creation. *)
Definition array_index (k : string) : option N :=
  match k with
  | EmptyString => None
  | _ =>
      match digits_value k 0 with
      | Some n =>
          if (n <? 4294967295)%N && (String.eqb k "0" || negb (String.prefix "0" k))
          then Some n else None
      | None => None
      end
  end.

Fixpoint insert_index (n : N) (k : string) (v : option json)
    (ps : list (string * option json)) : list (string * option json) :=
  match ps with
  | [] => [(k, v)]
  | (k', v') :: rest =>
      match array_index k' with
      | Some m => if (n <? m)%N then (k, v) :: ps else (k', v') :: insert_index n k v rest
      | None => (k, v) :: ps
      end
  end.

(** Defining the property [k] of an object whose properties are [ps]: a
    property that exists keeps its place and takes the value. *)
Definition define (ps : list (string * option json)) (p : string * option json)
  : list (string * option json) :=
  if existsb (fun q => String.eqb p.1 q.1) ps then
    List.map (fun q => if String.eqb p.1 q.1 then (q.1, p.2) else q) ps
  else
    match array_index p.1 with
    | Some n => insert_index n p.1 p.2 ps
    | None => ps ++ [p]
    end.

(** [{ ...ps, ...spread }] *)
Definition spread (ps : list (string * option json))
    (more : option (list (string * option json))) : list (string * option json) :=
  match more with
  | Some qs => fold_left define qs ps
  | None => ps
  end.

Section Handlers.
Variable env : Env.

Definition Date_now : Run Z := fun w =>
  (Returned (clock env (ticks w)),
   {| cache := cache w; requests := requests w; ticks := S (ticks w);
      timers_started := timers_started w; timers_pending := timers_pending w;
      logs := logs w |}).

(** [fetch(url, { method: "POST", headers, body, signal })] *)
Definition post (url : string) (body : string) (signal : AbortTimer) : Run FetchResponse :=
  fun w =>
    let req := {| req_url := url; req_method := "POST";
                  req_headers := [("Content-Type", "application/json")];
                  req_body := body; req_signal := signal |} in
    (fetch env (length (requests w)) req,
     {| cache := cache w; requests := requests w ++ [req]; ticks := ticks w;
        timers_started := timers_started w; timers_pending := timers_pending w;
        logs := logs w |}).

Definition on_cache (f : gmap string CacheEntry -> gmap string CacheEntry) : Run unit :=
  fun w =>
    (Returned tt,
     {| cache := f (cache w); requests := requests w; ticks := ticks w;
        timers_started := timers_started w; timers_pending := timers_pending w;
        logs := logs w |}).

(** [setBrainContext] of the cache module, on the cache of the world. *)
Definition setBrainContext (key : string) (payload : BrainContextPayload) : Run unit :=
  now ← Date_now;
  on_cache (BrainContextCache.setBrainContext now key payload).

Definition toISOString (d : JsDate) : Run string :=
  match d with
  | ValidDate iso => mret iso
  | InvalidDate =>
      raise {| is_error := true; err_name := "RangeError";
               err_message := "Invalid time value";
               err_text := "RangeError: Invalid time value" |}
  end.

(** *** brain-context *)

Definition TIMEOUT_MS : Z := 2000.

Definition MAX_CONTEXT_CHARS : Z :=
  BrainContext.MAX_CONTEXT_CHARS (BRAIN_CONTEXT_MAX_TOKENS env).

Definition non_ok_status (response : FetchResponse) : Run unit :=
  log Warn "Intelligence service returned non-OK status"
    [("status", LNum (resp_status response));
     ("statusText", LStr (resp_statusText response))].

Definition fetchContextInject (url : string) (payload : json) (signal : AbortTimer)
  : Run InjectResponse :=
  response ← post (url +:+ "/context/inject") (stringify env payload) signal;
  if negb (resp_ok response) then
    non_ok_status response;;
    mret empty_response
  else await (resp_json response).

(** How one turn of the loop of [fetchWithRetry] ends. *)
Inductive turn (A : Type) : Type :=
| Continue
| Return (a : A).
Arguments Continue {A}.
Arguments Return {A} a.

Definition attempt_once (url : string) (payload : json) (start : Z) (attempt : nat)
  : Run (turn (InjectResponse * Z)) :=
  timeout ← abort_after TIMEOUT_MS;
  try_finally
    (try_catch
       (result ← fetchContextInject url payload timeout;
        now ← Date_now;
        mret (Return (result, (now - start)%Z)))
       (fun err =>
          if is_abort err then
            match attempt with
            | 0 =>
                log Warn "BRAIN_CONTEXT_TIMEOUT: retrying"
                  [("url", LStr url); ("attempt", LNum 1)];;
                mret Continue
            | _ =>
                log Warn "BRAIN_CONTEXT_TIMEOUT: giving up after retry" [("url", LStr url)];;
                raise err
            end
          else raise err))
    (clearTimeout timeout).

(** The loop [for (let attempt = 0; attempt < 2; attempt++)], by the number
    of turns that remain; the statement after the loop is reached with none
    left. *)
Fixpoint attempts (remaining : nat) (url : string) (payload : json) (start : Z)
    (attempt : nat) : Run (InjectResponse * Z) :=
  match remaining with
  | 0 =>
      now ← Date_now;
      mret (empty_response, (now - start)%Z)
  | S remaining' =>
      outcome ← attempt_once url payload start attempt;
      match outcome with
      | Return r => mret r
      | Continue => attempts remaining' url payload start (S attempt)
      end
  end.

Definition fetchWithRetry (url : string) (payload : json) : Run (InjectResponse * Z) :=
  start ← Date_now;
  attempts 2 url payload start 0.

(** [Math.ceil(n / 4)] for a length [n]. *)
Definition estimated_tokens (block : string) : Z :=
  (Z.of_nat (String.length block) + 3) / 4.

(** The object [fetchWithRetry] is called with. *)
Definition inject_query (ctx : MessageContext) : json :=
  object
    [("messages",
      Some (JArr [object [("role", Some (JStr "user")); ("content", str (content ctx))]]));
     ("limit", Some (JNum 5%float));
     ("include_identity", Some (JBool true));
     ("include_entities", Some (JBool true))].

Definition brainContext (event : HookEvent) : Run unit :=
  if negb (String.eqb (type event) "message") then mret tt
  else if negb (isMessageReceivedEvent env event) then mret tt
  else
    match trim env <$> INTELLIGENCE_URL env with
    | None => mret tt
    | Some intelligenceUrl =>
        if String.eqb intelligenceUrl "" then mret tt
        else
          let ctx := context event in
          try_catch
            (fetched ← fetchWithRetry intelligenceUrl (inject_query ctx);
             let result := fetched.1 in
             let retrievalMs := fetched.2 in
             let contextBlock := default "" (trim env <$> context_block result) in
             let memoriesUsed := default 0%Z (memories_used result) in
             if String.eqb contextBlock "" && (memoriesUsed =? 0)%Z then
               log Debug "BRAIN_CONTEXT_RETRIEVED: no relevant memories"
                 [("sessionKey", LStr (sessionKey event)); ("retrievalMs", LNum retrievalMs)]
             else
               let payload :=
                 {| contextBlock :=
                      BrainContext.truncateContextBlock contextBlock MAX_CONTEXT_CHARS;
                    memoriesUsed := memoriesUsed;
                    retrievalMs := retrievalMs;
                    identity := inject_identity result;
                    entities := inject_entities result |} in
               setBrainContext (sessionKey event) payload;;
               log Info "BRAIN_CONTEXT_RETRIEVED"
                 [("sessionKey", LStr (sessionKey event));
                  ("memoriesUsed", LNum memoriesUsed);
                  ("estimatedTokens",
                   LNum (estimated_tokens (BrainContextCache.contextBlock payload)));
                  ("retrievalMs", LNum retrievalMs)])
            (fun err =>
               log Warn "BRAIN_CONTEXT_FAILED"
                 [("error", LStr (error_text err));
                  ("sessionKey", LStr (sessionKey event))])
    end.

(** *** brain-ingest *)

Definition postToIngest (url : string) (payload : json) : Run unit :=
  timeout ← abort_after 5000;
  try_finally
    (response ← post (url +:+ "/ingest") (stringify env payload) timeout;
     if negb (resp_ok response) then non_ok_status response else mret tt)
    (clearTimeout timeout).

(** The [metadata] of the turn of a received message: the fields of the
    event, then the own properties of [ctx.metadata] over them. *)
Definition received_metadata (event : HookEvent) (iso : string)
  : list (string * option json) :=
  let ctx := context event in
  spread
    [("conversation_id", str (conversationId ctx));
     ("message_id", str (messageId ctx));
     ("account_id", str (accountId ctx));
     ("timestamp", Some (JStr iso))]
    (metadata ctx).

(** The objects [postToIngest] is called with; [iso] is
    [event.timestamp.toISOString()]. *)
Definition received_turn (event : HookEvent) (iso : string) : json :=
  let ctx := context event in
  object
    [("content", str (content ctx));
     ("session_id", Some (JStr (sessionKey event)));
     ("channel", str (channelId ctx));
     ("user", str (from ctx));
     ("role", Some (JStr "user"));
     ("metadata", Some (object (received_metadata event iso)))].

Definition sent_turn (event : HookEvent) (iso : string) : json :=
  let ctx := context event in
  object
    [("content", str (content ctx));
     ("session_id", Some (JStr (sessionKey event)));
     ("channel", str (channelId ctx));
     ("user", str (to ctx));
     ("role", Some (JStr "assistant"));
     ("metadata",
      Some (object
              [("conversation_id", str (conversationId ctx));
               ("message_id", str (messageId ctx));
               ("account_id", str (accountId ctx));
               ("timestamp", Some (JStr iso))]))].

Definition brainIngest (event : HookEvent) : Run unit :=
  if negb (String.eqb (type event) "message") then mret tt
  else
    match trim env <$> INTELLIGENCE_URL env with
    | None => mret tt
    | Some intelligenceUrl =>
        if String.eqb intelligenceUrl "" then mret tt
        else
          try_catch
            (if isMessageReceivedEvent env event then
               let ctx := context event in
               iso ← toISOString (timestamp event);
               postToIngest intelligenceUrl (received_turn event iso);;
               log Debug "Ingested user message"
                 [("sessionKey", LStr (sessionKey event)); ("channel", lstr (channelId ctx))]
             else if isMessageSentEvent env event then
               let ctx := context event in
               if negb (default false (success ctx)) then mret tt
               else
                 iso ← toISOString (timestamp event);
                 postToIngest intelligenceUrl (sent_turn event iso);;
                 log Debug "Ingested assistant message"
                   [("sessionKey", LStr (sessionKey event)); ("channel", lstr (channelId ctx))]
             else mret tt)
            (fun err =>
               if is_abort err then
                 log Warn "Intelligence service request timed out"
                   [("url", LStr intelligenceUrl)]
               else
                 log Error "Failed to ingest message" [("error", LStr (error_text err))])
    end.

End Handlers.

(** A handler starts on a cache, with nothing sent or logged and no timer
    pending. *)
Definition starting (c : gmap string CacheEntry) : World :=
  {| cache := c; requests := []; ticks := 0; timers_started := 0;
     timers_pending := []; logs := [] |}.

(** The request of the attempt of [brain-context] that starts the timer
    [id], and the request of [brain-ingest] for a turn. *)
Definition inject_request (env : Env) (url : string) (event : HookEvent) (id : nat)
  : Request :=
  {| req_url := url +:+ "/context/inject";
     req_method := "POST";
     req_headers := [("Content-Type", "application/json")];
     req_body := stringify env (inject_query (context event));
     req_signal := {| timer_id := id; timer_ms := 2000 |} |}.

Definition ingest_request (env : Env) (url : string) (turn : json) : Request :=
  {| req_url := url +:+ "/ingest";
     req_method := "POST";
     req_headers := [("Content-Type", "application/json")];
     req_body := stringify env turn;
     req_signal := {| timer_id := 0; timer_ms := 5000 |} |}.

(** What an attempt of [brain-context] makes of the outcome of its
    [fetch]: the parsed body of an OK reply, [{}] for any other status, and
    the rejection of the [fetch] or of the reading of the body. *)
Definition settled (r : outcome FetchResponse) : outcome InjectResponse :=
  match r with
  | Returned response =>
      if resp_ok response then resp_json response else Returned empty_response
  | Raised e => Raised e
  end.

(** Whether an attempt ends in an abort. *)
Definition aborted (r : outcome FetchResponse) : bool :=
  match settled r with
  | Raised e => is_abort e
  | Returned _ => false
  end.

(** What [brain-context] makes of the body of an answer: the trimmed
    context block, the number of memories, whether there is anything to
    store, and the payload it stores. *)
Definition trimmed_block (env : Env) (body : InjectResponse) : string :=
  default "" (trim env <$> context_block body).

Definition memories (body : InjectResponse) : Z := default 0%Z (memories_used body).

Definition relevant (env : Env) (body : InjectResponse) : bool :=
  negb (String.eqb (trimmed_block env body) "" && (memories body =? 0)%Z).

Definition retrieved (env : Env) (body : InjectResponse) (ms : Z) : BrainContextPayload :=
  {| contextBlock :=
       BrainContext.truncateContextBlock (trimmed_block env body) (MAX_CONTEXT_CHARS env);
     memoriesUsed := memories body;
     retrievalMs := ms;
     identity := inject_identity body;
     entities := inject_entities body |}.

(** The requests of a handler of [brain-context] that gets to work: the
    first attempt, and a second one when the first is aborted; [final_reply]
    is the outcome of the last of them. *)
Definition attempts_made (env : Env) (url : string) (event : HookEvent) : list Request :=
  if aborted (fetch env 0 (inject_request env url event 0))
  then [inject_request env url event 0; inject_request env url event 1]
  else [inject_request env url event 0].

Definition final_reply (env : Env) (url : string) (event : HookEvent)
  : outcome FetchResponse :=
  if aborted (fetch env 0 (inject_request env url event 0))
  then fetch env 1 (inject_request env url event 1)
  else fetch env 0 (inject_request env url event 0).

(** The last entry of the log of such a handler. *)
Definition closing_entry (env : Env) (url : string) (event : HookEvent) : LogEntry :=
  match settled (final_reply env url event) with
  | Raised err =>
      {| level := Warn; text := "BRAIN_CONTEXT_FAILED";
         meta := [("error", LStr (error_text err)); ("sessionKey", LStr (sessionKey event))] |}
  | Returned body =>
      let ms := (clock env 1 - clock env 0)%Z in
      if relevant env body then
        {| level := Info; text := "BRAIN_CONTEXT_RETRIEVED";
           meta := [("sessionKey", LStr (sessionKey event));
                    ("memoriesUsed", LNum (memories body));
                    ("estimatedTokens",
                     LNum (estimated_tokens (contextBlock (retrieved env body ms))));
                    ("retrievalMs", LNum ms)] |}
      else
        {| level := Debug; text := "BRAIN_CONTEXT_RETRIEVED: no relevant memories";
           meta := [("sessionKey", LStr (sessionKey event)); ("retrievalMs", LNum ms)] |}
  end.

(** The value an object literal holds under a key ([None] when it has no
    such property, [Some None] when the property is [undefined]), and the
    fields of the event that [received_metadata] starts from. *)
Fixpoint property (k : string) (ps : list (string * option json)) : option (option json) :=
  match ps with
  | [] => None
  | (k', v) :: rest => if String.eqb k k' then Some v else property k rest
  end.

Definition event_metadata (event : HookEvent) (iso : string)
  : list (string * option json) :=
  let ctx := context event in
  [("conversation_id", str (conversationId ctx));
   ("message_id", str (messageId ctx));
   ("account_id", str (accountId ctx));
   ("timestamp", Some (JStr iso))].

(** The turn [brain-ingest] forwards for an event whose date is valid, and
    the entry it logs when the service answers. *)
Definition turn_of (env : Env) (event : HookEvent) (iso : string) : option json :=
  if isMessageReceivedEvent env event then Some (received_turn event iso)
  else if isMessageSentEvent env event then
    if default false (success (context event)) then Some (sent_turn event iso) else None
  else None.

Definition ingested_entry (env : Env) (event : HookEvent) : LogEntry :=
  {| level := Debug;
     text := if isMessageReceivedEvent env event then "Ingested user message"
             else "Ingested assistant message";
     meta := [("sessionKey", LStr (sessionKey event));
              ("channel", lstr (channelId (context event)))] |}.

(** The log of a [brain-ingest] whose request has the outcome [r]. *)
Definition ingest_log (env : Env) (url : string) (event : HookEvent)
    (r : outcome FetchResponse) : list LogEntry :=
  match r with
  | Returned response =>
      if resp_ok response then [ingested_entry env event]
      else [ {| level := Warn; text := "Intelligence service returned non-OK status";
                meta := [("status", LNum (resp_status response));
                         ("statusText", LStr (resp_statusText response))] |};
             ingested_entry env event ]
  | Raised err =>
      if is_abort err then
        [ {| level := Warn; text := "Intelligence service request timed out";
             meta := [("url", LStr url)] |} ]
      else
        [ {| level := Error; text := "Failed to ingest message";
             meta := [("error", LStr (error_text err))] |} ]
  end.

(** The service URL a handler works with, when there is one. *)
Definition service_url (env : Env) : option string :=
  match trim env <$> INTELLIGENCE_URL env with
  | Some url => if String.eqb url "" then None else Some url
  | None => None
  end.

End Hooks.

(** ** The projects controller of the UI

    [loadProjects], [scanProjects] and [toggleProject] work on the state of
    the projects view through the gateway client. One call is followed from
    its start to its end, with no other call between its steps. *)

Module Controller.
Import Js Registry.

(** The promise [client.request] returns: when it settles, among the
    promises of a call, and whether it resolves or rejects; a rejection is
    carried as the text [String(err)]. The value a promise resolves with is
    taken to have the type the controller casts it to; a value that is not
    truthy is [None]. *)
Record Reply (A : Type) : Type :=
  { settled_at : nat; outcome : Gateway.result (option A) }.
Arguments settled_at {A} r.
Arguments outcome {A} r.

Section State.
Context {Usage Git : Type}.

(** The gateway client: what it answers to the n-th request of a call. *)
Record Client : Type :=
  { projects_list : nat -> Reply ProjectRegistry;
    projects_usage : nat -> float -> Reply Usage;
    projects_git : nat -> float -> Reply Git;
    projects_scan : nat -> Reply ProjectRegistry;
    projects_toggle : nat -> string -> bool -> Reply unit }.

Record ProjectsState : Type :=
  { client : option Client;
    connected : bool;
    projectsLoading : bool;
    projectsRegistry : option ProjectRegistry;
    projectsUsage : option Usage;
    projectsGit : option Git;
    projectsError : option string;
    projectsDays : float;
    projectsScanning : bool }.

(** The state, the requests made (method and parameters), and the
    properties written on objects of the platform that are no part of the
    state. *)
Record World : Type :=
  { state : ProjectsState;
    sent : list (string * json);
    platform_writes : list (string * bool) }.

Definition with_loading (b : bool) (s : ProjectsState) : ProjectsState :=
  {| client := client s; connected := connected s; projectsLoading := b;
     projectsRegistry := projectsRegistry s; projectsUsage := projectsUsage s;
     projectsGit := projectsGit s; projectsError := projectsError s;
     projectsDays := projectsDays s; projectsScanning := projectsScanning s |}.

Definition with_scanning (b : bool) (s : ProjectsState) : ProjectsState :=
  {| client := client s; connected := connected s; projectsLoading := projectsLoading s;
     projectsRegistry := projectsRegistry s; projectsUsage := projectsUsage s;
     projectsGit := projectsGit s; projectsError := projectsError s;
     projectsDays := projectsDays s; projectsScanning := b |}.

Definition with_error (e : option string) (s : ProjectsState) : ProjectsState :=
  {| client := client s; connected := connected s; projectsLoading := projectsLoading s;
     projectsRegistry := projectsRegistry s; projectsUsage := projectsUsage s;
     projectsGit := projectsGit s; projectsError := e;
     projectsDays := projectsDays s; projectsScanning := projectsScanning s |}.

Definition with_registry (r : option ProjectRegistry) (s : ProjectsState) : ProjectsState :=
  {| client := client s; connected := connected s; projectsLoading := projectsLoading s;
     projectsRegistry := r; projectsUsage := projectsUsage s;
     projectsGit := projectsGit s; projectsError := projectsError s;
     projectsDays := projectsDays s; projectsScanning := projectsScanning s |}.

Definition with_usage (u : option Usage) (s : ProjectsState) : ProjectsState :=
  {| client := client s; connected := connected s; projectsLoading := projectsLoading s;
     projectsRegistry := projectsRegistry s; projectsUsage := u;
     projectsGit := projectsGit s; projectsError := projectsError s;
     projectsDays := projectsDays s; projectsScanning := projectsScanning s |}.

Definition with_git (g : option Git) (s : ProjectsState) : ProjectsState :=
  {| client := client s; connected := connected s; projectsLoading := projectsLoading s;
     projectsRegistry := projectsRegistry s; projectsUsage := projectsUsage s;
     projectsGit := g; projectsError := projectsError s;
     projectsDays := projectsDays s; projectsScanning := projectsScanning s |}.

Definition on_state (f : ProjectsState -> ProjectsState) (w : World) : World :=
  {| state := f (state w); sent := sent w; platform_writes := platform_writes w |}.

Definition sending (calls : list (string * json)) (w : World) : World :=
  {| state := state w; sent := sent w ++ calls; platform_writes := platform_writes w |}.

(** [if (res) { field = res }] *)
Definition keep_truthy {A : Type} (res : option A) (old : option A) : option A :=
  match res with
  | Some a => Some a
  | None => old
  end.

(** The rejection of a promise, with the time it settles. *)
Definition rejection {A : Type} (r : Reply A) : option (nat * string) :=
  match outcome r with
  | Gateway.Throw err => Some (settled_at r, err)
  | Gateway.Ok _ => None
  end.

(** What [Promise.all] rejects with: the rejection that settles first (the
    first of the array among those of one time), none when every promise
    resolves. *)
Definition first_rejection (rs : list (option (nat * string))) : option (nat * string) :=
  fold_left
    (fun best r =>
       match best, r with
       | Some (t, _), Some (t', _) => if (t' <? t)%nat then r else best
       | None, _ => r
       | _, None => best
       end)
    rs None.

Definition resolved {A : Type} (r : Reply A) : option A :=
  match outcome r with
  | Gateway.Ok a => a
  | Gateway.Throw _ => None
  end.

(** The three requests of [loadProjects]. *)
Definition load_calls (days : float) : list (string * json) :=
  [("projects.list", JObj []);
   ("projects.usage", JObj [("days", JNum days)]);
   ("projects.git", JObj [("days", JNum days)])].

Definition loadProjects (w : World) : World :=
  match client (state w) with
  | None => w
  | Some c =>
      if negb (connected (state w)) then w
      else if projectsLoading (state w) then w
      else
        let n := length (sent w) in
        let days := projectsDays (state w) in
        let w := on_state (fun s => with_error None (with_loading true s)) w in
        let registryRes := projects_list c n in
        let usageRes := projects_usage c (S n) days in
        let gitRes := projects_git c (S (S n)) days in
        let w := sending (load_calls days) w in
        let w :=
          match first_rejection [rejection registryRes; rejection usageRes;
                                 rejection gitRes] with
          | None =>
              on_state
                (fun s =>
                   with_git (keep_truthy (resolved gitRes) (projectsGit s))
                     (with_usage (keep_truthy (resolved usageRes) (projectsUsage s))
                        (with_registry
                           (keep_truthy (resolved registryRes) (projectsRegistry s)) s)))
                w
          | Some (_, err) => on_state (with_error (Some err)) w
          end in
        on_state (with_loading false) w
  end.

Definition scanProjects (w : World) : World :=
  match client (state w) with
  | None => w
  | Some c =>
      if negb (connected (state w)) then w
      else
        let w := on_state (with_scanning true) w in
        let res := projects_scan c (length (sent w)) in
        let w := sending [("projects.scan", JObj [])] w in
        let w :=
          match outcome res with
          | Gateway.Ok payload =>
              loadProjects
                (on_state (fun s => with_registry (keep_truthy payload (projectsRegistry s)) s)
                   w)
          | Gateway.Throw err => on_state (with_error (Some err)) w
          end in
        on_state (with_scanning false) w
  end.

(** [entry.enabled = enabled] on the entry of [name]. *)
Definition set_enabled (name : string) (flag : bool) (ps : list (string * ProjectEntry))
  : list (string * ProjectEntry) :=
  List.map
    (fun p =>
       if String.eqb p.1 name then
         (p.1, {| path := path p.2; enabled := flag; tags := tags p.2;
                  language := language p.2; discovered := discovered p.2;
                  description := description p.2; lastCommit := lastCommit p.2 |})
       else p)
    ps.

Definition entry_of (name : string) (ps : list (string * ProjectEntry))
  : option ProjectEntry :=
  snd <$> List.find (fun p => String.eqb p.1 name) ps.

(** The update of the local state after a toggle. The entry is read as
    [projects?.[projectName]] reads it: an own entry of the record, or else
    what [Object.prototype] has under the name, which is truthy and takes
    the property itself. *)
Definition update_local (projectName : string) (enabled : bool) (w : World) : World :=
  match projectsRegistry (state w) with
  | None => w
  | Some registry =>
      match entry_of projectName (projects registry) with
      | Some _ =>
          on_state
            (with_registry
               (Some {| version := version registry; scannedAt := scannedAt registry;
                        scanRoots := scanRoots registry;
                        projects := set_enabled projectName enabled (projects registry) |}))
            w
      | None =>
          if on_object_prototype projectName then
            {| state := state w; sent := sent w;
               platform_writes := platform_writes w ++ [(projectName, enabled)] |}
          else w
      end
  end.

(** A project with its flag replaced. *)
Definition flagged (flag : bool) (e : ProjectEntry) : ProjectEntry :=
  {| path := path e; enabled := flag; tags := tags e; language := language e;
     discovered := discovered e; description := description e;
     lastCommit := lastCommit e |}.

Definition toggleProject (projectName : string) (enabled : bool) (w : World) : World :=
  match client (state w) with
  | None => w
  | Some c =>
      if negb (connected (state w)) then w
      else
        let res := projects_toggle c (length (sent w)) projectName enabled in
        let w := sending [("projects.toggle",
                           JObj [("project", JStr projectName);
                                 ("enabled", JBool enabled)])] w in
        match outcome res with
        | Gateway.Ok _ => update_local projectName enabled w
        | Gateway.Throw err => on_state (with_error (Some err)) w
        end
  end.

End State.

Arguments Client : clear implicits.
Arguments ProjectsState : clear implicits.
Arguments World : clear implicits.

End Controller.

(** ** Further samples *)

Module MoreSamples.
Import Js Gateway Samples.

(** The parts of the sample registry. *)
Definition openclaw_fields : list (string * json) :=
  [("path", JStr "/home/dev/dev/projects/openclaw");
   ("enabled", JBool true);
   ("tags", JArr [JStr "typescript"; JStr "agent-framework"]);
   ("language", JStr "typescript");
   ("discovered", JStr "2026-02-20");
   ("description", JStr "OpenClaw agent framework")].

Definition registry_ps : list (string * json) := [("openclaw", openclaw_entry)].

Definition registry_top : list (string * json) :=
  [("version", JNum 1%float);
   ("scannedAt", JStr "2026-02-20T17:00:00Z");
   ("scanRoots", JArr [JStr "/home/dev/dev"]);
   ("projects", JObj registry_ps)].

(** The sample registry with [openclaw] switched off. *)
Definition registry_off_doc : json :=
  GatewayMore.with_flag registry_top registry_ps openclaw_fields "openclaw" false.

Definition registry_off_text : string := render sample_number "" registry_off_doc +:+ newline.

Definition two_state_parse (text : string) : result json :=
  if String.eqb text registry_off_text then Ok registry_off_doc else sample_parse text.

(** The sample host with a parser that also reads the registry in which
    [openclaw] is off. *)
Definition two_state_host : Host :=
  {| env_HOME := env_HOME host;
     module_dir := module_dir host;
     path_join := path_join host;
     path_resolve := path_resolve host;
     JSON_parse := two_state_parse;
     JSON_stringify := JSON_stringify host;
     number_to_string := number_to_string host;
     proto_has := proto_has host;
     spawn := spawn host |}.

(** The sample host with a scanner that writes the sample registry. *)
Definition scanning_host : Host :=
  {| env_HOME := env_HOME host;
     module_dir := module_dir host;
     path_join := path_join host;
     path_resolve := path_resolve host;
     JSON_parse := JSON_parse host;
     JSON_stringify := JSON_stringify host;
     number_to_string := number_to_string host;
     proto_has := proto_has host;
     spawn := fun _ d =>
       (Ok "{}",
        {| files := <[REGISTRY_PATH host := registry_text]> (files d);
           sealed := sealed d |}) |}.

(** A disk whose registry file cannot be opened. *)
Definition disk_sealed : Disk :=
  {| files := files disk_with_registry; sealed := {[ REGISTRY_PATH host ]} |}.

(** A payload retrieved later than the sample payload. *)
Definition newer_payload : BrainContextCache.BrainContextPayload :=
  {| BrainContextCache.contextBlock := "remembered since";
     BrainContextCache.memoriesUsed := 5;
     BrainContextCache.retrievalMs := 80;
     BrainContextCache.identity := Some "agent";
     BrainContextCache.entities := None |}.

End MoreSamples.

Module HookSamples.
Import Js BrainContextCache Hooks.

(** A trim that knows the space only. *)
Fixpoint trim_start (s : string) : string :=
  match s with
  | String c rest => if Ascii.eqb c " " then trim_start rest else s
  | EmptyString => EmptyString
  end.

Fixpoint trim_end (s : string) : string :=
  match s with
  | EmptyString => EmptyString
  | String c rest =>
      match trim_end rest with
      | EmptyString => if Ascii.eqb c " " then EmptyString else String c EmptyString
      | kept => String c kept
      end
  end.

Definition sample_trim (s : string) : string := trim_end (trim_start s).

Definition received (event : HookEvent) : bool :=
  String.eqb (type event) "message" && String.eqb (action event) "received".

Definition delivered (event : HookEvent) : bool :=
  String.eqb (type event) "message" && String.eqb (action event) "sent".

Definition abort_error : Thrown :=
  {| is_error := true; err_name := "AbortError";
     err_message := "The operation was aborted";
     err_text := "AbortError: The operation was aborted" |}.

Definition refused_error : Thrown :=
  {| is_error := true; err_name := "Error"; err_message := "connection refused";
     err_text := "Error: connection refused" |}.

Definition memory_body : InjectResponse :=
  {| context_block := Some " Memory about prior conversation ";
     memories_used := Some 3%Z;
     inject_identity := Some "SpookyJuice agent";
     inject_entities :=
       Some [ {| entity_name := "Brian"; entity_type := "person";
                 entity_summary := Some "Project lead" |} ] |}.

Definition memory_reply : FetchResponse :=
  {| resp_ok := true; resp_status := 200; resp_statusText := "OK";
     resp_json := Returned memory_body |}.

Definition unavailable_reply : FetchResponse :=
  {| resp_ok := false; resp_status := 503; resp_statusText := "Service Unavailable";
     resp_json := Returned empty_response |}.

(** A service at [url] whose n-th reply is [replies n]; the clock advances
    by 120 ms from one reading to the next. *)
Definition service (url : option string) (replies : nat -> outcome FetchResponse) : Env :=
  {| INTELLIGENCE_URL := url;
     BRAIN_CONTEXT_MAX_TOKENS := None;
     trim := sample_trim;
     stringify := Samples.render Samples.sample_number "";
     isMessageReceivedEvent := received;
     isMessageSentEvent := delivered;
     fetch := fun n _ => replies n;
     clock := fun n => (1000 + 120 * Z.of_nat n)%Z |}.

Definition local_url : option string := Some " http://localhost:3100 ".

(** The service answers at once; it answers after one abort; it is aborted
    twice; it refuses the connection; it is overloaded. *)
Definition healthy : Env := service local_url (fun _ => Returned memory_reply).

Definition slow_once : Env :=
  service local_url
    (fun n => match n with 0 => Raised abort_error | _ => Returned memory_reply end).

Definition stalled : Env := service local_url (fun _ => Raised abort_error).

Definition unreachable : Env := service local_url (fun _ => Raised refused_error).

Definition overloaded : Env := service local_url (fun _ => Returned unavailable_reply).

Definition unconfigured : Env := service (Some "   ") (fun _ => Returned memory_reply).

Definition user_context : MessageContext :=
  {| content := Some "Tell me about the project";
     channelId := Some "telegram";
     from := Some "+15551234567";
     to := None;
     success := None;
     conversationId := Some "chat-123";
     messageId := None;
     accountId := None;
     metadata := Some [("thread", Some (JStr "t-1"));
                       ("timestamp", Some (JStr "1999-01-01T00:00:00.000Z"))] |}.

Definition agent_context (sent_ok : bool) : MessageContext :=
  {| content := Some "It is an agent framework";
     channelId := Some "telegram";
     from := None;
     to := Some "+15551234567";
     success := Some sent_ok;
     conversationId := Some "chat-123";
     messageId := None;
     accountId := None;
     metadata := None |}.

Definition user_message : HookEvent :=
  {| type := "message"; action := "received"; sessionKey := "agent:main:main";
     timestamp := ValidDate "2026-02-20T17:00:00.000Z"; context := user_context |}.

Definition agent_message (sent_ok : bool) : HookEvent :=
  {| type := "message"; action := "sent"; sessionKey := "agent:main:main";
     timestamp := ValidDate "2026-02-20T17:00:05.000Z"; context := agent_context sent_ok |}.

Definition undated_message : HookEvent :=
  {| type := "message"; action := "received"; sessionKey := "agent:main:main";
     timestamp := InvalidDate; context := user_context |}.

Definition command_event : HookEvent :=
  {| type := "command"; action := "new"; sessionKey := "agent:main:main";
     timestamp := ValidDate "2026-02-20T17:00:00.000Z"; context := user_context |}.

End HookSamples.

Module ControllerSamples.
Import Js Registry Controller.

Definition listed_registry : ProjectRegistry :=
  Samples.registry_of [("openclaw", Samples.entry_at "/dev/openclaw" true);
                       ("notes", Samples.entry_at "/dev/notes" false)].

Definition answer {A : Type} (t : nat) (a : A) : Reply A :=
  {| settled_at := t; outcome := Gateway.Ok (Some a) |}.

Definition fail {A : Type} (t : nat) (err : string) : Reply A :=
  {| settled_at := t; outcome := Gateway.Throw err |}.

(** A gateway that answers every request; usage and git activity are
    carried as text. *)
Definition gateway : Client string string :=
  {| projects_list := fun _ => answer 2 listed_registry;
     projects_usage := fun _ _ => answer 3 "usage of 7 days";
     projects_git := fun _ _ => answer 1 "commits of 7 days";
     projects_scan := fun _ => answer 0 listed_registry;
     projects_toggle := fun _ _ _ => answer 0 tt |}.

(** A gateway whose scripts fail, the git one first. *)
Definition broken_gateway : Client string string :=
  {| projects_list := fun _ => answer 2 listed_registry;
     projects_usage := fun _ _ => fail 3 "Error: usage script failed";
     projects_git := fun _ _ => fail 1 "Error: git script failed";
     projects_scan := fun _ => fail 0 "Error: scan script failed";
     projects_toggle := fun _ _ _ => fail 0 "Error: Project not found: openclaw" |}.

Definition view (c : option (Client string string)) (registry : option ProjectRegistry)
  : World string string :=
  {| state :=
       {| client := c; connected := true; projectsLoading := false;
          projectsRegistry := registry; projectsUsage := None; projectsGit := None;
          projectsError := Some "stale"; projectsDays := 7%float;
          projectsScanning := false |};
     sent := [];
     platform_writes := [] |}.

End ControllerSamples.

(* ===================================================================== *)
(** * Part II: properties                                                 *)
(* ===================================================================== *)

(** ** Strings *)

Module StringFacts.

Lemma append_cons (a : ascii) (s t : string) :
  String a s +:+ t = String a (s +:+ t).
Proof. reflexivity. Qed.

Lemma append_empty_l (t : string) : "" +:+ t = t.
Proof. reflexivity. Qed.

Lemma length_append (s t : string) :
  String.length (s +:+ t) = String.length s + String.length t.
Proof.
  induction s as [|a s IH]; [reflexivity|].
  rewrite append_cons. simpl. by rewrite IH.
Qed.

Lemma append_assoc (s t u : string) : (s +:+ t) +:+ u = s +:+ (t +:+ u).
Proof.
  induction s as [|a s IH]; [reflexivity|].
  rewrite !append_cons. by rewrite IH.
Qed.

(** The first [n] characters of a string that has at least [n]. *)
Lemma substring_split (n : nat) (s : string) :
  n ≤ String.length s →
  ∃ tail, s = String.substring 0 n s +:+ tail
          ∧ String.length (String.substring 0 n s) = n.
Proof.
  revert s. induction n as [|n IH]; intros s Hn.
  - exists s. by destruct s.
  - destruct s as [|a s]; simpl in Hn; [lia|].
    destruct (IH s) as (tail & Hs & Hlen); [lia|].
    exists tail. simpl. rewrite append_cons, Hlen. by rewrite <- Hs.
Qed.

Lemma prefix_true (p s : string) :
  String.prefix p s = true ↔ ∃ rest, s = p +:+ rest.
Proof.
  revert s. induction p as [|a p IH]; intros s.
  - split; [intros _; by exists s | by destruct s].
  - destruct s as [|b s]; simpl.
    + split; [done | intros [rest Hrest]; by rewrite append_cons in Hrest].
    + destruct (ascii_dec a b) as [->|Hab].
      * rewrite IH. split; intros [rest Hrest]; exists rest.
        -- by rewrite append_cons, <- Hrest.
        -- rewrite append_cons in Hrest. by simplify_eq.
      * split; [done | intros [rest Hrest]].
        rewrite append_cons in Hrest. by simplify_eq.
Qed.

End StringFacts.

(** ** The brain-context hook *)

Module BrainContextFacts.
Import BrainContext StringFacts.

Lemma TRUNCATED_SUFFIX_length : String.length TRUNCATED_SUFFIX = 15.
Proof. reflexivity. Qed.

Lemma slice_from_start_nonneg (s : string) (n : Z) :
  (0 ≤ n ≤ Z.of_nat (String.length s))%Z →
  slice_from_start s n = String.substring 0 (Z.to_nat n) s.
Proof.
  intros Hn. unfold slice_from_start.
  destruct (Z.ltb_spec n 0); [lia|].
  by rewrite Z.min_l by lia.
Qed.

(** C10. For a non-negative [maxChars], [truncateContextBlock] returns a
    block of at most [maxChars] characters unchanged; a longer block is cut
    to its first [maxChars] characters followed by the 15 characters of the
    line feed and "[...truncated]", so the result has exactly
    [maxChars + 15] characters. *)
Theorem truncateContextBlock_spec (block : string) (maxChars : Z) :
  (0 ≤ maxChars)%Z →
  ((Z.of_nat (String.length block) ≤ maxChars)%Z →
     truncateContextBlock block maxChars = block)
  ∧ ((maxChars < Z.of_nat (String.length block))%Z →
     ∃ head tail,
       block = head +:+ tail
       ∧ Z.of_nat (String.length head) = maxChars
       ∧ truncateContextBlock block maxChars
         = head +:+ String "010"%char "[...truncated]"
       ∧ String.length (String "010"%char "[...truncated]") = 15
       ∧ Z.of_nat (String.length (truncateContextBlock block maxChars))
         = (maxChars + 15)%Z).
Proof.
  intros Hmax. unfold truncateContextBlock. split; intros Hlen.
  - by destruct (Z.leb_spec (Z.of_nat (String.length block)) maxChars); [|lia].
  - destruct (Z.leb_spec (Z.of_nat (String.length block)) maxChars); [lia|].
    rewrite slice_from_start_nonneg by lia.
    destruct (substring_split (Z.to_nat maxChars) block) as (tail & Hsplit & Hhead);
      [lia|].
    exists (String.substring 0 (Z.to_nat maxChars) block), tail.
    repeat split; [done | lia | ].
    rewrite length_append, Hhead, TRUNCATED_SUFFIX_length. lia.
Qed.

Lemma truncateContextBlock_spec_witness :
  truncateContextBlock "abc" 5 = "abc"
  ∧ ∃ head tail,
      "hello world" = head +:+ tail
      ∧ Z.of_nat (String.length head) = 5%Z
      ∧ truncateContextBlock "hello world" 5
        = head +:+ String "010"%char "[...truncated]"
      ∧ String.length (String "010"%char "[...truncated]") = 15
      ∧ Z.of_nat (String.length (truncateContextBlock "hello world" 5)) = (5 + 15)%Z.
Proof.
  split.
  - apply (truncateContextBlock_spec "abc" 5); simpl; lia.
  - apply (truncateContextBlock_spec "hello world" 5); simpl; lia.
Defined.

(** Outside the hypothesis of C10: a negative [maxChars], which a negative
    [BRAIN_CONTEXT_MAX_TOKENS] produces, cuts from the end of the block. *)
Example truncateContextBlock_negative :
  MAX_CONTEXT_CHARS (Some (-1)%Z) = (-4)%Z
  ∧ truncateContextBlock "hello world" (-4) = "hello w" +:+ TRUNCATED_SUFFIX.
Proof. by split. Qed.

Example MAX_CONTEXT_CHARS_default : MAX_CONTEXT_CHARS None = 8000%Z.
Proof. reflexivity. Qed.

End BrainContextFacts.

(** ** The brain-context cache *)

Module BrainContextCacheFacts.
Import BrainContextCache.

Lemma getBrainContext_fresh (now : Z) (k : string) (p : BrainContextPayload)
    (e : Z) (cache : gmap string CacheEntry) :
  cache !! k = Some {| payload := p; expiresAt := e |} →
  (now ≤ e)%Z →
  getBrainContext now k cache = (Some p, cache).
Proof.
  intros Hk Hnow. unfold getBrainContext. rewrite Hk. simpl.
  by destruct (Z.gtb_spec now e); [lia|].
Qed.

Lemma getBrainContext_expired (now : Z) (k : string) (entry : CacheEntry)
    (cache : gmap string CacheEntry) :
  cache !! k = Some entry →
  (expiresAt entry < now)%Z →
  getBrainContext now k cache = (None, delete k cache).
Proof.
  intros Hk Hnow. unfold getBrainContext. rewrite Hk.
  by destruct (Z.gtb_spec now (expiresAt entry)); [|lia].
Qed.

Lemma getBrainContext_absent (now : Z) (k : string) (cache : gmap string CacheEntry) :
  cache !! k = None → getBrainContext now k cache = (None, cache).
Proof. intros Hk. unfold getBrainContext. by rewrite Hk. Qed.

(** C9. After [setBrainContext(k, p)] at time [t0], a [getBrainContext(k)]
    at a time less than 30000 ms later returns exactly [p] (and keeps the
    cache); at a time more than 30000 ms later it returns undefined and
    removes the entry, so that any later call returns undefined too. *)
Theorem brain_context_ttl (cache : gmap string CacheEntry) (k : string)
    (p : BrainContextPayload) (t0 t1 : Z) :
  let cached := setBrainContext t0 k p cache in
  ((t1 - t0 < 30000)%Z → getBrainContext t1 k cached = (Some p, cached))
  ∧ ((t1 - t0 > 30000)%Z →
     getBrainContext t1 k cached = (None, delete k cached)
     ∧ (delete k cached) !! k = None
     ∧ ∀ t2, getBrainContext t2 k (getBrainContext t1 k cached).2
             = (None, delete k cached)).
Proof.
  intros cached.
  assert (Hk : cached !! k = Some {| payload := p; expiresAt := t0 + DEFAULT_TTL_MS |})
    by apply lookup_insert_eq.
  unfold DEFAULT_TTL_MS in Hk. split; intros Ht.
  - apply (getBrainContext_fresh _ _ _ _ _ Hk). lia.
  - assert (Hget : getBrainContext t1 k cached = (None, delete k cached))
      by (apply (getBrainContext_expired _ _ _ _ Hk); simpl; lia).
    rewrite Hget. split; [done|]. split; [apply lookup_delete_eq|].
    intros t2. simpl. apply getBrainContext_absent, lookup_delete_eq.
Qed.

Lemma brain_context_ttl_witness :
  let cached := setBrainContext 1000 "session-1" Samples.sample_payload ∅ in
  getBrainContext 30999 "session-1" cached = (Some Samples.sample_payload, cached)
  ∧ getBrainContext 31001 "session-1" cached = (None, delete "session-1" cached).
Proof.
  intros cached. split.
  - apply (brain_context_ttl ∅ "session-1" Samples.sample_payload 1000 30999). lia.
  - apply (brain_context_ttl ∅ "session-1" Samples.sample_payload 1000 31001). lia.
Defined.

(** At exactly 30000 ms the entry is still served. *)
Example brain_context_at_ttl :
  (getBrainContext 31000 "session-1"
     (setBrainContext 1000 "session-1" Samples.sample_payload ∅)).1 = Some Samples.sample_payload.
Proof. reflexivity. Qed.

End BrainContextCacheFacts.

(** ** Session attribution *)

Module RegistryFacts.
Import Registry StringFacts.

Lemma path_matches_boundary (cwd p : string) :
  path_matches cwd p = true ↔ on_boundary cwd p.
Proof.
  unfold path_matches, on_boundary.
  rewrite orb_true_iff, String.eqb_eq, prefix_true.
  split; (intros [H|[rest H]]; [by left | right; exists rest]).
  - by rewrite <- append_assoc.
  - by rewrite append_assoc.
Qed.

Lemma consider_cases (cwd : string) (best : option (string * ProjectEntry))
    (c : string * ProjectEntry) :
  (¬ eligible cwd c ∧ consider cwd best c = best)
  ∨ (eligible cwd c ∧ best = None ∧ consider cwd best c = Some c)
  ∨ (eligible cwd c ∧ ∃ b, best = Some b
       ∧ String.length (path b.2) < String.length (path c.2)
       ∧ consider cwd best c = Some c)
  ∨ (eligible cwd c ∧ ∃ b, best = Some b
       ∧ String.length (path c.2) ≤ String.length (path b.2)
       ∧ consider cwd best c = best).
Proof.
  unfold consider, eligible.
  destruct (enabled c.2); simpl; [|left; split; [intros []; done | done]].
  destruct (path_matches cwd (path c.2)); simpl;
    [|left; split; [intros []; done | done]].
  destruct best as [b|]; [|right; left; done].
  destruct (Nat.ltb_spec (String.length (path b.2)) (String.length (path c.2))).
  - right; right; left. split; [done|]. by exists b.
  - right; right; right. split; [done|]. by exists b.
Qed.

(** The scan keeps an eligible candidate of greatest path length. *)
Lemma fold_consider (cwd : string) (l : list (string * ProjectEntry)) :
  ∀ init : option (string * ProjectEntry),
    (∀ c, init = Some c → eligible cwd c) →
    match fold_left (consider cwd) l init with
    | None => init = None ∧ ∀ c, c ∈ l → ¬ eligible cwd c
    | Some b =>
        (init = Some b ∨ b ∈ l) ∧ eligible cwd b
        ∧ (∀ c, init = Some c → String.length (path c.2) ≤ String.length (path b.2))
        ∧ (∀ c, c ∈ l → eligible cwd c →
                String.length (path c.2) ≤ String.length (path b.2))
    end.
Proof.
  induction l as [|c l IH]; intros init Hinit; simpl.
  - destruct init as [b|].
    + split_and!; [by left | by apply Hinit | |].
      * intros c0 [= ->]. done.
      * intros c0 Hc0. by apply elem_of_nil in Hc0.
    + split; [done|]. intros c0 Hc0. by apply elem_of_nil in Hc0.
  - assert (Hstep : ∀ c0, consider cwd init c = Some c0 → eligible cwd c0).
    { intros c0 Hc0.
      destruct (consider_cases cwd init c)
        as [[_ E]|[(He & _ & E)|[(He & b & _ & _ & E)|(_ & b & Hb & _ & E)]]];
        rewrite E in Hc0.
      - by apply Hinit.
      - by simplify_eq.
      - by simplify_eq.
      - by apply Hinit. }
    specialize (IH (consider cwd init c) Hstep).
    destruct (fold_left (consider cwd) l (consider cwd init c)) as [b|].
    + destruct IH as (Hfrom & Helig & Hprev & Hrest).
      destruct (consider_cases cwd init c)
        as [[Hne E]|[(He & Hnone & E)|[(He & b0 & Hb0 & Hlt & E)|(He & b0 & Hb0 & Hle & E)]]];
        rewrite E in Hfrom, Hprev.
      * split_and!; [| done | done |].
        -- destruct Hfrom as [?|?]; [by left | right; by apply elem_of_cons; right].
        -- intros c0 [->|Hc0]%elem_of_cons Hc0e; [done | by apply Hrest].
      * split_and!; [| done | |].
        -- right. apply elem_of_cons. destruct Hfrom as [?|?]; [left; by simplify_eq | by right].
        -- intros c0 Hc0. by simplify_eq.
        -- intros c0 [->|Hc0]%elem_of_cons Hc0e; [by apply Hprev | by apply Hrest].
      * split_and!; [| done | |].
        -- right. apply elem_of_cons. destruct Hfrom as [?|?]; [left; by simplify_eq | by right].
        -- intros c0 Hc0. simplify_eq. specialize (Hprev c eq_refl). lia.
        -- intros c0 [->|Hc0]%elem_of_cons Hc0e; [by apply Hprev | by apply Hrest].
      * split_and!; [| done | done |].
        -- destruct Hfrom as [?|?]; [by left | right; by apply elem_of_cons; right].
        -- intros c0 [->|Hc0]%elem_of_cons Hc0e; [| by apply Hrest].
           specialize (Hprev b0 Hb0). lia.
    + destruct IH as [Hnone Hrest].
      destruct (consider_cases cwd init c)
        as [[Hne E]|[(He & _ & E)|[(He & b0 & _ & _ & E)|(He & b0 & Hb0 & _ & E)]]];
        rewrite E in Hnone; try done.
      * split; [done|].
        intros c0 [->|Hc0]%elem_of_cons; [done | by apply Hrest].
      * by simplify_eq.
Qed.

(** C3. When [attribute] finds a project, it returns the name of an enabled
    project of the registry whose path equals [cwd] or is followed in [cwd]
    by a path separator, and no enabled project that matches in this way has
    a longer path; when it finds none, it returns [_unmatched], and then
    [cwd] is empty or no enabled project matches. A project whose path is
    not a match at a separator boundary is never the one returned. *)
Theorem attribute_longest_boundary_match (cwd : string) (registry : ProjectRegistry) :
  (∀ name entry,
     best_match cwd registry = Some (name, entry) →
     attribute cwd registry = name
     ∧ (name, entry) ∈ projects registry
     ∧ enabled entry = true
     ∧ on_boundary cwd (path entry)
     ∧ ∀ name' entry',
         (name', entry') ∈ projects registry →
         enabled entry' = true →
         on_boundary cwd (path entry') →
         String.length (path entry') ≤ String.length (path entry))
  ∧ (best_match cwd registry = None →
     attribute cwd registry = UNMATCHED
     ∧ (cwd = "" ∨ ∀ name' entry',
          (name', entry') ∈ projects registry →
          enabled entry' = true → ¬ on_boundary cwd (path entry')))
  ∧ (∀ name entry,
       ¬ on_boundary cwd (path entry) →
       best_match cwd registry ≠ Some (name, entry)).
Proof.
  assert (Hfold := fold_consider cwd (projects registry) None).
  assert (Hsome : ∀ name entry,
    best_match cwd registry = Some (name, entry) →
    cwd ≠ "" ∧ fold_left (consider cwd) (projects registry) None = Some (name, entry)).
  { unfold best_match. intros name entry.
    destruct (String.eqb_spec cwd ""); [done | by split]. }
  split; [|split].
  - intros name entry Hbest.
    destruct (Hsome _ _ Hbest) as [_ Hrun].
    rewrite Hrun in Hfold.
    destruct Hfold as (Hfrom & [Hen Hmatch] & _ & Hmax); [done|].
    simpl in *. unfold attribute. rewrite Hbest.
    split_and!; [done | by destruct Hfrom | done | by apply path_matches_boundary |].
    intros name' entry' Hin Hen' Hb'.
    apply (Hmax (name', entry') Hin). split; [done|].
    by apply path_matches_boundary.
  - intros Hbest. unfold attribute. rewrite Hbest. split; [done|].
    unfold best_match in Hbest.
    destruct (String.eqb_spec cwd ""); [by left | right].
    rewrite Hbest in Hfold. destruct Hfold as [_ Hnone]; [done|].
    intros name' entry' Hin Hen' Hb'.
    apply (Hnone (name', entry') Hin). split; [done|].
    by apply path_matches_boundary.
  - intros name entry Hnot Hbest.
    destruct (Hsome _ _ Hbest) as [_ Hrun].
    rewrite Hrun in Hfold.
    destruct Hfold as (_ & [_ Hmatch] & _); [done|].
    by apply Hnot, path_matches_boundary.
Qed.

Lemma attribute_longest_boundary_match_witness :
  attribute "/a/b/c/d" Samples.nested_registry = "inner"
  ∧ on_boundary "/a/b/c/d" "/a/b"
  ∧ attribute "/a/bc" Samples.single_registry = UNMATCHED.
Proof.
  destruct (attribute_longest_boundary_match "/a/b/c/d" Samples.nested_registry)
    as (Hfound & _ & _).
  destruct (Hfound "inner" (Samples.entry_at "/a/b" true) eq_refl)
    as (Hname & _ & _ & Hboundary & _).
  destruct (attribute_longest_boundary_match "/a/bc" Samples.single_registry)
    as (_ & Hnone & _).
  destruct (Hnone eq_refl) as [Hunmatched _].
  exact (conj Hname (conj Hboundary Hunmatched)).
Defined.

(** A registered path that is only a prefix of the characters of [cwd]
    does not match. *)
Example attribute_prefix_without_boundary :
  String.prefix "/a/b" "/a/bc" = true
  ∧ attribute "/a/bc" Samples.single_registry = "_unmatched".
Proof. by split. Qed.

(** A disabled project is passed over even when its path is the longest. *)
Example attribute_skips_disabled :
  attribute "/a/b/c" Samples.nested_registry = "inner".
Proof. reflexivity. Qed.

End RegistryFacts.

(** ** Usage totals *)

Module UsageFacts.
Import Registry Usage.

(** *** Sums with an addition that is associative and commutative *)

Section Sums.
Context {A : Type} (zero : A) (add : A → A → A).
Hypothesis add_assoc : ∀ a b c, add a (add b c) = add (add a b) c.
Hypothesis add_comm : ∀ a b, add a b = add b a.
Hypothesis add_zero : ∀ a, add zero a = a.

Lemma add_zero_r (a : A) : add a zero = a.
Proof. by rewrite add_comm. Qed.

Lemma fold_left_add (l : list A) (z x : A) :
  fold_left add l (add z x) = add (fold_left add l z) x.
Proof.
  revert z. induction l as [|a l IH]; intros z; simpl; [done|].
  rewrite <- IH. f_equal.
  by rewrite <- !add_assoc, (add_comm x a).
Qed.

Lemma fold_left_from (l : list A) (z : A) :
  fold_left add l z = add z (sum_cost zero add l).
Proof.
  unfold sum_cost. rewrite <- (add_zero z) at 1.
  by rewrite fold_left_add, add_comm.
Qed.

Lemma sum_cost_cons (x : A) (l : list A) :
  sum_cost zero add (x :: l) = add x (sum_cost zero add l).
Proof. unfold sum_cost at 1. simpl. by rewrite add_zero, fold_left_from. Qed.

End Sums.

Lemma sum_Z_sum_cost (l : list Z) : sum_Z l = sum_cost 0%Z Z.add l.
Proof.
  induction l as [|x l IH]; [done|].
  rewrite (sum_cost_cons 0%Z Z.add Z.add_assoc Z.add_comm Z.add_0_l). simpl. by rewrite IH.
Qed.

Lemma filter_all {B : Type} (l : list B) : List.filter (λ _, true) l = l.
Proof. induction l as [|x l IH]; simpl; [done | by rewrite IH]. Qed.

Section Facts.
Context {Cost : Type}.
Variable cost_zero : Cost.
Variable cost_add : Cost -> Cost -> Cost.
Variable round_project : Cost -> Cost.
Variable round_total : Cost -> Cost.

Lemma fold_add_to_totals (l : list (string * ProjectUsageEntry Cost)) :
  ∀ t : Totals Cost,
    fold_left (add_to_totals cost_add) l t
    = {| totals_sessions := totals_sessions t + sum_Z (map (fun p => sessions p.2) l);
         totals_totalTokens :=
           totals_totalTokens t + sum_Z (map (fun p => totalTokens p.2) l);
         totals_estimatedCostUSD :=
           fold_left cost_add (map (fun p => estimatedCostUSD p.2) l)
             (totals_estimatedCostUSD t) |}.
Proof.
  induction l as [|p l IH]; intros t; simpl.
  - destruct t. simpl. f_equal; lia.
  - rewrite IH. simpl. f_equal; lia.
Qed.

(** **** What a session adds to the entry of its project *)

Lemma add_event_tokens (evs : list (Event Cost)) :
  ∀ u : ProjectUsageEntry Cost,
    totalTokens (fold_left (add_event cost_add) evs u)
    = (totalTokens u + sum_Z (map (fun e => ev_input e + ev_output e)%Z evs))%Z.
Proof.
  induction evs as [|e evs IH]; intros u; simpl; [lia|].
  rewrite IH. simpl. lia.
Qed.

Lemma add_session_tokens (evs : list (Event Cost)) (u : ProjectUsageEntry Cost) :
  totalTokens (add_session cost_add evs u)
  = (totalTokens u + sum_Z (map (fun e => ev_input e + ev_output e)%Z evs))%Z.
Proof. unfold add_session. by rewrite add_event_tokens. Qed.

Lemma add_event_sessions (evs : list (Event Cost)) :
  ∀ u : ProjectUsageEntry Cost,
    sessions (fold_left (add_event cost_add) evs u) = sessions u.
Proof. induction evs as [|e evs IH]; intros u; simpl; [done | by rewrite IH]. Qed.

Lemma add_session_sessions (evs : list (Event Cost)) (u : ProjectUsageEntry Cost) :
  sessions (add_session cost_add evs u) = (sessions u + 1)%Z.
Proof. unfold add_session. by rewrite add_event_sessions. Qed.

Lemma add_event_cost (evs : list (Event Cost)) :
  ∀ u : ProjectUsageEntry Cost,
    estimatedCostUSD (fold_left (add_event cost_add) evs u)
    = fold_left cost_add (map ev_cost evs) (estimatedCostUSD u).
Proof. induction evs as [|e evs IH]; intros u; simpl; [done | by rewrite IH]. Qed.

Lemma add_session_cost (evs : list (Event Cost)) (u : ProjectUsageEntry Cost) :
  estimatedCostUSD (add_session cost_add evs u)
  = fold_left cost_add (map ev_cost evs) (estimatedCostUSD u).
Proof. unfold add_session. by rewrite add_event_cost. Qed.

(** **** One measure of the entries, summed over the projects that are kept

    [g] reads the measure off an entry and [c] is what a session adds to
    it; the sum over the kept projects after all sessions is the sum of [c]
    over the sessions of kept projects: every session counts once, for one
    project. *)

Section Measure.
Context {A : Type} (zero : A) (add : A → A → A).
Hypothesis add_assoc : ∀ a b c, add a (add b c) = add (add a b) c.
Hypothesis add_comm : ∀ a b, add a b = add b a.
Hypothesis add_zero : ∀ a, add zero a = a.

Variable now : Z.
Variable days : option Z.
Variable g : ProjectUsageEntry Cost → A.
Variable c : SessionRecord Cost → A.
Variable keep : string → bool.

Hypothesis g_empty : g (empty_entry cost_zero) = zero.
Hypothesis g_session : ∀ s u,
  counted_events now days s ≠ [] →
  g (add_session cost_add (counted_events now days s) u) = add (g u) (c s).
Hypothesis c_idle : ∀ s, counted_events now days s = [] → c s = zero.

Lemma upsert_sum (name : string)
    (f : ProjectUsageEntry Cost → ProjectUsageEntry Cost) (delta : A)
    (acc : list (string * ProjectUsageEntry Cost)) :
  (∀ u, g (f u) = add (g u) delta) →
  sum_cost zero add (map (λ p, g p.2) (List.filter (λ p, keep p.1) (upsert cost_zero name f acc)))
  = add (sum_cost zero add (map (λ p, g p.2) (List.filter (λ p, keep p.1) acc)))
      (if keep name then delta else zero).
Proof.
  intros Hf. pose proof (add_zero_r zero add add_comm add_zero) as Hzero_r.
  pose proof (sum_cost_cons zero add add_assoc add_comm add_zero) as Hcons.
  induction acc as [|[n u] acc IH]; cbn [upsert List.filter map fst snd].
  - destruct (keep name); cbn [map snd]; [|by rewrite add_zero].
    rewrite Hcons, Hf, g_empty. unfold sum_cost. cbn [fold_left].
    by rewrite !add_zero, Hzero_r.
  - destruct (String.eqb_spec n name) as [->|Hne]; cbn [List.filter map fst snd].
    + destruct (keep name); cbn [map snd].
      * rewrite !Hcons, Hf. by rewrite <- !add_assoc, (add_comm delta).
      * by rewrite Hzero_r.
    + destruct (keep n); cbn [map snd]; [|apply IH].
      by rewrite !Hcons, IH, add_assoc.
Qed.

Lemma accumulate_sum (registry : ProjectRegistry)
    (acc : list (string * ProjectUsageEntry Cost)) (s : SessionRecord Cost) :
  sum_cost zero add (map (λ p, g p.2) (List.filter (λ p, keep p.1) (accumulate cost_zero cost_add now days registry acc s)))
  = add (sum_cost zero add (map (λ p, g p.2) (List.filter (λ p, keep p.1) acc)))
      (if keep (attribute (cwd s) registry) then c s else zero).
Proof.
  unfold accumulate. fold (counted_events now days s).
  destruct (counted_events now days s) as [|e evs] eqn:Hcounted.
  - rewrite (c_idle s Hcounted).
    destruct (keep _); by rewrite (add_zero_r zero add add_comm add_zero).
  - apply upsert_sum. intros u. rewrite <- Hcounted. apply g_session.
    by rewrite Hcounted.
Qed.

Lemma fold_accumulate_sum (registry : ProjectRegistry) (ss : list (SessionRecord Cost)) :
  ∀ acc : list (string * ProjectUsageEntry Cost),
    sum_cost zero add (map (λ p, g p.2) (List.filter (λ p, keep p.1) (fold_left (accumulate cost_zero cost_add now days registry) ss acc)))
    = add (sum_cost zero add (map (λ p, g p.2) (List.filter (λ p, keep p.1) acc)))
        (sum_cost zero add
           (map c (List.filter (λ s, keep (attribute (cwd s) registry)) ss))).
Proof.
  pose proof (add_zero_r zero add add_comm add_zero) as Hzero_r.
  induction ss as [|s ss IH]; intros acc; cbn [fold_left List.filter map].
  - by rewrite Hzero_r.
  - rewrite IH, accumulate_sum.
    destruct (keep (attribute (cwd s) registry)); cbn [map].
    + by rewrite (sum_cost_cons zero add add_assoc add_comm add_zero), add_assoc.
    + by rewrite Hzero_r.
Qed.

(** The sum over the included projects, for a filter or for none. *)
Lemma accumulated_sum (projectFilter : option string) (registry : ProjectRegistry)
    (ss : list (SessionRecord Cost)) :
  (∀ name, keep name = match projectFilter with
                       | None => true
                       | Some p => String.eqb name p
                       end) →
  sum_cost zero add
    (map (λ p, g p.2)
       (accumulated cost_zero cost_add now days projectFilter ss (Some registry)))
  = sum_cost zero add (map c (List.filter (included_session projectFilter registry) ss)).
Proof.
  intros Hkeep.
  pose proof (fold_accumulate_sum registry ss []) as Hsum.
  cbn [List.filter map] in Hsum.
  change (sum_cost zero add []) with zero in Hsum. rewrite add_zero in Hsum.
  rewrite (filter_ext (λ s, keep (attribute (cwd s) registry))
             (included_session projectFilter registry)) in Hsum.
  2: { intros s. unfold included_session. rewrite Hkeep. by destruct projectFilter. }
  rewrite <- Hsum. unfold accumulated. do 2 f_equal.
  destruct projectFilter as [p|].
  - apply filter_ext. intros q. by rewrite Hkeep.
  - rewrite (filter_ext (λ p, keep p.1) (λ _, true)); [by rewrite filter_all|].
    intros q. by rewrite Hkeep.
Qed.

End Measure.

(** Rounding changes the costs of the result and none of its counts. *)
Lemma reported_counts (raw : list (string * ProjectUsageEntry Cost)) :
  map (λ p, totalTokens p.2) (map (λ p, (p.1, reported round_project p.2)) raw)
  = map (λ p, totalTokens p.2) raw
  ∧ map (λ p, sessions p.2) (map (λ p, (p.1, reported round_project p.2)) raw)
    = map (λ p, sessions p.2) raw
  ∧ map (λ p, estimatedCostUSD p.2) (map (λ p, (p.1, reported round_project p.2)) raw)
    = map (λ p, round_project (estimatedCostUSD p.2)) raw.
Proof. split_and!; induction raw as [|p raw IH]; simpl; by rewrite ?IH. Qed.


(** Any rounding that is not additive on two costs separates the grand
    total from the sum of the costs of the result. *)
Lemma lossy_rounding_separates (a b : Cost) :
  (∀ x, cost_add cost_zero x = x) →
  cost_add (round_project a) (round_project b) ≠ round_total (cost_add a b) →
  let r := aggregate cost_zero cost_add round_project round_total 0 None None
             [ {| cwd := "/a";
                  events := [ {| ev_timestamp := 0; ev_model := ""; ev_input := 0;
                                 ev_output := 0; ev_cost := a |} ] |};
               {| cwd := "/b";
                  events := [ {| ev_timestamp := 0; ev_model := ""; ev_input := 0;
                                 ev_output := 0; ev_cost := b |} ] |} ]
             (Some (Samples.registry_of [("a", Samples.entry_at "/a" true);
                                         ("b", Samples.entry_at "/b" true)])) in
  totals_estimatedCostUSD (totals r)
  ≠ sum_cost cost_zero cost_add (map (fun p => estimatedCostUSD p.2) (projects r)).
Proof.
  intros Hzero Hlossy r Hsame. apply Hlossy.
  unfold r, aggregate, accumulated, sum_cost in Hsame. simpl in Hsame.
  by rewrite !Hzero in Hsame.
Qed.

End Facts.



(** The usage scenario of the specification: two events of one session of
    [openclaw] in the window, and a session that matches no project. *)
Example aggregate_scenario :
  let r := aggregate 0%Z Z.add Samples.round_4_decimals Samples.round_4_decimals
             Samples.scenario_now (Some 7%Z) None
             Samples.scenario_sessions (Some Samples.scenario_registry) in
  projects r
  = [("openclaw",
      {| sessions := 1; totalTokens := 180; inputTokens := 120; outputTokens := 60;
         estimatedCostUSD := 12000%Z |});
     ("_unmatched",
      {| sessions := 1; totalTokens := 10; inputTokens := 7; outputTokens := 3;
         estimatedCostUSD := 100%Z |})]
  ∧ totals r
    = {| totals_sessions := 2; totals_totalTokens := 190;
         totals_estimatedCostUSD := 12100%Z |}.
Proof. by split. Qed.

End UsageFacts.

(** ** The gateway handlers *)

Module GatewayFacts.
Import Js Gateway StringFacts.

(** *** Own properties *)

Lemma own_get_own_set_eq (k : string) (v : json) (ps : list (string * json)) :
  own_get k (own_set k v ps) = Some v.
Proof.
  induction ps as [|[k' v'] ps IH]; simpl.
  - by rewrite String.eqb_refl.
  - destruct (String.eqb k k') eqn:E; simpl; rewrite ?String.eqb_refl, ?E; done.
Qed.

Lemma own_get_own_set_ne (k k' : string) (v : json) (ps : list (string * json)) :
  k ≠ k' → own_get k' (own_set k v ps) = own_get k' ps.
Proof.
  intros Hne. induction ps as [|[k0 v0] ps IH]; simpl.
  - by destruct (String.eqb_spec k' k); [congruence|].
  - destruct (String.eqb_spec k k0) as [<-|Hk0]; simpl.
    + by destruct (String.eqb_spec k' k); [congruence|].
    + by destruct (String.eqb k' k0).
Qed.

(** An assignment to an existing property keeps the order of the keys. *)
Lemma own_set_keys (k : string) (v x : json) (ps : list (string * json)) :
  own_get k ps = Some x → (own_set k v ps).*1 = ps.*1.
Proof.
  induction ps as [|[k' v'] ps IH]; simpl; [done|].
  destruct (String.eqb_spec k k') as [->|Hne]; [done|].
  intros Hget. rewrite !fmap_cons. f_equal. by apply IH.
Qed.

(** An assignment to a property that the object lacks adds it as the last
    key. *)
Lemma own_set_new_key (k : string) (v : json) (ps : list (string * json)) :
  own_get k ps = None → (own_set k v ps).*1 = ps.*1 ++ [k].
Proof.
  induction ps as [|[k' v'] ps IH]; simpl; [done|].
  destruct (String.eqb_spec k k') as [->|Hne]; [done|].
  intros Hget. rewrite !fmap_cons. simpl. f_equal. by apply IH.
Qed.

(** An assignment leaves every other property at its place, with its
    value. *)
Lemma own_set_others (k : string) (v : json) (ps : list (string * json)) :
  ∀ (i : nat) (k' : string) (v' : json),
    ps !! i = Some (k', v') → k' ≠ k → own_set k v ps !! i = Some (k', v').
Proof.
  induction ps as [|[k0 v0] ps IH]; intros i k' v' Hi Hne; [done|]. simpl.
  destruct i as [|i]; simpl in Hi.
  - simplify_eq. by destruct (String.eqb_spec k k'); [congruence|].
  - destruct (String.eqb k k0); simpl; [done|]. by apply IH.
Qed.

Section Handlers.
Variable h : Host.

Ltac step :=
  match goal with
  | |- context [match ?x with _ => _ end] =>
      lazymatch x with
      | context [match _ with _ => _ end] => fail
      | _ => destruct x eqn:?
      end
  end.

Ltac unfold_handlers :=
  unfold projects_list, projects_usage, projects_git, projects_scan, projects_toggle,
    guarded_projects_usage, guarded_projects_git, guarded_projects_scan,
    guarded_script_handler, invalid_name,
    runPythonScript, execFileAsync, assign_enabled, read_projects, try_catch, unavailable,
    mbind, M_bind, mret, M_ret, lift, throw, respond,
    fs_existsSync, fs_readFileSync, fs_writeFileSync, initial.

Ltac close_case :=
  split_and!;
  [ reflexivity
  | eexists; reflexivity
  | intros inv' Hin; simpl in Hin;
    first [ by apply elem_of_nil in Hin
          | apply list_elem_of_singleton in Hin; subst inv'; by split ]
  | intros inv' err' Hin Hs; simpl in Hin;
    first [ by apply elem_of_nil in Hin
          | apply list_elem_of_singleton in Hin; subst inv';
            match goal with
            | E : spawn _ _ _ = _ |- _ => rewrite E in Hs
            end; simpl in Hs; by simplify_eq ] ].

(** *** Aggregation scripts *)

Lemma projects_usage_bounded : bounded_and_reported h (projects_usage h).
Proof.
  intros params d out. subst out. unfold_handlers. simpl.
  repeat (step; simpl); close_case.
Qed.

Lemma projects_git_bounded : bounded_and_reported h (projects_git h).
Proof.
  intros params d out. subst out. unfold_handlers. simpl.
  repeat (step; simpl); close_case.
Qed.

Lemma projects_scan_bounded : bounded_and_reported h (projects_scan h).
Proof.
  intros params d out. subst out. unfold_handlers. cbv zeta.
  match goal with |- context [List.flat_map _ ?r] => generalize r; intros roots end.
  repeat (step; simpl); close_case.
Qed.

(** Whatever the roots of the request are, [projects.scan] hands all of
    them to the scanner, and [projects.usage] hands over any project name. *)
Lemma projects_scan_roots_unchecked (params : json) (items : list json) (d : Disk)
    (script : string) :
  opt_field (Val params) "roots" = Val (JArr items) →
  files d !! path_join h [resolveScriptsDir h; "project_scan.py"] = Some script →
  args <$> spawned (projects_scan h params (initial d)).2
  = [ path_join h [resolveScriptsDir h; "project_scan.py"]
      :: "--output" :: REGISTRY_PATH h
      :: List.flat_map (fun root => ["--root"; root])
           (List.map (to_string (number_to_string h)) items) ].
Proof.
  intros Hroots Hscript. unfold projects_scan. rewrite Hroots.
  unfold_handlers. cbv zeta. simpl. rewrite Hscript. simpl.
  repeat (step; simpl); reflexivity.
Qed.

Lemma projects_usage_name_unchecked (params : json) (name : string) (d : Disk)
    (script : string) :
  opt_field (Val params) "project" = Val (JStr name) →
  files d !! path_join h [resolveScriptsDir h; "project_usage.py"] = Some script →
  args <$> spawned (projects_usage h params (initial d)).2
  = [ path_join h [resolveScriptsDir h; "project_usage.py"]
      :: "--format" :: "json" :: days_args h params ++ ["--project"; name] ].
Proof.
  intros Hname Hscript. unfold projects_usage, project_args. rewrite Hname.
  unfold_handlers. cbv zeta. simpl. rewrite Hscript. simpl.
  repeat (step; simpl); reflexivity.
Qed.

(** C7. Each handler that runs an aggregation script ([projects.usage],
    [projects.git], [projects.scan]) hands [execFile] a timeout of 30000 ms
    and an output limit of 10 * 1024 * 1024 bytes for every process it
    spawns; whatever the process does, the handler returns and answers
    exactly once, and when the process fails (the timeout included) the
    answer is the structured error [UNAVAILABLE] with the text of the
    failure. *)
Theorem script_handlers_bounded_and_reported :
  bounded_and_reported h (projects_usage h)
  ∧ bounded_and_reported h (projects_git h)
  ∧ bounded_and_reported h (projects_scan h).
Proof.
  split_and!;
    [apply projects_usage_bounded | apply projects_git_bounded | apply projects_scan_bounded].
Qed.

(** *** [projects.list] *)

(** C6. [projects.list] answers with success and an empty projects map
    when the registry file is absent, and with the structured error
    [UNAVAILABLE] when the file exists and [JSON.parse] rejects its text; in
    both cases the handler returns, answers once and leaves the disk. *)
Theorem projects_list_absent_or_malformed (d : Disk) :
  (files d !! REGISTRY_PATH h = None →
     projects_list h (initial d)
     = (Ok tt,
        {| disk := d;
           spawned := [];
           responded :=
             [success (JObj [("projects", JObj []);
                             ("message", JStr "No registry found. Run projects.scan first.")])] |}))
  ∧ (∀ raw err,
       files d !! REGISTRY_PATH h = Some raw →
       JSON_parse h raw = Throw err →
       ∃ msg,
         projects_list h (initial d)
         = (Ok tt,
            {| disk := d; spawned := []; responded := [failure UNAVAILABLE msg] |})).
Proof.
  split.
  - intros Hfile. unfold_handlers. simpl. by rewrite Hfile.
  - intros raw err Hfile Hparse. unfold_handlers. simpl. rewrite Hfile. simpl.
    case_bool_decide; simpl; [by eexists|].
    rewrite Hfile. simpl. rewrite Hparse. simpl. by eexists.
Qed.

(** *** [projects.toggle] *)

(** C1, amended. For a request with a non-empty project name and a
    boolean flag, when the registry file can be read and parses to a
    registry whose projects map has no entry under the name, and the name is
    not a property name of [Object.prototype], [projects.toggle] fails with
    the structured error [INVALID_REQUEST] and the message "Project not
    found: <name>": the handler returns, answers once, spawns nothing and
    leaves the disk. *)
Theorem projects_toggle_not_found (d : Disk) (params : json) (name : string)
    (enabled : bool) (raw : string) (registry : json) (ps : list (string * json)) :
  opt_field (Val params) "project" = Val (JStr name) →
  name ≠ "" →
  opt_field (Val params) "enabled" = Val (JBool enabled) →
  files d !! REGISTRY_PATH h = Some raw →
  REGISTRY_PATH h ∉ sealed d →
  JSON_parse h raw = Ok registry →
  registry_projects registry = Some ps →
  own_get name ps = None →
  on_object_prototype name = false →
  projects_toggle h params (initial d)
  = (Ok tt,
     {| disk := d;
        spawned := [];
        responded := [failure INVALID_REQUEST ("Project not found: " +:+ name)] |}).
Proof.
  intros Hp Hname He Hfile Hsealed Hparse Hreg Hget Hproto.
  unfold projects_toggle. rewrite Hp, He.
  destruct (String.eqb_spec name ""); [done|].
  unfold_handlers. simpl. rewrite Hfile. simpl.
  rewrite bool_decide_false by done. rewrite Hfile. simpl. rewrite Hparse. simpl.
  destruct registry as [| | | | |top]; try done. simpl in *.
  destruct (own_get "projects" top) as [[| | | | |ps']|]; simplify_eq; simpl; try done.
  rewrite Hget. unfold inherited. by rewrite Hproto.
Qed.

(** The successful path: the entry of the project is an object of the
    projects map. *)
Lemma projects_toggle_own_entry (d : Disk) (params : json) (name : string)
    (enabled : bool) (raw : string) (top ps entry : list (string * json)) :
  opt_field (Val params) "project" = Val (JStr name) →
  name ≠ "" →
  opt_field (Val params) "enabled" = Val (JBool enabled) →
  files d !! REGISTRY_PATH h = Some raw →
  REGISTRY_PATH h ∉ sealed d →
  JSON_parse h raw = Ok (JObj top) →
  own_get "projects" top = Some (JObj ps) →
  own_get name ps = Some (JObj entry) →
  let entry' := own_set "enabled" (JBool enabled) entry in
  let registry' := JObj (own_set "projects" (JObj (own_set name (JObj entry') ps)) top) in
  projects_toggle h params (initial d)
  = (Ok tt,
     {| disk :=
          {| files := <[REGISTRY_PATH h := JSON_stringify h registry' +:+ newline]> (files d);
             sealed := sealed d |};
        spawned := [];
        responded := [success (JObj [("project", JStr name); ("enabled", JBool enabled)])] |}).
Proof.
  intros Hp Hname He Hfile Hsealed Hparse Htop Hget.
  unfold projects_toggle. rewrite Hp, He.
  destruct (String.eqb_spec name ""); [done|].
  unfold_handlers. simpl. rewrite Hfile. simpl.
  rewrite bool_decide_false by done. rewrite Hfile. simpl. rewrite Hparse. simpl.
  rewrite Htop. simpl. rewrite Hget. simpl.
  by rewrite bool_decide_false by done.
Qed.

(** A name that the projects map lacks and [Object.prototype] defines
    passes the check: the handler answers with success and writes the
    registry back as it read it. *)
Lemma projects_toggle_inherited (d : Disk) (params : json) (name : string)
    (enabled : bool) (raw : string) (top ps : list (string * json)) :
  opt_field (Val params) "project" = Val (JStr name) →
  opt_field (Val params) "enabled" = Val (JBool enabled) →
  files d !! REGISTRY_PATH h = Some raw →
  REGISTRY_PATH h ∉ sealed d →
  JSON_parse h raw = Ok (JObj top) →
  own_get "projects" top = Some (JObj ps) →
  own_get name ps = None →
  on_object_prototype name = true →
  projects_toggle h params (initial d)
  = (Ok tt,
     {| disk :=
          {| files := <[REGISTRY_PATH h := JSON_stringify h (JObj top) +:+ newline]> (files d);
             sealed := sealed d |};
        spawned := [];
        responded := [success (JObj [("project", JStr name); ("enabled", JBool enabled)])] |}).
Proof.
  intros Hp He Hfile Hsealed Hparse Htop Hget Hproto.
  unfold projects_toggle. rewrite Hp, He.
  destruct (String.eqb_spec name "") as [->|_]; [done|].
  unfold_handlers. simpl. rewrite Hfile. simpl.
  rewrite bool_decide_false by done. rewrite Hfile. simpl. rewrite Hparse. simpl.
  rewrite Htop. simpl. rewrite Hget. unfold inherited. rewrite Hproto. simpl.
  by rewrite bool_decide_false by done.
Qed.

(** X1. On a successful toggle of a project that the projects map holds as
    an object, the registry written to the file is the registry read from it
    with only [projects[name].enabled] replaced by the requested flag: the
    other top-level fields, the other projects and the other fields of the
    project are kept, each at its place, and so is the order of the keys at
    all three levels (the top level, the projects map and the project
    itself; a project that had no [enabled] field gets it as its last key);
    the text written is its [JSON.stringify] followed by a line feed. *)
Theorem projects_toggle_persists_flag (d : Disk) (params : json) (name : string)
    (enabled : bool) (raw : string) (top ps entry : list (string * json)) :
  opt_field (Val params) "project" = Val (JStr name) →
  name ≠ "" →
  opt_field (Val params) "enabled" = Val (JBool enabled) →
  files d !! REGISTRY_PATH h = Some raw →
  REGISTRY_PATH h ∉ sealed d →
  JSON_parse h raw = Ok (JObj top) →
  own_get "projects" top = Some (JObj ps) →
  own_get name ps = Some (JObj entry) →
  ∃ top' ps' entry',
    projects_toggle h params (initial d)
    = (Ok tt,
       {| disk :=
            {| files := <[REGISTRY_PATH h := JSON_stringify h (JObj top') +:+ newline]> (files d);
               sealed := sealed d |};
          spawned := [];
          responded := [success (JObj [("project", JStr name); ("enabled", JBool enabled)])] |})
    ∧ own_get "projects" top' = Some (JObj ps')
    ∧ (∀ k, k ≠ "projects" → own_get k top' = own_get k top)
    ∧ top'.*1 = top.*1
    ∧ own_get name ps' = Some (JObj entry')
    ∧ (∀ n, n ≠ name → own_get n ps' = own_get n ps)
    ∧ ps'.*1 = ps.*1
    ∧ own_get "enabled" entry' = Some (JBool enabled)
    ∧ (∀ k, k ≠ "enabled" → own_get k entry' = own_get k entry)
    ∧ (∀ old, own_get "enabled" entry = Some old → entry'.*1 = entry.*1)
    ∧ (own_get "enabled" entry = None → entry'.*1 = entry.*1 ++ ["enabled"])
    ∧ (∀ i k v, top !! i = Some (k, v) → k ≠ "projects" → top' !! i = Some (k, v))
    ∧ (∀ i n v, ps !! i = Some (n, v) → n ≠ name → ps' !! i = Some (n, v))
    ∧ (∀ i k v, entry !! i = Some (k, v) → k ≠ "enabled" → entry' !! i = Some (k, v)).
Proof.
  intros Hp Hname He Hfile Hsealed Hparse Htop Hget.
  eexists _, _, _. split.
  { by apply (projects_toggle_own_entry d params name enabled raw top ps entry). }
  split_and!.
  - apply own_get_own_set_eq.
  - intros k Hk. by apply own_get_own_set_ne.
  - by eapply own_set_keys.
  - apply own_get_own_set_eq.
  - intros n Hn. by apply own_get_own_set_ne.
  - by eapply own_set_keys.
  - apply own_get_own_set_eq.
  - intros k Hk. by apply own_get_own_set_ne.
  - intros old Hold. by eapply own_set_keys.
  - intros Hnone. by apply own_set_new_key.
  - intros i k v Hi Hk. by apply own_set_others.
  - intros i n v Hi Hn. by apply own_set_others.
  - intros i k v Hi Hk. by apply own_set_others.
Qed.

(** The disk changes only when the handler answers with success. *)
Lemma projects_toggle_disk (params : json) (d : Disk) :
  let out := projects_toggle h params (initial d) in
  disk out.2 = d ∨ ∃ p, responded out.2 = [success p].
Proof.
  intros out. subst out. unfold_handlers.
  repeat (step; simpl); try (by left); right; by eexists.
Qed.

(** C5. A [projects.toggle] that fails because the named project is absent
    leaves the registry file as it was: when the handler answers "Project
    not found", and more generally when the name is absent from the projects
    map of the registry and the handler does not answer with success, the
    disk after the call is the disk before it, so a new read of the file
    gives the same content. *)
Theorem projects_toggle_not_found_leaves_file (params : json) (d : Disk) :
  let out := projects_toggle h params (initial d) in
  (∀ name,
     responded out.2 = [failure INVALID_REQUEST ("Project not found: " +:+ name)] →
     disk out.2 = d
     ∧ files (disk out.2) !! REGISTRY_PATH h = files d !! REGISTRY_PATH h)
  ∧ (∀ name raw registry ps,
       opt_field (Val params) "project" = Val (JStr name) →
       files d !! REGISTRY_PATH h = Some raw →
       JSON_parse h raw = Ok registry →
       registry_projects registry = Some ps →
       own_get name ps = None →
       (∀ resp, resp ∈ responded out.2 → ok resp = false) →
       disk out.2 = d ∧ files (disk out.2) !! REGISTRY_PATH h = Some raw).
Proof.
  intros out.
  assert (Hout : disk out.2 = d ∨ ∃ p, responded out.2 = [success p])
    by apply projects_toggle_disk.
  clearbody out. destruct Hout as [Hdisk|[p Hp]].
  - split.
    + intros name _. by rewrite Hdisk.
    + intros name raw registry ps _ Hfile _ _ _ _. by rewrite Hdisk.
  - split.
    + intros name Hresp. rewrite Hp in Hresp. by simplify_eq.
    + intros name raw registry ps _ _ _ _ _ Hfail.
      specialize (Hfail (success p)). rewrite Hp in Hfail.
      by specialize (Hfail (list_elem_of_here _ _)).
Qed.

(** *** The copy with the path checks *)

Lemma includes_spec (needle s : string) :
  includes needle s = true ↔ ∃ before after, s = before +:+ needle +:+ after.
Proof.
  induction s as [|a s IH].
  - change (includes needle "") with (String.prefix needle "" || false).
    rewrite orb_false_r, prefix_true. split.
    + intros [rest ->]. by exists "", rest.
    + intros ([|b before] & after & Hs); [by exists after|].
      by rewrite append_cons in Hs.
  - change (includes needle (String a s))
      with (String.prefix needle (String a s) || includes needle s).
    rewrite orb_true_iff, prefix_true, IH. split.
    + intros [[rest Hs]|(before & after & ->)].
      * by exists "", rest.
      * by exists (String a before), after.
    + intros ([|b before] & after & Hs).
      * left. by exists after.
      * right. rewrite append_cons in Hs. simplify_eq. by exists before, after.
Qed.

Lemma sanitizePath_within (p r : string) :
  sanitizePath h p = Some r → r = path_resolve h [p] ∧ within_home h r.
Proof.
  unfold sanitizePath, within_home.
  destruct (String.prefix (HOME h +:+ "/") (path_resolve h [p])) eqn:Hpre; simpl.
  - intros [= <-]. split; [done|]. right.
    apply prefix_true in Hpre as [rest Hrest]. exists rest.
    by rewrite <- append_assoc.
  - destruct (String.eqb_spec (path_resolve h [p]) (HOME h)); simpl; [|done].
    intros [= <-]. split; [done | by left].
Qed.

Lemma valid_roots_within (rawRoots : list json) :
  Forall (fun r => within_home h r ∧ ∃ raw, JStr raw ∈ rawRoots ∧ r = path_resolve h [raw])
    (valid_roots h rawRoots).
Proof.
  apply Forall_forall. intros r Hr. unfold valid_roots in Hr.
  apply list_elem_of_omap in Hr as (raw & Hraw & Hsan).
  apply list_elem_of_omap in Hraw as (v & Hv & Hstr).
  destruct v; simplify_eq.
  apply sanitizePath_within in Hsan as [-> Hin]. split; [done|]. by exists raw.
Qed.

(** [sanitizePath] accepts every path that resolves to the home directory
    or below it. *)
Lemma sanitizePath_accepts (p : string) :
  within_home h (path_resolve h [p]) → sanitizePath h p = Some (path_resolve h [p]).
Proof.
  unfold sanitizePath. intros [Heq|[rest Hrest]].
  - rewrite Heq, String.eqb_refl. simpl. by rewrite andb_false_r.
  - assert (Hpre : String.prefix (HOME h +:+ "/") (path_resolve h [p]) = true).
    { apply prefix_true. exists rest. by rewrite append_assoc. }
    by rewrite Hpre.
Qed.

(** The roots that pass the validation are exactly the string roots that
    resolve within the home directory, resolved. *)
Lemma valid_roots_spec (rawRoots : list json) (r : string) :
  r ∈ valid_roots h rawRoots
  ↔ ∃ raw, JStr raw ∈ rawRoots ∧ r = path_resolve h [raw] ∧ within_home h r.
Proof.
  split.
  - intros Hr. pose proof (valid_roots_within rawRoots) as Hall.
    rewrite Forall_forall in Hall. destruct (Hall r Hr) as (Hin & raw & Hraw & Hres).
    by exists raw.
  - intros (raw & Hraw & -> & Hin). unfold valid_roots.
    apply list_elem_of_omap. exists raw. split; [|by apply sanitizePath_accepts].
    apply list_elem_of_omap. by exists (JStr raw).
Qed.

(** X2. The roots the guarded [projects.scan] hands to the scanner. The
    roots asked for are the elements of [params.roots] when it is an array,
    and the default [HOME/dev] otherwise. Every root handed over after
    [--root] is the resolved path of a string among the roots asked for and
    lies within the home directory; and every string among them that
    resolves within the home directory is handed over. *)
Lemma guarded_scan_roots_within_home (params : json) (d : Disk) (inv : Invocation) :
  inv ∈ spawned (guarded_projects_scan h params (initial d)).2 →
  let asked :=
    match opt_field (Val params) "roots" with
    | Val (JArr items) => items
    | _ => [JStr (path_join h [HOME h; "dev"])]
    end in
  ∃ roots,
    args inv
    = path_join h [resolveScriptsDir h; "project_scan.py"]
      :: "--output" :: REGISTRY_PATH h :: List.flat_map (fun root => ["--root"; root]) roots
    ∧ Forall (within_home h) roots
    ∧ (∀ r, r ∈ roots
            ↔ ∃ raw, JStr raw ∈ asked ∧ r = path_resolve h [raw] ∧ within_home h r).
Proof.
  unfold_handlers. cbv zeta.
  match goal with |- context [valid_roots h ?r] =>
    assert (Hroots := valid_roots_within r);
    assert (Hspec := valid_roots_spec r); revert Hroots Hspec;
    generalize (valid_roots h r); generalize r; intros asked roots Hroots Hspec
  end.
  destruct roots as [|r roots]; simpl; [by intros ?%elem_of_nil|].
  repeat (step; simpl); intros Hin;
    first [ by apply elem_of_nil in Hin
          | apply list_elem_of_singleton in Hin; subst inv; simpl;
            exists (r :: roots); split; [done|]; split;
            [ eapply Forall_impl; [exact Hroots | by intros ? []]
            | exact Hspec ] ].
Qed.

(** X3. The guarded [projects.usage] and [projects.git] refuse a project
    name with a path separator or two dots in a row before anything is
    spawned. *)
Lemma guarded_names_refused (script : string) (params : json) (d : Disk)
    (p before after : string) (bad : string) :
  opt_field (Val params) "project" = Val (JStr p) →
  bad ∈ ["/"; "\"; ".."] →
  p = before +:+ bad +:+ after →
  guarded_script_handler h script params (initial d)
  = (Ok tt,
     {| disk := d; spawned := []; responded := [failure INVALID_REQUEST "Invalid project name"] |}).
Proof.
  intros Hp Hbad Hsplit.
  assert (Hnone : sanitizeProjectName p = None).
  { unfold sanitizeProjectName.
    assert (Hinc : includes bad p = true) by (apply includes_spec; eauto).
    repeat (apply elem_of_cons in Hbad as [->|Hbad]);
      [| | | by apply elem_of_nil in Hbad]; rewrite Hinc; simpl;
      by rewrite ?orb_true_r. }
  unfold guarded_script_handler. rewrite Hp, Hnone. reflexivity.
Qed.

End Handlers.

(** *** The properties at the sample inputs *)

Import Samples.

Lemma sample_registry_file :
  files disk_with_registry !! REGISTRY_PATH host = Some registry_text.
Proof. vm_compute. reflexivity. Qed.

Lemma sample_registry_parse : JSON_parse host registry_text = Ok registry_doc.
Proof. vm_compute. reflexivity. Qed.

Lemma script_handlers_bounded_and_reported_witness :
  responded (projects_usage slow_host (JObj [("days", JNum 7%float)])
               (initial disk_with_registry)).2
  = [failure UNAVAILABLE "Error: Command failed: python3 (killed by SIGTERM)"].
Proof.
  destruct (script_handlers_bounded_and_reported slow_host) as [Husage _].
  destruct (Husage (JObj [("days", JNum 7%float)]) disk_with_registry)
    as (_ & _ & _ & Hfail).
  apply (Hfail
           {| file := "python3";
              args := ["/app/skills/dev-cockpit/scripts/project_usage.py";
                       "--format"; "json"; "--days"; "7"];
              options := {| timeout := 30000; maxBuffer := 10 * 1024 * 1024;
                            env_extra := [("PYTHONDONTWRITEBYTECODE", "1")] |} |}).
  - vm_compute. apply list_elem_of_here.
  - reflexivity.
Defined.

Lemma projects_list_absent_or_malformed_witness :
  projects_list host (initial disk_without_registry)
  = (Ok tt,
     {| disk := disk_without_registry;
        spawned := [];
        responded :=
          [success (JObj [("projects", JObj []);
                          ("message", JStr "No registry found. Run projects.scan first.")])] |})
  ∧ ∃ msg,
      projects_list host (initial disk_with_garbage)
      = (Ok tt,
         {| disk := disk_with_garbage; spawned := [];
            responded := [failure UNAVAILABLE msg] |}).
Proof.
  split.
  - apply (proj1 (projects_list_absent_or_malformed host disk_without_registry)).
    vm_compute. reflexivity.
  - apply (proj2 (projects_list_absent_or_malformed host disk_with_garbage)
             "{ projects: " "SyntaxError: Unexpected token in JSON").
    + vm_compute. reflexivity.
    + vm_compute. reflexivity.
Defined.

(** C1, as stated, fails: for a name that is absent from the projects map
    the error code of the answer is [INVALID_REQUEST], not NotFound. *)
Lemma projects_toggle_absent_is_invalid_request :
  registry_projects registry_doc = Some [("openclaw", openclaw_entry)]
  ∧ own_get "ghost" [("openclaw", openclaw_entry)] = None
  ∧ ∃ resp,
      responded (projects_toggle host (toggle_params "ghost" false)
                   (initial disk_with_registry)).2 = [resp]
      ∧ code <$> error resp = Some INVALID_REQUEST
      ∧ code <$> error resp ≠ Some NOT_FOUND.
Proof.
  split; [reflexivity|]. split; [reflexivity|].
  eexists. split; [vm_compute; reflexivity|]. by split.
Qed.

Lemma projects_toggle_not_found_witness :
  projects_toggle host (toggle_params "ghost" false) (initial disk_with_registry)
  = (Ok tt,
     {| disk := disk_with_registry;
        spawned := [];
        responded := [failure INVALID_REQUEST "Project not found: ghost"] |}).
Proof.
  apply (projects_toggle_not_found host disk_with_registry (toggle_params "ghost" false)
           "ghost" false registry_text registry_doc [("openclaw", openclaw_entry)]).
  - reflexivity.
  - discriminate.
  - reflexivity.
  - apply sample_registry_file.
  - apply not_elem_of_empty.
  - apply sample_registry_parse.
  - reflexivity.
  - reflexivity.
  - reflexivity.
Defined.

Lemma projects_toggle_not_found_leaves_file_witness :
  disk (projects_toggle host (toggle_params "ghost" false)
          (initial disk_with_registry)).2 = disk_with_registry
  ∧ files (disk (projects_toggle host (toggle_params "ghost" false)
                   (initial disk_with_registry)).2) !! REGISTRY_PATH host
    = files disk_with_registry !! REGISTRY_PATH host.
Proof.
  destruct (projects_toggle_not_found_leaves_file host (toggle_params "ghost" false)
              disk_with_registry) as [Hanswer _].
  apply (Hanswer "ghost"). vm_compute. reflexivity.
Defined.

Lemma projects_toggle_persists_flag_witness :
  ∃ top' ps' entry',
    projects_toggle host (toggle_params "openclaw" false) (initial disk_with_registry)
    = (Ok tt,
       {| disk :=
            {| files := <[REGISTRY_PATH host := JSON_stringify host (JObj top') +:+ newline]>
                          (files disk_with_registry);
               sealed := sealed disk_with_registry |};
          spawned := [];
          responded := [success (JObj [("project", JStr "openclaw"); ("enabled", JBool false)])] |})
    ∧ own_get "projects" top' = Some (JObj ps')
    ∧ own_get "openclaw" ps' = Some (JObj entry')
    ∧ own_get "enabled" entry' = Some (JBool false)
    ∧ own_get "path" entry' = Some (JStr "/home/dev/dev/projects/openclaw")
    ∧ entry'.*1 = ["path"; "enabled"; "tags"; "language"; "discovered"; "description"].
Proof.
  destruct (projects_toggle_persists_flag host disk_with_registry
              (toggle_params "openclaw" false) "openclaw" false registry_text
              [("version", JNum 1%float);
               ("scannedAt", JStr "2026-02-20T17:00:00Z");
               ("scanRoots", JArr [JStr "/home/dev/dev"]);
               ("projects", JObj [("openclaw", openclaw_entry)])]
              [("openclaw", openclaw_entry)]
              [("path", JStr "/home/dev/dev/projects/openclaw");
               ("enabled", JBool true);
               ("tags", JArr [JStr "typescript"; JStr "agent-framework"]);
               ("language", JStr "typescript");
               ("discovered", JStr "2026-02-20");
               ("description", JStr "OpenClaw agent framework")])
    as (top' & ps' & entry' & Hrun & Hps & _ & _ & Hentry & _ & _ & Hflag & Hrest
        & Hkeys & _).
  - reflexivity.
  - discriminate.
  - reflexivity.
  - apply sample_registry_file.
  - apply not_elem_of_empty.
  - apply sample_registry_parse.
  - reflexivity.
  - reflexivity.
  - exists top', ps', entry'. split_and!; [done.. | |].
    + rewrite Hrest; [reflexivity | discriminate].
    + by rewrite (Hkeys (JBool true) eq_refl).
Defined.

(** C4 at a failing input. The projects map has no project "constructor";
    the handler finds the function [Object] under that name, answers with
    success and writes the registry back without any flag of such a
    project: the file is what it was. *)
Theorem projects_toggle_constructor_succeeds :
  registry_projects registry_doc = Some [("openclaw", openclaw_entry)]
  ∧ own_get "constructor" [("openclaw", openclaw_entry)] = None
  ∧ projects_toggle host (toggle_params "constructor" false) (initial disk_with_registry)
    = (Ok tt,
       {| disk := disk_with_registry;
          spawned := [];
          responded :=
            [success (JObj [("project", JStr "constructor"); ("enabled", JBool false)])] |}).
Proof.
  split; [reflexivity|]. split; [reflexivity|]. vm_compute. reflexivity.
Qed.

(** C2 at failing inputs. A root outside the home directory and a project
    name with a traversal, both of which the checks of the second copy
    refuse, reach the spawned process unchanged. *)
Theorem projects_scan_spawns_unchecked_root :
  sanitizePath host "/etc" = None
  ∧ args <$> spawned (projects_scan host (JObj [("roots", JArr [JStr "/etc"])])
                        (initial disk_with_registry)).2
    = [ ["/app/skills/dev-cockpit/scripts/project_scan.py"; "--output";
         "/home/dev/.openclaw/cockpit/projects.json"; "--root"; "/etc"] ]
  ∧ sanitizeProjectName "../../etc/passwd" = None
  ∧ args <$> spawned (projects_usage host (JObj [("project", JStr "../../etc/passwd")])
                        (initial disk_with_registry)).2
    = [ ["/app/skills/dev-cockpit/scripts/project_usage.py"; "--format"; "json";
         "--project"; "../../etc/passwd"] ]
  ∧ args <$> spawned (projects_git host (JObj [("project", JStr "../../etc/passwd")])
                        (initial disk_with_registry)).2
    = [ ["/app/skills/dev-cockpit/scripts/git_activity.py"; "--format"; "json";
         "--project"; "../../etc/passwd"] ].
Proof. split_and!; vm_compute; reflexivity. Qed.

Lemma guarded_scan_roots_within_home_witness :
  ∃ roots,
    [ "/app/skills/dev-cockpit/scripts/project_scan.py"; "--output";
      "/home/dev/.openclaw/cockpit/projects.json"; "--root"; "/home/dev/work" ]
    = path_join host [resolveScriptsDir host; "project_scan.py"]
      :: "--output" :: REGISTRY_PATH host
      :: List.flat_map (fun root => ["--root"; root]) roots
    ∧ Forall (within_home host) roots
    ∧ (∀ r, r ∈ roots
            ↔ ∃ raw, JStr raw ∈ [JStr "/etc"; JStr "/home/dev/work"; JNull]
                     ∧ r = path_resolve host [raw] ∧ within_home host r).
Proof.
  apply (guarded_scan_roots_within_home host
           (JObj [("roots", JArr [JStr "/etc"; JStr "/home/dev/work"; JNull])])
           disk_with_registry
           {| file := "python3";
              args := [ "/app/skills/dev-cockpit/scripts/project_scan.py"; "--output";
                        "/home/dev/.openclaw/cockpit/projects.json";
                        "--root"; "/home/dev/work" ];
              options := {| timeout := 30000; maxBuffer := 10 * 1024 * 1024;
                            env_extra := [("PYTHONDONTWRITEBYTECODE", "1")] |} |}).
  vm_compute. apply list_elem_of_here.
Defined.

Lemma guarded_names_refused_witness :
  guarded_projects_usage host (JObj [("project", JStr "../../etc/passwd")])
    (initial disk_with_registry)
  = (Ok tt,
     {| disk := disk_with_registry; spawned := [];
        responded := [failure INVALID_REQUEST "Invalid project name"] |}).
Proof.
  apply (guarded_names_refused host "project_usage.py"
           (JObj [("project", JStr "../../etc/passwd")]) disk_with_registry
           "../../etc/passwd" "" "/../etc/passwd" "..").
  - reflexivity.
  - apply list_elem_of_further, list_elem_of_further, list_elem_of_here.
  - reflexivity.
Defined.

(** The successful path on the sample registry. *)
Example projects_toggle_openclaw :
  files (disk (projects_toggle host (toggle_params "openclaw" false)
                 (initial disk_with_registry)).2) !! REGISTRY_PATH host
  = Some (render sample_number ""
            (JObj [("version", JNum 1%float);
                   ("scannedAt", JStr "2026-02-20T17:00:00Z");
                   ("scanRoots", JArr [JStr "/home/dev/dev"]);
                   ("projects",
                    JObj [("openclaw",
                           JObj (own_set "enabled" (JBool false)
                                   [("path", JStr "/home/dev/dev/projects/openclaw");
                                    ("enabled", JBool true);
                                    ("tags", JArr [JStr "typescript"; JStr "agent-framework"]);
                                    ("language", JStr "typescript");
                                    ("discovered", JStr "2026-02-20");
                                    ("description", JStr "OpenClaw agent framework")]))])])
          +:+ newline).
Proof. vm_compute. reflexivity. Qed.
End GatewayFacts.

(** ** More of the gateway handlers *)

Module GatewayMoreFacts.
Import Js Gateway GatewayMore StringFacts.

(** *** Own properties under repeated assignment *)

Lemma own_set_own_set (k : string) (v w : json) (ps : list (string * json)) :
  own_set k w (own_set k v ps) = own_set k w ps.
Proof.
  induction ps as [|[k' v'] ps IH]; simpl.
  - by rewrite String.eqb_refl.
  - destruct (String.eqb k k') eqn:E; simpl; rewrite ?String.eqb_refl, ?E; [done|].
    by rewrite IH.
Qed.

Lemma own_set_same (k : string) (v : json) (ps : list (string * json)) :
  own_get k ps = Some v → own_set k v ps = ps.
Proof.
  induction ps as [|[k' v'] ps IH]; simpl; [done|].
  destruct (String.eqb_spec k k') as [->|Hne].
  - by intros [= ->].
  - intros Hget. by rewrite IH.
Qed.

Section Handlers.
Variable h : Host.

Ltac case_step :=
  match goal with
  | |- context [match ?x with _ => _ end] =>
      lazymatch x with
      | context [match _ with _ => _ end] => fail
      | _ => destruct x eqn:?
      end
  end.

Ltac run_handlers :=
  unfold projects_list, projects_usage, projects_git, projects_scan, projects_toggle,
    guarded_projects_usage, guarded_projects_git, guarded_projects_scan,
    guarded_script_handler, invalid_name,
    runPythonScript, execFileAsync, assign_enabled, read_projects, try_catch, unavailable,
    mbind, M_bind, mret, M_ret, lift, throw, respond,
    fs_existsSync, fs_readFileSync, fs_writeFileSync, initial.

(** X4. [projects.toggle] answers InvalidRequest with the text "project
    (string) and enabled (boolean) required", and reads, writes and spawns
    nothing, whenever the request has no non-empty string [project] or no
    boolean [enabled]: a missing field, an empty name, a number for the
    name or a string for the flag are all refused before the registry is
    looked at. *)
Theorem projects_toggle_rejects_malformed_request (params : json) (d : Disk) :
  (∀ s, opt_field (Val params) "project" = Val (JStr s) → s = "")
  ∨ (∀ b, opt_field (Val params) "enabled" ≠ Val (JBool b)) →
  projects_toggle h params (initial d)
  = (Ok tt,
     {| disk := d;
        spawned := [];
        responded :=
          [failure INVALID_REQUEST "project (string) and enabled (boolean) required"] |}).
Proof.
  intros Hbad. unfold projects_toggle.
  destruct (opt_field (Val params) "project") as [|[| | |s| |]|] eqn:Hp; try done.
  destruct (opt_field (Val params) "enabled") as [|[|b| | | |]|] eqn:He; try done.
  destruct (String.eqb_spec s "") as [->|Hs]; [done|].
  destruct Hbad as [Hbad|Hbad]; [by specialize (Hbad s eq_refl) | by specialize (Hbad b)].
Qed.

(** X5. A well-formed [projects.toggle] on a registry that cannot be
    used leaves the disk as it was: with no registry file it answers
    InvalidRequest "No registry found" and creates none; with a file that
    cannot be opened, whose text is not JSON, or whose text is the JSON
    [null], it answers Unavailable. *)
Theorem projects_toggle_unusable_registry (params : json) (d : Disk) (name : string)
    (enabled : bool) :
  opt_field (Val params) "project" = Val (JStr name) → name ≠ "" →
  opt_field (Val params) "enabled" = Val (JBool enabled) →
  (files d !! REGISTRY_PATH h = None →
   projects_toggle h params (initial d)
   = (Ok tt, {| disk := d; spawned := [];
                responded := [failure INVALID_REQUEST "No registry found"] |}))
  ∧ (∀ raw,
       files d !! REGISTRY_PATH h = Some raw →
       REGISTRY_PATH h ∈ sealed d
       ∨ (∃ err, JSON_parse h raw = Throw err)
       ∨ JSON_parse h raw = Ok JNull →
       ∃ msg,
         projects_toggle h params (initial d)
         = (Ok tt, {| disk := d; spawned := []; responded := [failure UNAVAILABLE msg] |})).
Proof.
  intros Hp Hname He. unfold projects_toggle. rewrite Hp, He.
  destruct (String.eqb_spec name ""); [done|]. split.
  - intros Hfile. run_handlers. simpl. by rewrite Hfile.
  - intros raw Hfile Hwhy. run_handlers. simpl. rewrite Hfile. simpl.
    case_bool_decide as Hsealed; simpl; [by eexists|].
    rewrite Hfile. simpl.
    destruct Hwhy as [?|[[err Herr]|Hnull]]; [done| |].
    + rewrite Herr. simpl. by eexists.
    + rewrite Hnull. simpl. by eexists.
Qed.

(** X6. [projects.list] and [projects.toggle] return normally on every
    request and every disk, answer exactly once and start no process;
    [projects.list] moreover leaves the disk as it found it. *)
Theorem list_and_toggle_answer_once (params : json) (d : Disk) :
  let listed := projects_list h (initial d) in
  let toggled := projects_toggle h params (initial d) in
  (listed.1 = Ok tt ∧ (∃ resp, responded listed.2 = [resp])
   ∧ spawned listed.2 = [] ∧ disk listed.2 = d)
  ∧ (toggled.1 = Ok tt ∧ (∃ resp, responded toggled.2 = [resp])
     ∧ spawned toggled.2 = []).
Proof.
  split.
  - run_handlers. repeat (case_step; simpl); split_and!; eauto.
  - run_handlers. repeat (case_step; simpl); split_and!; eauto.
Qed.

(** *** Composition of [projects.toggle] and [projects.list] *)

Lemma projects_list_readable (d : Disk) (raw : string) (registry : json) :
  files d !! REGISTRY_PATH h = Some raw →
  REGISTRY_PATH h ∉ sealed d →
  JSON_parse h raw = Ok registry →
  projects_list h (initial d)
  = (Ok tt, {| disk := d; spawned := []; responded := [success registry] |}).
Proof.
  intros Hfile Hsealed Hparse. run_handlers. simpl. rewrite Hfile. simpl.
  rewrite bool_decide_false by done. rewrite Hfile. simpl. by rewrite Hparse.
Qed.

Lemma with_flag_entry (top ps entry : list (string * json)) (name : string)
    (enabled : bool) :
  ∃ top' ps',
    with_flag top ps entry name enabled = JObj top'
    ∧ own_get "projects" top' = Some (JObj ps')
    ∧ own_get name ps' = Some (JObj (own_set "enabled" (JBool enabled) entry))
    ∧ top' = own_set "projects" (JObj ps') top
    ∧ ps' = own_set name (JObj (own_set "enabled" (JBool enabled) entry)) ps.
Proof.
  eexists _, _. split; [reflexivity|].
  split_and!; [apply GatewayFacts.own_get_own_set_eq
              | apply GatewayFacts.own_get_own_set_eq | done | done].
Qed.

Lemma with_flag_again (top ps entry : list (string * json)) (name : string)
    (first second : bool) :
  with_flag
    (own_set "projects"
       (JObj (own_set name (JObj (own_set "enabled" (JBool first) entry)) ps)) top)
    (own_set name (JObj (own_set "enabled" (JBool first) entry)) ps)
    (own_set "enabled" (JBool first) entry) name second
  = with_flag top ps entry name second.
Proof. unfold with_flag. by rewrite !own_set_own_set. Qed.

(** X7. A successful [projects.toggle] of a project that the projects map
    of the registry holds as an object, followed by [projects.list]: when
    [JSON.parse] reads back the text that [JSON.stringify] produced for the
    updated registry, [projects.list] answers with that registry, in which
    the project carries the requested flag. (A toggle that succeeds on a
    name that the map lacks and [Object.prototype] defines is outside this
    property: it leaves no entry to list.) *)
Theorem projects_toggle_then_list (d : Disk) (params : json) (name : string)
    (enabled : bool) (raw : string) (top ps entry : list (string * json)) :
  opt_field (Val params) "project" = Val (JStr name) →
  name ≠ "" →
  opt_field (Val params) "enabled" = Val (JBool enabled) →
  files d !! REGISTRY_PATH h = Some raw →
  REGISTRY_PATH h ∉ sealed d →
  JSON_parse h raw = Ok (JObj top) →
  own_get "projects" top = Some (JObj ps) →
  own_get name ps = Some (JObj entry) →
  let registry' := with_flag top ps entry name enabled in
  JSON_parse h (JSON_stringify h registry' +:+ newline) = Ok registry' →
  let after := disk (projects_toggle h params (initial d)).2 in
  projects_list h (initial after)
  = (Ok tt, {| disk := after; spawned := []; responded := [success registry'] |})
  ∧ ∃ ps' entry',
      registry_projects registry' = Some ps'
      ∧ own_get name ps' = Some (JObj entry')
      ∧ own_get "enabled" entry' = Some (JBool enabled).
Proof.
  intros Hp Hname He Hfile Hsealed Hparse Htop Hget registry' Hround after.
  split.
  - subst after.
    rewrite (GatewayFacts.projects_toggle_own_entry h d params name enabled raw top ps entry)
      by done.
    apply (projects_list_readable _ (JSON_stringify h registry' +:+ newline));
      [apply lookup_insert_eq | done | done].
  - destruct (with_flag_entry top ps entry name enabled)
      as (top' & ps' & Hdoc & Hps & Hentry & _ & _).
    exists ps', (own_set "enabled" (JBool enabled) entry).
    subst registry'. rewrite Hdoc. unfold registry_projects. rewrite Hps.
    split_and!; [done | done | apply GatewayFacts.own_get_own_set_eq].
Qed.

(** Two toggles of the same project in a row. *)
Lemma projects_toggle_twice (d : Disk) (params1 params2 : json) (name : string)
    (first second : bool) (raw : string) (top ps entry : list (string * json)) :
  opt_field (Val params1) "project" = Val (JStr name) →
  opt_field (Val params1) "enabled" = Val (JBool first) →
  opt_field (Val params2) "project" = Val (JStr name) →
  opt_field (Val params2) "enabled" = Val (JBool second) →
  name ≠ "" →
  files d !! REGISTRY_PATH h = Some raw →
  REGISTRY_PATH h ∉ sealed d →
  JSON_parse h raw = Ok (JObj top) →
  own_get "projects" top = Some (JObj ps) →
  own_get name ps = Some (JObj entry) →
  JSON_parse h (JSON_stringify h (with_flag top ps entry name first) +:+ newline)
  = Ok (with_flag top ps entry name first) →
  projects_toggle h params2 (initial (disk (projects_toggle h params1 (initial d)).2))
  = (Ok tt,
     {| disk :=
          {| files :=
               <[REGISTRY_PATH h :=
                   JSON_stringify h (with_flag top ps entry name second) +:+ newline]>
                 (files d);
             sealed := sealed d |};
        spawned := [];
        responded := [success (JObj [("project", JStr name); ("enabled", JBool second)])] |}).
Proof.
  intros Hp1 He1 Hp2 He2 Hname Hfile Hsealed Hparse Htop Hget Hround.
  rewrite (GatewayFacts.projects_toggle_own_entry h d params1 name first raw top ps entry)
    by done.
  simpl.
  destruct (with_flag_entry top ps entry name first)
    as (top' & ps' & Hdoc & Hps & Hentry & Htop' & Hps').
  rewrite Hdoc in Hround.
  rewrite (GatewayFacts.projects_toggle_own_entry h _ params2 name second
             (JSON_stringify h (with_flag top ps entry name first) +:+ newline)
             top' ps' (own_set "enabled" (JBool first) entry));
    [| done | done | done | apply lookup_insert_eq | done | by rewrite Hdoc | done | done].
  simpl. rewrite insert_insert_eq.
  subst top' ps'. by rewrite <- (with_flag_again top ps entry name first second).
Qed.

(** X8. Of two successful toggles of the same project in a row the last
    one wins: the answer and the disk are those of the second toggle made
    alone, whatever flag the first one wrote. *)
Theorem projects_toggle_last_wins (d : Disk) (params1 params2 : json) (name : string)
    (first second : bool) (raw : string) (top ps entry : list (string * json)) :
  opt_field (Val params1) "project" = Val (JStr name) →
  opt_field (Val params1) "enabled" = Val (JBool first) →
  opt_field (Val params2) "project" = Val (JStr name) →
  opt_field (Val params2) "enabled" = Val (JBool second) →
  name ≠ "" →
  files d !! REGISTRY_PATH h = Some raw →
  REGISTRY_PATH h ∉ sealed d →
  JSON_parse h raw = Ok (JObj top) →
  own_get "projects" top = Some (JObj ps) →
  own_get name ps = Some (JObj entry) →
  JSON_parse h (JSON_stringify h (with_flag top ps entry name first) +:+ newline)
  = Ok (with_flag top ps entry name first) →
  projects_toggle h params2 (initial (disk (projects_toggle h params1 (initial d)).2))
  = projects_toggle h params2 (initial d).
Proof.
  intros Hp1 He1 Hp2 He2 Hname Hfile Hsealed Hparse Htop Hget Hround.
  rewrite (projects_toggle_twice d params1 params2 name first second raw top ps entry)
    by done.
  by rewrite (GatewayFacts.projects_toggle_own_entry h d params2 name second raw top ps entry).
Qed.

(** X9. Switching a project to the opposite of its recorded flag and
    back leaves in the registry file the [JSON.stringify] of the document
    read at the start, followed by a line feed: no key is added, dropped or
    moved by the two writes. *)
Theorem projects_toggle_back_restores (d : Disk) (params1 params2 : json) (name : string)
    (original : bool) (raw : string) (top ps entry : list (string * json)) :
  opt_field (Val params1) "project" = Val (JStr name) →
  opt_field (Val params1) "enabled" = Val (JBool (negb original)) →
  opt_field (Val params2) "project" = Val (JStr name) →
  opt_field (Val params2) "enabled" = Val (JBool original) →
  name ≠ "" →
  files d !! REGISTRY_PATH h = Some raw →
  REGISTRY_PATH h ∉ sealed d →
  JSON_parse h raw = Ok (JObj top) →
  own_get "projects" top = Some (JObj ps) →
  own_get name ps = Some (JObj entry) →
  own_get "enabled" entry = Some (JBool original) →
  JSON_parse h (JSON_stringify h (with_flag top ps entry name (negb original)) +:+ newline)
  = Ok (with_flag top ps entry name (negb original)) →
  files (disk (projects_toggle h params2
                 (initial (disk (projects_toggle h params1 (initial d)).2))).2)
    !! REGISTRY_PATH h
  = Some (JSON_stringify h (JObj top) +:+ newline).
Proof.
  intros Hp1 He1 Hp2 He2 Hname Hfile Hsealed Hparse Htop Hget Hflag Hround.
  rewrite (projects_toggle_twice d params1 params2 name (negb original) original
             raw top ps entry) by done.
  simpl. rewrite lookup_insert_eq. unfold with_flag.
  by rewrite (own_set_same "enabled" _ entry Hflag),
    (own_set_same name _ ps Hget), (own_set_same "projects" _ top Htop).
Qed.

(** *** The aggregation scripts *)

(** X10. When the script of [projects.usage], [projects.git] or
    [projects.scan] is not on the disk, the handler answers Unavailable with
    "Error: Script not found: " and the path of the script, and starts no
    process. *)
Theorem script_handlers_without_script (params : json) (d : Disk) :
  (files d !! path_join h [resolveScriptsDir h; "project_usage.py"] = None →
   projects_usage h params (initial d)
   = (Ok tt,
      {| disk := d; spawned := [];
         responded :=
           [failure UNAVAILABLE
              ("Error: Script not found: "
               +:+ path_join h [resolveScriptsDir h; "project_usage.py"])] |}))
  ∧ (files d !! path_join h [resolveScriptsDir h; "git_activity.py"] = None →
     projects_git h params (initial d)
     = (Ok tt,
        {| disk := d; spawned := [];
           responded :=
             [failure UNAVAILABLE
                ("Error: Script not found: "
                 +:+ path_join h [resolveScriptsDir h; "git_activity.py"])] |}))
  ∧ (files d !! path_join h [resolveScriptsDir h; "project_scan.py"] = None →
     projects_scan h params (initial d)
     = (Ok tt,
        {| disk := d; spawned := [];
           responded :=
             [failure UNAVAILABLE
                ("Error: Script not found: "
                 +:+ path_join h [resolveScriptsDir h; "project_scan.py"])] |})).
Proof.
  split_and!; intros Hscript; run_handlers; cbv zeta; simpl; by rewrite Hscript.
Qed.

(** X11. After a scan whose script ran and printed JSON, [projects.scan]
    answers with the registry as it is on the disk the script left, read
    afresh; only when there is no registry file then does it relay what the
    script printed. Exactly one process is started: [python3] on the script
    with [--output], the registry path and one [--root] per root. *)
Theorem projects_scan_returns_fresh_registry (params : json) (d d' : Disk)
    (script stdout : string) (result : json) :
  files d !! path_join h [resolveScriptsDir h; "project_scan.py"] = Some script →
  let roots :=
    match opt_field (Val params) "roots" with
    | Val (JArr items) => List.map (to_string (number_to_string h)) items
    | _ => [path_join h [HOME h; "dev"]]
    end in
  let inv :=
    {| file := "python3";
       args := path_join h [resolveScriptsDir h; "project_scan.py"]
               :: "--output" :: REGISTRY_PATH h
               :: List.flat_map (λ root, ["--root"; root]) roots;
       options := {| timeout := 30000; maxBuffer := 10 * 1024 * 1024;
                     env_extra := [("PYTHONDONTWRITEBYTECODE", "1")] |} |} in
  spawn h inv d = (Ok stdout, d') →
  JSON_parse h stdout = Ok result →
  (∀ raw registry,
     files d' !! REGISTRY_PATH h = Some raw →
     REGISTRY_PATH h ∉ sealed d' →
     JSON_parse h raw = Ok registry →
     projects_scan h params (initial d)
     = (Ok tt, {| disk := d'; spawned := [inv]; responded := [success registry] |}))
  ∧ (files d' !! REGISTRY_PATH h = None →
     projects_scan h params (initial d)
     = (Ok tt, {| disk := d'; spawned := [inv]; responded := [success result] |})).
Proof.
  intros Hscript roots inv Hspawn Hparse.
  split.
  - intros raw registry Hfile Hsealed Hreg. run_handlers. cbv zeta. fold roots.
    simpl. rewrite Hscript. simpl. fold inv. rewrite Hspawn. simpl. rewrite Hparse. simpl.
    rewrite Hfile. simpl. rewrite bool_decide_false by done. rewrite Hfile. simpl.
    by rewrite Hreg.
  - intros Hfile. run_handlers. cbv zeta. fold roots.
    simpl. rewrite Hscript. simpl. fold inv. rewrite Hspawn. simpl. rewrite Hparse. simpl.
    by rewrite Hfile.
Qed.

(** X12. [projects.usage] and [projects.git] start one [python3] process
    on their script with [--format json] and the [--days] and [--project]
    arguments of the request, and relay its output: the parsed JSON as the
    payload of a success, or Unavailable with the parse error when the
    output is not JSON. *)
Theorem usage_and_git_relay_output (params : json) (d d' : Disk) (stdout : string)
    (scriptName : string) (handler : json → M unit) (script : string) :
  (scriptName = "project_usage.py" ∧ handler = projects_usage h)
  ∨ (scriptName = "git_activity.py" ∧ handler = projects_git h) →
  files d !! path_join h [resolveScriptsDir h; scriptName] = Some script →
  let inv :=
    {| file := "python3";
       args := path_join h [resolveScriptsDir h; scriptName]
               :: "--format" :: "json" :: days_args h params ++ project_args params;
       options := {| timeout := 30000; maxBuffer := 10 * 1024 * 1024;
                     env_extra := [("PYTHONDONTWRITEBYTECODE", "1")] |} |} in
  spawn h inv d = (Ok stdout, d') →
  (∀ result, JSON_parse h stdout = Ok result →
     handler params (initial d)
     = (Ok tt, {| disk := d'; spawned := [inv]; responded := [success result] |}))
  ∧ (∀ err, JSON_parse h stdout = Throw err →
     handler params (initial d)
     = (Ok tt, {| disk := d'; spawned := [inv]; responded := [failure UNAVAILABLE err] |})).
Proof.
  intros Hwhich Hscript inv Hspawn.
  destruct Hwhich as [[-> ->]|[-> ->]];
    (split; intros r Hparse; run_handlers; cbv zeta; simpl; rewrite Hscript; simpl;
     fold inv; rewrite Hspawn; simpl; by rewrite Hparse).
Qed.

(** *** The copy with the path checks *)

(** X13. The guarded [projects.scan] answers InvalidRequest "No valid
    roots after path validation" and starts no process when the request
    gives an array of roots none of which is a string that resolves to the
    home directory or below it; the default root is not substituted. *)
Theorem guarded_scan_without_valid_roots (params : json) (d : Disk) (items : list json) :
  opt_field (Val params) "roots" = Val (JArr items) →
  (∀ raw, JStr raw ∈ items → ¬ within_home h (path_resolve h [raw])) →
  guarded_projects_scan h params (initial d)
  = (Ok tt,
     {| disk := d; spawned := [];
        responded := [failure INVALID_REQUEST "No valid roots after path validation"] |}).
Proof.
  intros Hroots Hout. unfold guarded_projects_scan. rewrite Hroots.
  assert (Hnone : valid_roots h items = []).
  { destruct (valid_roots h items) as [|r rest] eqn:Hvalid; [done|].
    assert (Hr : r ∈ valid_roots h items) by (rewrite Hvalid; apply list_elem_of_here).
    pose proof (GatewayFacts.valid_roots_within h items) as Hall.
    rewrite Forall_forall in Hall. destruct (Hall r Hr) as (Hin & raw & Hraw & ->).
    by destruct (Hout raw Hraw). }
  cbv zeta. rewrite Hnone. reflexivity.
Qed.

(** X14. What the two checks accept. [sanitizePath] returns the resolved
    path exactly when it is the home directory or lies below it, and returns
    nothing otherwise. [sanitizeProjectName] returns the name unchanged
    exactly when it contains no "/", no backslash and no ".." anywhere, and
    returns nothing otherwise. *)
Theorem sanitizers_accept_exactly (p name : string) :
  (∀ r, sanitizePath h p = Some r ↔ r = path_resolve h [p] ∧ within_home h r)
  ∧ (sanitizeProjectName name = Some name
     ↔ ∀ bad, bad ∈ ["/"; "\"; ".."] →
              ¬ ∃ before after, name = before +:+ bad +:+ after)
  ∧ (sanitizeProjectName name = Some name ∨ sanitizeProjectName name = None).
Proof.
  split_and!.
  - intros r. split; [apply GatewayFacts.sanitizePath_within|].
    intros [-> Hin]. unfold sanitizePath.
    destruct Hin as [Heq|[rest Hrest]].
    + rewrite Heq, String.eqb_refl. simpl. by rewrite andb_false_r.
    + assert (Hpre : String.prefix (HOME h +:+ "/") (path_resolve h [p]) = true).
      { apply prefix_true. exists rest. by rewrite append_assoc. }
      by rewrite Hpre.
  - unfold sanitizeProjectName. split.
    + intros Hsome bad Hbad Hocc. apply GatewayFacts.includes_spec in Hocc.
      repeat (apply elem_of_cons in Hbad as [->|Hbad]);
        [| | | by apply elem_of_nil in Hbad];
        rewrite Hocc in Hsome; simpl in Hsome; by rewrite ?orb_true_r in Hsome.
    + intros Hclean.
      assert (Hno : ∀ bad, bad ∈ ["/"; "\"; ".."] → includes bad name = false).
      { intros bad Hbad. destruct (includes bad name) eqn:Hinc; [|done].
        apply GatewayFacts.includes_spec in Hinc. by destruct (Hclean bad Hbad). }
      rewrite (Hno "/"), (Hno "\"), (Hno "..");
        [done | | | ]; repeat constructor.
  - unfold sanitizeProjectName. destruct (_ || _); auto.
Qed.

(** X15. The checks do not change the handlers on clean requests: when
    the request has no string [project], or one that is non-empty and passes
    [sanitizeProjectName], the guarded [projects.usage] and [projects.git]
    do exactly what the unguarded ones do. An empty project name, which the
    unguarded handlers pass to the script, is refused by the guarded ones
    with InvalidRequest "Invalid project name". *)
Theorem guarded_handlers_agree_on_clean_names (params : json) (w : World) :
  ((∀ p, opt_field (Val params) "project" = Val (JStr p) →
         p ≠ "" ∧ sanitizeProjectName p = Some p) →
   guarded_projects_usage h params w = projects_usage h params w
   ∧ guarded_projects_git h params w = projects_git h params w)
  ∧ (opt_field (Val params) "project" = Val (JStr "") →
     guarded_projects_usage h params w
     = (Ok tt,
        {| disk := disk w; spawned := spawned w;
           responded := responded w ++ [failure INVALID_REQUEST "Invalid project name"] |})
     ∧ guarded_projects_git h params w
       = (Ok tt,
          {| disk := disk w; spawned := spawned w;
             responded := responded w ++ [failure INVALID_REQUEST "Invalid project name"] |})).
Proof.
  split.
  - intros Hclean.
    unfold guarded_projects_usage, guarded_projects_git, guarded_script_handler,
      projects_usage, projects_git, project_args.
    destruct (opt_field (Val params) "project") as [|[| | |p| |]|] eqn:Hp;
      rewrite ?app_nil_r; try done.
    destruct (Hclean p eq_refl) as [Hne ->].
    destruct (String.eqb_spec p ""); [done|].
    by rewrite <- !app_assoc.
  - intros Hp.
    unfold guarded_projects_usage, guarded_projects_git, guarded_script_handler.
    by rewrite Hp.
Qed.

End Handlers.

(** *** The properties at the sample hosts *)

Import Samples MoreSamples.

Lemma projects_toggle_rejects_malformed_request_witness :
  projects_toggle host (JObj [("project", JStr "openclaw"); ("enabled", JStr "yes")])
    (initial disk_with_registry)
  = (Ok tt,
     {| disk := disk_with_registry; spawned := [];
        responded :=
          [failure INVALID_REQUEST "project (string) and enabled (boolean) required"] |}).
Proof.
  apply (projects_toggle_rejects_malformed_request host
           (JObj [("project", JStr "openclaw"); ("enabled", JStr "yes")]) disk_with_registry).
  right. intros b. vm_compute. discriminate.
Defined.

Lemma projects_toggle_unusable_registry_witness :
  projects_toggle host (toggle_params "openclaw" false) (initial disk_without_registry)
  = (Ok tt, {| disk := disk_without_registry; spawned := [];
               responded := [failure INVALID_REQUEST "No registry found"] |})
  ∧ (∃ msg,
       projects_toggle host (toggle_params "openclaw" false) (initial disk_with_garbage)
       = (Ok tt, {| disk := disk_with_garbage; spawned := [];
                    responded := [failure UNAVAILABLE msg] |}))
  ∧ (∃ msg,
       projects_toggle host (toggle_params "openclaw" false) (initial disk_sealed)
       = (Ok tt, {| disk := disk_sealed; spawned := [];
                    responded := [failure UNAVAILABLE msg] |})).
Proof.
  split_and!.
  - apply (proj1 (projects_toggle_unusable_registry host (toggle_params "openclaw" false)
                    disk_without_registry "openclaw" false eq_refl
                    ltac:(discriminate) eq_refl)).
    reflexivity.
  - apply (proj2 (projects_toggle_unusable_registry host (toggle_params "openclaw" false)
                    disk_with_garbage "openclaw" false eq_refl
                    ltac:(discriminate) eq_refl) "{ projects: "); [reflexivity|].
    right. left. by eexists.
  - apply (proj2 (projects_toggle_unusable_registry host (toggle_params "openclaw" false)
                    disk_sealed "openclaw" false eq_refl
                    ltac:(discriminate) eq_refl) registry_text); [reflexivity|].
    left. vm_compute. reflexivity.
Defined.

Lemma projects_toggle_then_list_witness :
  let after :=
    disk (projects_toggle two_state_host (toggle_params "openclaw" false)
            (initial disk_with_registry)).2 in
  projects_list two_state_host (initial after)
  = (Ok tt, {| disk := after; spawned := []; responded := [success registry_off_doc] |})
  ∧ ∃ ps' entry',
      registry_projects registry_off_doc = Some ps'
      ∧ own_get "openclaw" ps' = Some (JObj entry')
      ∧ own_get "enabled" entry' = Some (JBool false).
Proof.
  apply (projects_toggle_then_list two_state_host disk_with_registry
           (toggle_params "openclaw" false) "openclaw" false registry_text
           registry_top registry_ps openclaw_fields);
    [reflexivity | discriminate | reflexivity | apply GatewayFacts.sample_registry_file
    | apply not_elem_of_empty | by vm_compute | reflexivity | reflexivity | by vm_compute].
Defined.

Lemma projects_toggle_last_wins_witness :
  projects_toggle two_state_host (toggle_params "openclaw" true)
    (initial (disk (projects_toggle two_state_host (toggle_params "openclaw" false)
                      (initial disk_with_registry)).2))
  = projects_toggle two_state_host (toggle_params "openclaw" true)
      (initial disk_with_registry).
Proof.
  apply (projects_toggle_last_wins two_state_host disk_with_registry
           (toggle_params "openclaw" false) (toggle_params "openclaw" true)
           "openclaw" false true registry_text registry_top registry_ps openclaw_fields);
    [reflexivity | reflexivity | reflexivity | reflexivity | discriminate
    | apply GatewayFacts.sample_registry_file
    | apply not_elem_of_empty | by vm_compute | reflexivity | reflexivity | by vm_compute].
Defined.

Lemma projects_toggle_back_restores_witness :
  files (disk (projects_toggle two_state_host (toggle_params "openclaw" true)
                 (initial (disk (projects_toggle two_state_host
                                   (toggle_params "openclaw" false)
                                   (initial disk_with_registry)).2))).2)
    !! REGISTRY_PATH two_state_host
  = Some (JSON_stringify two_state_host (JObj registry_top) +:+ newline).
Proof.
  apply (projects_toggle_back_restores two_state_host disk_with_registry
           (toggle_params "openclaw" false) (toggle_params "openclaw" true)
           "openclaw" true registry_text registry_top registry_ps openclaw_fields);
    [reflexivity | reflexivity | reflexivity | reflexivity | discriminate
    | apply GatewayFacts.sample_registry_file
    | apply not_elem_of_empty | by vm_compute | reflexivity | reflexivity | reflexivity
    | by vm_compute].
Defined.

Lemma script_handlers_without_script_witness :
  projects_scan host (JObj []) (initial {| files := ∅; sealed := ∅ |})
  = (Ok tt,
     {| disk := {| files := ∅; sealed := ∅ |}; spawned := [];
        responded :=
          [failure UNAVAILABLE
             "Error: Script not found: /app/skills/dev-cockpit/scripts/project_scan.py"] |}).
Proof.
  apply (proj2 (proj2 (script_handlers_without_script host (JObj [])
                         {| files := ∅; sealed := ∅ |}))).
  reflexivity.
Defined.

Lemma projects_scan_returns_fresh_registry_witness :
  ∃ inv d',
    projects_scan scanning_host (JObj [("roots", JArr [JStr "/home/dev/dev"])])
      (initial disk_without_registry)
    = (Ok tt, {| disk := d'; spawned := [inv]; responded := [success registry_doc] |})
    ∧ files d' !! REGISTRY_PATH scanning_host = Some registry_text.
Proof.
  eexists _, _. split.
  - apply (proj1 (projects_scan_returns_fresh_registry scanning_host
                    (JObj [("roots", JArr [JStr "/home/dev/dev"])])
                    disk_without_registry
                    {| files := <[REGISTRY_PATH host := registry_text]> script_files;
                       sealed := ∅ |}
                    "" "{}" (JObj []) eq_refl eq_refl eq_refl) registry_text registry_doc).
    + by vm_compute.
    + apply not_elem_of_empty.
    + by vm_compute.
  - by vm_compute.
Defined.

Lemma usage_and_git_relay_output_witness :
  projects_git host (JObj [("days", JNum 7%float); ("project", JStr "openclaw")])
    (initial disk_with_registry)
  = (Ok tt,
     {| disk := disk_with_registry;
        spawned :=
          [{| file := "python3";
              args := ["/app/skills/dev-cockpit/scripts/git_activity.py";
                       "--format"; "json"; "--days"; "7"; "--project"; "openclaw"];
              options := {| timeout := 30000; maxBuffer := 10 * 1024 * 1024;
                            env_extra := [("PYTHONDONTWRITEBYTECODE", "1")] |} |}];
        responded := [success (JObj [])] |}).
Proof.
  apply (proj1 (usage_and_git_relay_output host
                  (JObj [("days", JNum 7%float); ("project", JStr "openclaw")])
                  disk_with_registry disk_with_registry "{}" "git_activity.py"
                  (projects_git host) ""
                  (or_intror (conj eq_refl eq_refl)) eq_refl eq_refl) (JObj [])).
  reflexivity.
Defined.

Lemma guarded_scan_without_valid_roots_witness :
  guarded_projects_scan host (JObj [("roots", JArr [JStr "/etc"; JNum 1%float])])
    (initial disk_with_registry)
  = (Ok tt,
     {| disk := disk_with_registry; spawned := [];
        responded := [failure INVALID_REQUEST "No valid roots after path validation"] |}).
Proof.
  apply (guarded_scan_without_valid_roots host
           (JObj [("roots", JArr [JStr "/etc"; JNum 1%float])]) disk_with_registry
           [JStr "/etc"; JNum 1%float] eq_refl).
  intros raw Hraw.
  apply elem_of_cons in Hraw as [[= ->]|Hraw].
  - intros [Heq|[rest Heq]]; vm_compute in Heq; discriminate.
  - apply list_elem_of_singleton in Hraw. discriminate.
Defined.

Lemma guarded_handlers_agree_on_clean_names_witness :
  guarded_projects_usage host (JObj [("project", JStr "openclaw")]) (initial disk_with_registry)
  = projects_usage host (JObj [("project", JStr "openclaw")]) (initial disk_with_registry).
Proof.
  apply (proj1 (guarded_handlers_agree_on_clean_names host
                  (JObj [("project", JStr "openclaw")]) (initial disk_with_registry))).
  intros p [= <-]. split; [discriminate | reflexivity].
Defined.

End GatewayMoreFacts.

(** ** More of the brain context cache *)

Module CacheMoreFacts.
Import BrainContextCache.

(** X16. [getBrainContext] never serves an entry past its expiry: a
    payload it returns is the payload stored under the key, with an expiry
    not before the time of the call, and the cache is left as it was; after
    a call that returns undefined the key is absent from the cache; the
    entries of other keys are never touched. *)
Theorem getBrainContext_sound (now : Z) (k : string) (cache : gmap string CacheEntry) :
  let out := getBrainContext now k cache in
  (∀ p, out.1 = Some p →
        out.2 = cache
        ∧ ∃ entry, cache !! k = Some entry ∧ payload entry = p
                   ∧ (now ≤ expiresAt entry)%Z)
  ∧ (out.1 = None → out.2 !! k = None)
  ∧ (∀ k', k' ≠ k → out.2 !! k' = cache !! k').
Proof.
  unfold getBrainContext. destruct (cache !! k) as [entry|] eqn:Hk; simpl.
  - destruct (Z.gtb_spec now (expiresAt entry)); simpl.
    + split_and!; [done | by rewrite lookup_delete_eq |].
      intros k' Hne. by rewrite lookup_delete_ne.
    + split_and!; [|done|done].
      intros p [= <-]. split; [done|]. exists entry. split_and!; [done|done|lia].
  - by split_and!.
Qed.

(** X17. Sessions are isolated: what [getBrainContext] returns for one
    session key is not changed by a [setBrainContext], a [clearBrainContext]
    or a [getBrainContext] for another key. *)
Theorem cache_sessions_isolated (now t : Z) (k k' : string) (p : BrainContextPayload)
    (cache : gmap string CacheEntry) :
  k' ≠ k →
  (getBrainContext now k' (setBrainContext t k p cache)).1 = (getBrainContext now k' cache).1
  ∧ (getBrainContext now k' (clearBrainContext k cache)).1 = (getBrainContext now k' cache).1
  ∧ (getBrainContext now k' (getBrainContext t k cache).2).1
    = (getBrainContext now k' cache).1.
Proof.
  intros Hne.
  assert (Hsame : ∀ c : gmap string CacheEntry,
            c !! k' = cache !! k' →
            (getBrainContext now k' c).1 = (getBrainContext now k' cache).1).
  { intros c Hc. unfold getBrainContext. rewrite Hc.
    destruct (cache !! k') as [entry|]; [|done]. by destruct (_ >? _)%Z. }
  split_and!; apply Hsame.
  - unfold setBrainContext. by rewrite lookup_insert_ne.
  - unfold clearBrainContext. by rewrite lookup_delete_ne.
  - by apply (getBrainContext_sound t k cache).
Qed.

(** X18. A second [setBrainContext] for a key replaces the first and
    restarts its time to live: the cache is as if the first had not
    happened, and the second payload is served up to 30000 ms after the
    second call, however old the first one is. *)
Theorem setBrainContext_latest_wins (t1 t2 now : Z) (k : string)
    (p1 p2 : BrainContextPayload) (cache : gmap string CacheEntry) :
  (now ≤ t2 + 30000)%Z →
  setBrainContext t2 k p2 (setBrainContext t1 k p1 cache) = setBrainContext t2 k p2 cache
  ∧ (getBrainContext now k (setBrainContext t2 k p2 (setBrainContext t1 k p1 cache))).1
    = Some p2.
Proof.
  intros Hnow. unfold setBrainContext. rewrite insert_insert_eq. split; [done|].
  by rewrite (BrainContextCacheFacts.getBrainContext_fresh now k p2
                (t2 + DEFAULT_TTL_MS) _ (lookup_insert_eq _ _ _)) by (unfold DEFAULT_TTL_MS; lia).
Qed.

Lemma cache_sessions_isolated_witness :
  (getBrainContext 2000 "session-2"
     (setBrainContext 1000 "session-1" Samples.sample_payload
        (setBrainContext 500 "session-2" Samples.sample_payload ∅))).1
  = (getBrainContext 2000 "session-2"
       (setBrainContext 500 "session-2" Samples.sample_payload ∅)).1.
Proof.
  apply (cache_sessions_isolated 2000 1000 "session-1" "session-2" Samples.sample_payload
           (setBrainContext 500 "session-2" Samples.sample_payload ∅)).
  discriminate.
Defined.

Lemma setBrainContext_latest_wins_witness :
  (getBrainContext 60000 "session-1"
     (setBrainContext 40000 "session-1" MoreSamples.newer_payload
        (setBrainContext 1000 "session-1" Samples.sample_payload ∅))).1
  = Some MoreSamples.newer_payload.
Proof.
  apply (setBrainContext_latest_wins 1000 40000 60000 "session-1" Samples.sample_payload
           MoreSamples.newer_payload ∅).
  lia.
Defined.

End CacheMoreFacts.

(** ** The hooks of the intelligence service *)

Module HooksFacts.
Import Js BrainContextCache Hooks StringFacts.

Ltac case_step :=
  match goal with
  | |- context [match ?x with _ => _ end] =>
      lazymatch x with
      | context [match _ with _ => _ end] => fail
      | _ => destruct x eqn:?
      end
  end.

Ltac run_hooks :=
  unfold brainContext, brainIngest, fetchWithRetry, attempts, attempt_once,
    fetchContextInject, postToIngest, setBrainContext, on_cache, non_ok_status,
    toISOString, try_catch, try_finally, post, abort_after, clearTimeout, Date_now, log,
    raise, await, mbind, Run_bind, mret, Run_ret, starting, TIMEOUT_MS.

(** *** Object literals and spread *)

Lemma property_None (k : string) (ps : list (string * option json)) :
  property k ps = None ↔ existsb (λ q, String.eqb k q.1) ps = false.
Proof.
  induction ps as [|[k' v'] ps IH]; simpl; [done|].
  destruct (String.eqb k k'); simpl; [done | apply IH].
Qed.

Lemma property_app (k : string) (ps qs : list (string * option json)) :
  property k (ps ++ qs)
  = match property k ps with Some v => Some v | None => property k qs end.
Proof.
  induction ps as [|[k' v'] ps IH]; simpl; [done|].
  by destruct (String.eqb k k').
Qed.

Lemma property_replace (k k' : string) (v : option json)
    (ps : list (string * option json)) :
  property k (List.map (λ q, if String.eqb k' q.1 then (q.1, v) else q) ps)
  = match property k ps with
    | Some old => Some (if String.eqb k' k then v else old)
    | None => None
    end.
Proof.
  induction ps as [|[k1 v1] ps IH]; simpl; [done|].
  destruct (String.eqb_spec k' k1) as [->|Hne]; simpl.
  - destruct (String.eqb_spec k k1) as [->|Hne']; [by rewrite String.eqb_refl | apply IH].
  - destruct (String.eqb_spec k k1) as [->|Hne'].
    + by destruct (String.eqb_spec k' k1).
    + apply IH.
Qed.

Lemma property_insert_index (k k' : string) (n : N) (v : option json)
    (ps : list (string * option json)) :
  property k' ps = None →
  property k (insert_index n k' v ps)
  = if String.eqb k k' then Some v else property k ps.
Proof.
  induction ps as [|[k1 v1] ps IH]; simpl; [done|].
  destruct (String.eqb_spec k' k1) as [->|Hne]; [done|]. intros Hnone.
  destruct (array_index k1) as [m|]; [destruct (n <? m)%N|]; simpl;
    try by destruct (String.eqb_spec k k').
  rewrite IH by done.
  destruct (String.eqb_spec k k1) as [->|Hne']; [|done].
  by destruct (String.eqb_spec k1 k') as [->|].
Qed.

(** Defining a property gives it the value and leaves the others. *)
Lemma property_define (k : string) (p : string * option json)
    (ps : list (string * option json)) :
  property k (define ps p) = if String.eqb k p.1 then Some p.2 else property k ps.
Proof.
  destruct p as [k' v]. unfold define. simpl.
  destruct (existsb (λ q, String.eqb k' q.1) ps) eqn:Hex.
  - rewrite property_replace.
    destruct (String.eqb_spec k k') as [->|Hne].
    + rewrite String.eqb_refl. destruct (property k' ps) eqn:Hp; [done|].
      apply property_None in Hp. congruence.
    + destruct (property k ps); [|done]. by destruct (String.eqb_spec k' k) as [->|].
  - apply property_None in Hex.
    destruct (array_index k') as [n|].
    + by apply property_insert_index.
    + rewrite property_app. simpl.
      destruct (String.eqb_spec k k') as [->|Hne]; [by rewrite Hex|].
      by destruct (property k ps).
Qed.

Lemma property_spread (k : string) (ps qs : list (string * option json)) :
  property k (fold_left define qs ps)
  = match property k (reverse qs) with
    | Some v => Some v
    | None => property k ps
    end.
Proof.
  revert ps. induction qs as [|q qs IH]; intros ps; simpl; [done|].
  rewrite IH, reverse_cons, property_app, property_define. simpl.
  destruct (property k (reverse qs)); [done|].
  destruct q as [k' v]. simpl. by destruct (String.eqb k k').
Qed.

Lemma insert_index_keys (n : N) (k : string) (v : option json)
    (ps : list (string * option json)) :
  (insert_index n k v ps).*1 ≡ₚ k :: ps.*1.
Proof.
  induction ps as [|[k1 v1] ps IH]; simpl; [done|].
  destruct (array_index k1) as [m|]; [destruct (n <? m)%N|]; simpl; try done.
  rewrite IH. apply Permutation_swap.
Qed.

Lemma define_NoDup (p : string * option json) (ps : list (string * option json)) :
  NoDup ps.*1 → NoDup (define ps p).*1.
Proof.
  intros Hnd. destruct p as [k v]. unfold define. simpl.
  destruct (existsb (λ q, String.eqb k q.1) ps) eqn:Hex.
  - assert (Hkeys : (List.map (λ q : string * option json,
                                 if String.eqb k q.1 then (q.1, v) else q) ps).*1 = ps.*1).
    { clear. induction ps as [|[k1 v1] ps IH]; simpl; [done|].
      f_equal; [by destruct (String.eqb k k1) | apply IH]. }
    by rewrite Hkeys.
  - assert (Hfresh : k ∉ ps.*1).
    { intros Hin. apply list_elem_of_fmap in Hin as ([k1 v1] & -> & Hin).
      apply not_true_iff_false in Hex. apply Hex, existsb_exists.
      exists (k1, v1). split; [by apply list_elem_of_In | apply String.eqb_refl]. }
    destruct (array_index k) as [n|].
    + rewrite insert_index_keys. by apply NoDup_cons.
    + rewrite fmap_app. simpl. apply NoDup_app. split_and!; [done | | apply NoDup_singleton].
      intros x Hx ->%list_elem_of_singleton. done.
Qed.

Lemma spread_NoDup (ps qs : list (string * option json)) :
  NoDup ps.*1 → NoDup (fold_left define qs ps).*1.
Proof.
  revert ps. induction qs as [|q qs IH]; intros ps Hnd; simpl; [done|].
  by apply IH, define_NoDup.
Qed.

(** What [JSON.stringify] keeps of an object literal with distinct keys. *)
Lemma own_get_kept (k : string) (ps : list (string * option json)) :
  NoDup ps.*1 →
  own_get k (omap (λ p : string * option json,
                     match p.2 with Some v => Some (p.1, v) | None => None end) ps)
  = match property k ps with Some v => v | None => None end.
Proof.
  induction ps as [|[k1 v1] ps IH]; intros Hnd; [done|].
  apply NoDup_cons in Hnd as [Hfresh Hnd]. specialize (IH Hnd).
  destruct v1 as [x|]; cbn [omap list_omap snd fst property own_get].
  - destruct (String.eqb_spec k k1) as [->|Hne]; [done | apply IH].
  - destruct (String.eqb_spec k k1) as [->|Hne]; [|apply IH].
    rewrite IH.
    destruct (property k1 ps) eqn:Hp; [|done].
    exfalso. apply Hfresh. clear -Hp.
    induction ps as [|[k2 v2] ps IH]; simpl in *; [done|].
    destruct (String.eqb_spec k1 k2) as [->|Hne]; [apply list_elem_of_here|].
    apply list_elem_of_further. by apply IH.
Qed.

Lemma own_get_object (k : string) (ps : list (string * option json)) :
  NoDup ps.*1 →
  ∃ props, object ps = JObj props
           ∧ own_get k props = match property k ps with Some v => v | None => None end.
Proof. intros Hnd. eexists. split; [reflexivity | by apply own_get_kept]. Qed.

Section Handlers.
Variable env : Env.

(** [fetchWithRetry] from the start of a handler: the first attempt, a
    second one exactly when the first is aborted, the answer of the last
    of them, and every timer cleared. *)
Lemma fetchWithRetry_run (url : string) (event : HookEvent) (c : gmap string CacheEntry) :
  ∃ lg,
    Forall (λ entry, level entry = Warn) lg
    ∧ fetchWithRetry env url (inject_query (context event)) (starting c)
      = (match settled (final_reply env url event) with
         | Returned body => Returned (body, (clock env 1 - clock env 0)%Z)
         | Raised e => Raised e
         end,
         {| cache := c; requests := attempts_made env url event;
            ticks := match settled (final_reply env url event) with
                     | Returned _ => 2
                     | Raised _ => 1
                     end;
            timers_started := length (attempts_made env url event);
            timers_pending := []; logs := lg |}).
Proof.
  unfold final_reply, attempts_made, aborted, settled, inject_request. run_hooks. simpl.
  destruct (fetch env 0 _) as [[[] st0 tx0 [body0|e0]]|e0]; simpl;
    try (destruct (is_abort e0) eqn:?; simpl);
    try (eexists; split; [|reflexivity]; by repeat constructor).
  all: destruct (fetch env 1 _) as [[[] st1 tx1 [body1|e1]]|e1]; simpl;
    try (destruct (is_abort e1) eqn:?; simpl);
    eexists; (split; [|reflexivity]); by repeat constructor.
Qed.

Lemma service_url_trim (url : string) :
  service_url env = Some url →
  trim env <$> INTELLIGENCE_URL env = Some url ∧ String.eqb url "" = false.
Proof.
  unfold service_url. destruct (trim env <$> INTELLIGENCE_URL env) as [u|]; [|done].
  destruct (String.eqb u "") eqn:E; [done|]. by intros [= <-].
Qed.

(** A handler of [brain-context] that gets to work. *)
Lemma brainContext_run (event : HookEvent) (c : gmap string CacheEntry) (url : string) :
  type event = "message" →
  isMessageReceivedEvent env event = true →
  service_url env = Some url →
  ∃ lg,
    Forall (λ entry, level entry = Warn) lg
    ∧ brainContext env event (starting c)
      = (Returned tt,
         {| cache :=
              match settled (final_reply env url event) with
              | Returned body =>
                  if relevant env body then
                    BrainContextCache.setBrainContext (clock env 2) (sessionKey event)
                      (retrieved env body (clock env 1 - clock env 0)) c
                  else c
              | Raised _ => c
              end;
            requests := attempts_made env url event;
            ticks :=
              match settled (final_reply env url event) with
              | Returned body => if relevant env body then 3 else 2
              | Raised _ => 1
              end;
            timers_started := length (attempts_made env url event);
            timers_pending := [];
            logs := lg ++ [closing_entry env url event] |}).
Proof.
  intros Htype Hguard Hurl. apply service_url_trim in Hurl as [Hurl Hne].
  destruct (fetchWithRetry_run url event c) as (lg & Hlg & Hrun).
  exists lg. split; [done|].
  unfold brainContext. rewrite Htype, Hguard, Hurl, Hne. simpl.
  unfold try_catch, mbind, Run_bind at 1. rewrite Hrun.
  unfold closing_entry, relevant, retrieved, trimmed_block, memories.
  destruct (settled (final_reply env url event)) as [body|e]; simpl.
  - destruct (String.eqb _ "" && _) eqn:Hrel; simpl.
    + reflexivity.
    + reflexivity.
  - reflexivity.
Qed.

(** A handler that does not get to work leaves the world as it is. *)
Lemma brainContext_idle (event : HookEvent) (w : World) :
  type event ≠ "message" ∨ isMessageReceivedEvent env event = false
  ∨ service_url env = None →
  brainContext env event w = (Returned tt, w).
Proof.
  unfold brainContext, service_url.
  destruct (String.eqb_spec (type event) "message") as [Htype|Htype]; simpl; [|done].
  destruct (isMessageReceivedEvent env event); simpl; [|done].
  destruct (trim env <$> INTELLIGENCE_URL env) as [u|]; [|done].
  destruct (String.eqb u ""); [done|].
  by intros [?|[?|?]].
Qed.

Lemma attempts_made_shape (url : string) (event : HookEvent) :
  length (attempts_made env url event) ≤ 2
  ∧ ∀ i req, attempts_made env url event !! i = Some req →
             req = inject_request env url event i.
Proof.
  unfold attempts_made. destruct (aborted _); simpl; (split; [lia|]).
  - intros [|[|i]] req; simpl; by intros [= <-].
  - intros [|i] req; simpl; by intros [= <-].
Qed.

(** An event either sets the handler to work or leaves it idle. *)
Lemma brainContext_active_or_idle (event : HookEvent) :
  (type event = "message" ∧ isMessageReceivedEvent env event = true
   ∧ ∃ url, service_url env = Some url)
  ∨ (type event ≠ "message" ∨ isMessageReceivedEvent env event = false
     ∨ service_url env = None).
Proof.
  destruct (String.eqb_spec (type event) "message"); [|by right; left].
  destruct (isMessageReceivedEvent env event); [|by right; right; left].
  destruct (service_url env) as [url|]; [|by right; right; right].
  left. eauto.
Qed.

(** X19. [brain-context] never fails the message flow: for every event,
    every service and every cache the handler returns; it sends at most two
    requests, each a POST of the query to [/context/inject] of the trimmed
    service URL under an abort timer of 2000 ms; every timer it starts is
    cleared when it returns; and no cache entry of another session is
    touched. *)
Theorem brainContext_fire_and_forget (event : HookEvent) (c : gmap string CacheEntry) :
  let out := brainContext env event (starting c) in
  out.1 = Returned tt
  ∧ length (requests out.2) ≤ 2
  ∧ (∀ i req, requests out.2 !! i = Some req →
       ∃ url, service_url env = Some url ∧ req = inject_request env url event i)
  ∧ timers_started out.2 = length (requests out.2)
  ∧ timers_pending out.2 = []
  ∧ (∀ key, key ≠ sessionKey event → cache out.2 !! key = c !! key).
Proof.
  destruct (brainContext_active_or_idle event) as [(Htype & Hguard & url & Hurl)|Hidle].
  - destruct (brainContext_run event c url Htype Hguard Hurl) as (lg & _ & ->).
    destruct (attempts_made_shape url event) as [Hlen Hreq].
    cbv zeta. simpl. split_and!; [done | done | | done | done |].
    + intros i req Hi. exists url. split; [done|]. by apply Hreq.
    + intros key Hkey. destruct (settled _) as [body|e]; [|done].
      destruct (relevant env body); [|done].
      unfold BrainContextCache.setBrainContext. by rewrite lookup_insert_ne.
  - rewrite (brainContext_idle event _ Hidle). cbv zeta. simpl.
    split_and!; [done | lia | | done | done | done].
    by intros [].
Qed.

(** X21. The retry rule of [brain-context]: a second request is sent
    exactly when the first attempt ends in an [Error] named "AbortError",
    be it the [fetch] or the reading of the body that rejects; any other
    rejection and any status of the reply are final, and there is never a
    third request. *)
Theorem brainContext_retries_only_aborts (event : HookEvent) (c : gmap string CacheEntry)
    (url : string) :
  type event = "message" →
  isMessageReceivedEvent env event = true →
  service_url env = Some url →
  let first := fetch env 0 (inject_request env url event 0) in
  requests (brainContext env event (starting c)).2
  = inject_request env url event 0
    :: (if aborted first then [inject_request env url event 1] else [])
  ∧ (aborted first = true
     ↔ ∃ err, is_error err = true ∧ err_name err = "AbortError"
              ∧ (first = Raised err
                 ∨ ∃ response, first = Returned response ∧ resp_ok response = true
                               ∧ resp_json response = Raised err)).
Proof.
  intros Htype Hguard Hurl first.
  destruct (brainContext_run event c url Htype Hguard Hurl) as (lg & _ & ->).
  simpl. unfold attempts_made. fold first. split; [by destruct (aborted first)|].
  unfold aborted, settled, is_abort.
  destruct first as [[[] st tx [body|e]]|e]; simpl.
  - split; [done|]. intros (err & _ & _ & [?|(r & [= <-] & _ & ?)]); done.
  - rewrite andb_true_iff, String.eqb_eq. split.
    + intros [? ?]. exists e. split_and!; [done|done|]. right. by eexists.
    + intros (err & ? & ? & [?|(r & [= <-] & _ & [= <-])]); done.
  - split; [done|]. intros (err & _ & _ & [?|(r & [= <-] & ? & _)]); done.
  - split; [done|]. intros (err & _ & _ & [?|(r & [= <-] & ? & _)]); done.
  - rewrite andb_true_iff, String.eqb_eq. split.
    + intros [? ?]. exists e. split_and!; [done|done|]. by left.
    + intros (err & ? & ? & [[= <-]|(r & ? & _)]); done.
Qed.

Lemma truncateContextBlock_length (block : string) (maxChars : Z) :
  (0 ≤ maxChars)%Z →
  (Z.of_nat (String.length (BrainContext.truncateContextBlock block maxChars))
   ≤ maxChars + 15)%Z.
Proof.
  intros Hmax. unfold BrainContext.truncateContextBlock.
  destruct (Z.leb_spec (Z.of_nat (String.length block)) maxChars); [lia|].
  rewrite BrainContextFacts.slice_from_start_nonneg by lia.
  destruct (substring_split (Z.to_nat maxChars) block) as (tail & _ & Hhead); [lia|].
  rewrite length_append, Hhead, BrainContextFacts.TRUNCATED_SUFFIX_length. lia.
Qed.

Lemma MAX_CONTEXT_CHARS_nonneg :
  (∀ n, BRAIN_CONTEXT_MAX_TOKENS env = Some n → (0 ≤ n)%Z) →
  (0 ≤ MAX_CONTEXT_CHARS env)%Z.
Proof.
  intros Hn. unfold MAX_CONTEXT_CHARS, BrainContext.MAX_CONTEXT_CHARS.
  destruct (BRAIN_CONTEXT_MAX_TOKENS env) as [n|]; [|lia].
  specialize (Hn n eq_refl). destruct (n =? 0)%Z; lia.
Qed.

(** X22. What [brain-context] stores. When the last attempt yields a
    body with a non-blank context block or a non-zero count of memories, the
    cache holds under the session key of the event the trimmed block
    (unchanged when it fits [MAX_CONTEXT_CHARS], and never longer than
    [MAX_CONTEXT_CHARS + 15] when [BRAIN_CONTEXT_MAX_TOKENS] is not
    negative), the count, the identity and the entities of the body;
    [getBrainContext] serves this payload until 30000 ms after the time of
    the store. *)
Theorem brainContext_caches_answer (event : HookEvent) (c : gmap string CacheEntry)
    (url : string) (body : InjectResponse) :
  type event = "message" →
  isMessageReceivedEvent env event = true →
  service_url env = Some url →
  settled (final_reply env url event) = Returned body →
  trimmed_block env body ≠ "" ∨ memories body ≠ 0%Z →
  let out := brainContext env event (starting c) in
  let stored := retrieved env body (clock env 1 - clock env 0) in
  cache out.2
  = <[sessionKey event := {| payload := stored; expiresAt := clock env 2 + 30000 |}]> c
  ∧ (∀ now, (now ≤ clock env 2 + 30000)%Z →
       (getBrainContext now (sessionKey event) (cache out.2)).1 = Some stored)
  ∧ ((Z.of_nat (String.length (trimmed_block env body)) ≤ MAX_CONTEXT_CHARS env)%Z →
     contextBlock stored = trimmed_block env body)
  ∧ ((∀ n, BRAIN_CONTEXT_MAX_TOKENS env = Some n → (0 ≤ n)%Z) →
     (Z.of_nat (String.length (contextBlock stored)) ≤ MAX_CONTEXT_CHARS env + 15)%Z)
  ∧ memoriesUsed stored = memories body
  ∧ identity stored = inject_identity body
  ∧ entities stored = inject_entities body.
Proof.
  intros Htype Hguard Hurl Hbody Hsome out stored. subst out.
  destruct (brainContext_run event c url Htype Hguard Hurl) as (lg & _ & ->).
  simpl. rewrite Hbody.
  assert (Hrel : relevant env body = true).
  { unfold relevant. apply negb_true_iff, andb_false_iff.
    destruct Hsome as [Hblock|Hmem]; [left | right].
    - by apply String.eqb_neq.
    - by apply Z.eqb_neq. }
  rewrite Hrel. split_and!; [done | | | | done | done | done].
  - intros now Hnow. unfold BrainContextCache.setBrainContext.
    erewrite BrainContextCacheFacts.getBrainContext_fresh;
      [done | apply lookup_insert_eq | unfold DEFAULT_TTL_MS; lia].
  - intros Hshort. simpl. unfold BrainContext.truncateContextBlock.
    by destruct (Z.leb_spec (Z.of_nat (String.length (trimmed_block env body)))
                   (MAX_CONTEXT_CHARS env)); [|lia].
  - intros Hmax. apply truncateContextBlock_length. by apply MAX_CONTEXT_CHARS_nonneg.
Qed.

(** X23. What [brain-context] does not store. The cache is left as it was
    when the last attempt is rejected, when the reply is not OK, when its
    body cannot be read, or when the body has a blank block and no memories;
    a rejection is logged as the warning BRAIN_CONTEXT_FAILED with the
    message of the error and the session key. Conversely the cache changes
    only on an OK reply whose body has a non-blank block or a non-zero
    count. *)
Theorem brainContext_stores_nothing_otherwise (event : HookEvent)
    (c : gmap string CacheEntry) (url : string) :
  type event = "message" →
  isMessageReceivedEvent env event = true →
  service_url env = Some url →
  let out := brainContext env event (starting c) in
  let final := final_reply env url event in
  ((∃ err, final = Raised err)
   ∨ (∃ response, final = Returned response ∧ resp_ok response = false)
   ∨ (∃ response err, final = Returned response ∧ resp_json response = Raised err)
   ∨ (∃ response body,
        final = Returned response ∧ resp_json response = Returned body
        ∧ trimmed_block env body = "" ∧ memories body = 0%Z) →
   cache out.2 = c)
  ∧ (∀ err, settled final = Raised err →
       last (logs out.2)
       = Some {| level := Warn; text := "BRAIN_CONTEXT_FAILED";
                 meta := [("error", LStr (error_text err));
                          ("sessionKey", LStr (sessionKey event))] |})
  ∧ (cache out.2 ≠ c →
     ∃ response body,
       final = Returned response ∧ resp_ok response = true
       ∧ resp_json response = Returned body
       ∧ (trimmed_block env body ≠ "" ∨ memories body ≠ 0%Z)).
Proof.
  intros Htype Hguard Hurl out final. subst out.
  destruct (brainContext_run event c url Htype Hguard Hurl) as (lg & _ & ->).
  simpl. fold final. unfold closing_entry. fold final.
  assert (Hblank : relevant env empty_response = false) by reflexivity.
  split_and!.
  - unfold settled.
    intros [(err & Hf)|[(r & Hf & Hok)|[(r & err & Hf & Hjson)|Hblock]]];
      [| | |destruct Hblock as (r & body & Hf & Hjson & Hb & Hm)]; rewrite Hf.
    + done.
    + by rewrite Hok, Hblank.
    + destruct (resp_ok r); [by rewrite Hjson | by rewrite Hblank].
    + assert (relevant env body = false) as Hrel
        by (unfold relevant; by rewrite Hb, Hm).
      destruct (resp_ok r); [by rewrite Hjson, Hrel | by rewrite Hblank].
  - intros err ->. by rewrite last_snoc.
  - unfold settled. destruct final as [r|err]; [|done].
    destruct (resp_ok r) eqn:Hok; [|by rewrite Hblank].
    destruct (resp_json r) as [body|err] eqn:Hjson; [|done].
    destruct (relevant env body) eqn:Hrel; [|done].
    intros _. exists r, body. split_and!; [done..|].
    unfold relevant in Hrel. apply negb_true_iff, andb_false_iff in Hrel.
    destruct Hrel as [Hb|Hm]; [left; by apply String.eqb_neq | right; by apply Z.eqb_neq].
Qed.

(** *** brain-ingest *)

(** A handler of [brain-ingest] that has a turn to forward. *)
Lemma brainIngest_run (event : HookEvent) (c : gmap string CacheEntry) (url iso : string)
    (payload : json) :
  type event = "message" →
  service_url env = Some url →
  timestamp event = ValidDate iso →
  turn_of env event iso = Some payload →
  brainIngest env event (starting c)
  = (Returned tt,
     {| cache := c; requests := [ingest_request env url payload]; ticks := 0;
        timers_started := 1; timers_pending := [];
        logs := ingest_log env url event (fetch env 0 (ingest_request env url payload)) |}).
Proof.
  intros Htype Hurl Hdate Hturn. apply service_url_trim in Hurl as [Hurl Hne].
  unfold brainIngest. rewrite Htype, Hurl, Hne. simpl.
  unfold turn_of in Hturn. unfold ingest_log, ingested_entry, ingest_request.
  destruct (isMessageReceivedEvent env event).
  - injection Hturn as <-. rewrite Hdate. run_hooks. simpl.
    destruct (fetch env 0 _) as [[[] st tx body]|e]; simpl; [done | done |].
    by destruct (is_abort e).
  - destruct (isMessageSentEvent env event); [|done].
    destruct (default false (success (context event))); [|done].
    injection Hturn as <-. rewrite Hdate. run_hooks. simpl.
    destruct (fetch env 0 _) as [[[] st tx body]|e]; simpl; [done | done |].
    by destruct (is_abort e).
Qed.

(** A handler of [brain-ingest] with nothing to forward leaves the world
    as it is. *)
Lemma brainIngest_idle (event : HookEvent) (w : World) :
  type event ≠ "message" ∨ service_url env = None
  ∨ (∀ iso, turn_of env event iso = None) →
  brainIngest env event w = (Returned tt, w).
Proof.
  unfold brainIngest, service_url, turn_of.
  destruct (String.eqb_spec (type event) "message") as [Htype|Htype]; simpl; [|done].
  destruct (trim env <$> INTELLIGENCE_URL env) as [u|]; [|done].
  destruct (String.eqb u ""); [done|].
  intros [?|[?|Hnone]]; [done | done |].
  specialize (Hnone "").
  destruct (isMessageReceivedEvent env event); [done|].
  destruct (isMessageSentEvent env event); [|done].
  by destruct (default false (success (context event))).
Qed.

(** A turn whose date is invalid is not forwarded; the failure is logged. *)
Lemma brainIngest_invalid_date (event : HookEvent) (c : gmap string CacheEntry)
    (url : string) (payload : json) :
  type event = "message" →
  service_url env = Some url →
  timestamp event = InvalidDate →
  turn_of env event "" = Some payload →
  brainIngest env event (starting c)
  = (Returned tt,
     {| cache := c; requests := []; ticks := 0; timers_started := 0; timers_pending := [];
        logs := [ {| level := Error; text := "Failed to ingest message";
                     meta := [("error", LStr "Invalid time value")] |} ] |}).
Proof.
  intros Htype Hurl Hdate Hturn. apply service_url_trim in Hurl as [Hurl Hne].
  unfold brainIngest. rewrite Htype, Hurl, Hne. simpl.
  unfold turn_of in Hturn.
  destruct (isMessageReceivedEvent env event).
  - rewrite Hdate. by run_hooks.
  - destruct (isMessageSentEvent env event); [|done].
    destruct (default false (success (context event))); [|done].
    rewrite Hdate. by run_hooks.
Qed.

Lemma turn_of_date (event : HookEvent) (iso iso' : string) :
  turn_of env event iso = None → turn_of env event iso' = None.
Proof.
  unfold turn_of. destruct (isMessageReceivedEvent env event); [done|].
  destruct (isMessageSentEvent env event); [|done].
  by destruct (default false (success (context event))).
Qed.

(** X24. [brain-ingest] never fails the message flow: for every event and
    every service the handler returns; it sends at most one request, a POST
    of the turn to [/ingest] of the trimmed service URL under an abort timer
    of 5000 ms, and only for an event with a valid date; the timer is
    cleared when it returns; the cache is never touched and at most two
    entries are logged. *)
Theorem brainIngest_fire_and_forget (event : HookEvent) (c : gmap string CacheEntry) :
  let out := brainIngest env event (starting c) in
  out.1 = Returned tt
  ∧ length (requests out.2) ≤ 1
  ∧ (∀ req, req ∈ requests out.2 →
       ∃ url iso payload,
         service_url env = Some url ∧ timestamp event = ValidDate iso
         ∧ turn_of env event iso = Some payload
         ∧ req = ingest_request env url payload)
  ∧ timers_pending out.2 = []
  ∧ cache out.2 = c
  ∧ length (logs out.2) ≤ 2.
Proof.
  cbv zeta.
  destruct (String.eqb_spec (type event) "message") as [Htype|Htype];
    [|rewrite brainIngest_idle by (by left); simpl;
      split_and!; [done | lia | by intros ? ?%elem_of_nil | done | done | lia]].
  destruct (service_url env) as [url|] eqn:Hurl;
    [|rewrite brainIngest_idle by (by right; left); simpl;
      split_and!; [done | lia | by intros ? ?%elem_of_nil | done | done | lia]].
  destruct (timestamp event) as [iso|] eqn:Hdate.
  - destruct (turn_of env event iso) as [payload|] eqn:Hturn.
    + rewrite (brainIngest_run event c url iso payload) by done. simpl.
      split_and!; [done | lia | | done | done |].
      * intros req ->%list_elem_of_singleton. by exists url, iso, payload.
      * unfold ingest_log. destruct (fetch env 0 _) as [[[] ? ? ?]|e]; simpl; [lia | lia |].
        destruct (is_abort e); simpl; lia.
    + rewrite brainIngest_idle
        by (right; right; intros iso'; by apply (turn_of_date event iso)).
      simpl. split_and!; [done | lia | by intros ? ?%elem_of_nil | done | done | lia].
  - destruct (turn_of env event "") as [payload|] eqn:Hturn.
    + rewrite (brainIngest_invalid_date event c url payload) by done. simpl.
      split_and!; [done | lia | by intros ? ?%elem_of_nil | done | done | lia].
    + rewrite brainIngest_idle
        by (right; right; intros iso'; by apply (turn_of_date event "")).
      simpl. split_and!; [done | lia | by intros ? ?%elem_of_nil | done | done | lia].
Qed.

(** X20. What the hooks skip. An event that is not a message, or a
    service URL that is unset or blank after trimming, makes both handlers
    return without a request, a log entry or a change of the cache; so does
    an event that is not a received message for [brain-context], and an
    event that is neither a received message nor a successful send for
    [brain-ingest]. *)
Theorem hooks_skip (event : HookEvent) (w : World) :
  (type event ≠ "message"
   ∨ INTELLIGENCE_URL env = None
   ∨ (∃ url, INTELLIGENCE_URL env = Some url ∧ trim env url = "") →
   brainContext env event w = (Returned tt, w)
   ∧ brainIngest env event w = (Returned tt, w))
  ∧ (isMessageReceivedEvent env event = false →
     brainContext env event w = (Returned tt, w)
     ∧ (isMessageSentEvent env event = false ∨ success (context event) ≠ Some true →
        brainIngest env event w = (Returned tt, w))).
Proof.
  split.
  - intros Hwhy.
    assert (Hidle : type event ≠ "message" ∨ service_url env = None).
    { destruct Hwhy as [?|[Hnone|(url & Hurl & Hblank)]]; [by left | right | right];
        unfold service_url.
      - by rewrite Hnone.
      - rewrite Hurl. simpl. by rewrite Hblank. }
    split.
    + apply brainContext_idle. destruct Hidle; [by left | by right; right].
    + apply brainIngest_idle. destruct Hidle; [by left | by right; left].
  - intros Hr. split; [apply brainContext_idle; by right; left|].
    intros Hnot. apply brainIngest_idle. right; right. intros iso. unfold turn_of.
    rewrite Hr. destruct Hnot as [Hs|Hok]; [by rewrite Hs|].
    destruct (isMessageSentEvent env event); [|done].
    by destruct (success (context event)) as [[]|].
Qed.

(** X25. What [brain-ingest] forwards. A received message is sent as a
    turn of role "user" whose user is the sender; a successful send that is
    no received message is sent as a turn of role "assistant" whose user is
    the recipient; both carry the content, the session key as [session_id]
    and the channel of the event. *)
Theorem brainIngest_forwards_turn (event : HookEvent) (c : gmap string CacheEntry)
    (url iso : string) :
  type event = "message" →
  service_url env = Some url →
  timestamp event = ValidDate iso →
  let out := brainIngest env event (starting c) in
  let ctx := context event in
  (isMessageReceivedEvent env event = true →
   requests out.2 = [ingest_request env url (received_turn event iso)]
   ∧ ∃ props,
       received_turn event iso = JObj props
       ∧ own_get "role" props = Some (JStr "user")
       ∧ own_get "user" props = JStr <$> from ctx
       ∧ own_get "content" props = JStr <$> content ctx
       ∧ own_get "session_id" props = Some (JStr (sessionKey event))
       ∧ own_get "channel" props = JStr <$> channelId ctx)
  ∧ (isMessageReceivedEvent env event = false →
     isMessageSentEvent env event = true →
     success ctx = Some true →
     requests out.2 = [ingest_request env url (sent_turn event iso)]
     ∧ ∃ props,
         sent_turn event iso = JObj props
         ∧ own_get "role" props = Some (JStr "assistant")
         ∧ own_get "user" props = JStr <$> to ctx
         ∧ own_get "content" props = JStr <$> content ctx
         ∧ own_get "session_id" props = Some (JStr (sessionKey event))
         ∧ own_get "channel" props = JStr <$> channelId ctx).
Proof.
  intros Htype Hurl Hdate out ctx. subst out ctx. split.
  - intros Hr.
    rewrite (brainIngest_run event c url iso (received_turn event iso)) by
      (try done; unfold turn_of; by rewrite Hr).
    split; [done|]. unfold received_turn, object. eexists. split; [reflexivity|].
    destruct (content (context event)), (channelId (context event)),
      (from (context event)); by split_and!.
  - intros Hr Hs Hok.
    rewrite (brainIngest_run event c url iso (sent_turn event iso)) by
      (try done; unfold turn_of; by rewrite Hr, Hs, Hok).
    split; [done|]. unfold sent_turn, object. eexists. split; [reflexivity|].
    destruct (content (context event)), (channelId (context event)),
      (to (context event)); by split_and!.
Qed.

(** X26. The metadata of the turn of a received message: every key of
    [ctx.metadata] takes the value [ctx.metadata] gives it (the last one if
    the key is given twice), also for the keys [conversation_id],
    [message_id], [account_id] and [timestamp] that the handler fills from
    the event; a key that [ctx.metadata] lacks keeps the value from the
    event. *)
Theorem received_metadata_overrides (event : HookEvent) (iso : string) :
  ∃ props,
    object (received_metadata event iso) = JObj props
    ∧ (∀ qs k v, metadata (context event) = Some qs →
                 property k (reverse qs) = Some v →
                 own_get k props = v)
    ∧ (∀ k, metadata (context event) = None
            ∨ (∃ qs, metadata (context event) = Some qs
                     ∧ property k (reverse qs) = None) →
            own_get k props
            = match property k (event_metadata event iso) with
              | Some v => v
              | None => None
              end).
Proof.
  assert (Hbase : NoDup (event_metadata event iso).*1).
  { unfold event_metadata. apply NoDup_ListNoDup. simpl.
    repeat constructor; simpl; intuition discriminate. }
  assert (Hnd : NoDup (received_metadata event iso).*1).
  { unfold received_metadata, spread. fold (event_metadata event iso).
    destruct (metadata (context event)); [by apply spread_NoDup | done]. }
  assert (Hget : ∀ k, ∃ props,
            object (received_metadata event iso) = JObj props
            ∧ own_get k props
              = match property k (received_metadata event iso) with
                | Some v => v
                | None => None
                end)
    by (intros k; by apply own_get_object).
  destruct (Hget "") as (props & Hprops & _). exists props. split; [done|].
  assert (Hall : ∀ k, own_get k props
                      = match property k (received_metadata event iso) with
                        | Some v => v
                        | None => None
                        end).
  { intros k. destruct (Hget k) as (props' & Hprops' & Hk). congruence. }
  split.
  - intros qs k v Hmd Hlast. rewrite Hall.
    unfold received_metadata, spread. rewrite Hmd, property_spread. by rewrite Hlast.
  - intros k Hk. rewrite Hall. unfold received_metadata, spread.
    fold (event_metadata event iso).
    destruct Hk as [->|(qs & -> & Hlast)]; [done|].
    by rewrite property_spread, Hlast.
Qed.

(** X27. What [brain-ingest] reports. An abort of the request is logged as
    the warning "Intelligence service request timed out", any other
    rejection as the error "Failed to ingest message" with its message; a
    reply of any status is logged as ingested, a non-OK one after a warning
    with the status; an event whose date is invalid is not sent at all and
    logged as a failure with "Invalid time value". *)
Theorem brainIngest_reports_outcome (event : HookEvent) (c : gmap string CacheEntry)
    (url iso : string) (payload : json) :
  type event = "message" →
  service_url env = Some url →
  turn_of env event iso = Some payload →
  let sent := fetch env 0 (ingest_request env url payload) in
  (timestamp event = ValidDate iso →
   let out := brainIngest env event (starting c) in
   (∀ err, sent = Raised err → is_abort err = true →
      logs out.2 = [ {| level := Warn; text := "Intelligence service request timed out";
                        meta := [("url", LStr url)] |} ])
   ∧ (∀ err, sent = Raised err → is_abort err = false →
        logs out.2 = [ {| level := Error; text := "Failed to ingest message";
                          meta := [("error", LStr (error_text err))] |} ])
   ∧ (∀ response, sent = Returned response →
        last (logs out.2) = Some (ingested_entry env event)
        ∧ (resp_ok response = false →
           ∃ warning, logs out.2 = [warning; ingested_entry env event]
                      ∧ level warning = Warn
                      ∧ meta warning = [("status", LNum (resp_status response));
                                        ("statusText", LStr (resp_statusText response))])))
  ∧ (timestamp event = InvalidDate →
     let out := brainIngest env event (starting c) in
     requests out.2 = []
     ∧ logs out.2 = [ {| level := Error; text := "Failed to ingest message";
                         meta := [("error", LStr "Invalid time value")] |} ]).
Proof.
  intros Htype Hurl Hturn sent. split.
  - intros Hdate out. subst out.
    rewrite (brainIngest_run event c url iso payload) by done. simpl. fold sent.
    unfold ingest_log. split_and!.
    + by intros err -> ->.
    + by intros err -> ->.
    + intros response ->. destruct (resp_ok response); simpl; (split; [done|]); [done|].
      intros _. eexists. by split_and!.
  - intros Hdate out. subst out.
    assert (Hturn' : turn_of env event "" = Some
              (if isMessageReceivedEvent env event then received_turn event ""
               else sent_turn event "")).
    { unfold turn_of in *. destruct (isMessageReceivedEvent env event); [done|].
      destruct (isMessageSentEvent env event); [|done].
      by destruct (default false (success (context event))). }
    by rewrite (brainIngest_invalid_date event c url _ Htype Hurl Hdate Hturn').
Qed.

End Handlers.

(** *** The properties at the sample services *)

Import HookSamples.

Lemma brainContext_retries_only_aborts_witness :
  requests (brainContext slow_once user_message (starting ∅)).2
  = [inject_request slow_once "http://localhost:3100" user_message 0;
     inject_request slow_once "http://localhost:3100" user_message 1]
  ∧ requests (brainContext unreachable user_message (starting ∅)).2
    = [inject_request unreachable "http://localhost:3100" user_message 0].
Proof.
  split.
  - apply (brainContext_retries_only_aborts slow_once user_message ∅
             "http://localhost:3100" eq_refl eq_refl eq_refl).
  - apply (brainContext_retries_only_aborts unreachable user_message ∅
             "http://localhost:3100" eq_refl eq_refl eq_refl).
Defined.

Lemma brainContext_caches_answer_witness :
  (getBrainContext 31000 "agent:main:main"
     (cache (brainContext slow_once user_message (starting ∅)).2)).1
  = Some {| contextBlock := "Memory about prior conversation";
            memoriesUsed := 3;
            retrievalMs := 120;
            identity := Some "SpookyJuice agent";
            entities := Some [ {| entity_name := "Brian"; entity_type := "person";
                                  entity_summary := Some "Project lead" |} ] |}.
Proof.
  apply (brainContext_caches_answer slow_once user_message ∅ "http://localhost:3100"
           memory_body eq_refl eq_refl eq_refl eq_refl).
  - left. discriminate.
  - vm_compute. discriminate.
Defined.

Lemma brainContext_stores_nothing_otherwise_witness :
  cache (brainContext overloaded user_message (starting ∅)).2 = ∅
  ∧ cache (brainContext stalled user_message (starting ∅)).2 = ∅
  ∧ last (logs (brainContext stalled user_message (starting ∅)).2)
    = Some {| level := Warn; text := "BRAIN_CONTEXT_FAILED";
              meta := [("error", LStr "The operation was aborted");
                       ("sessionKey", LStr "agent:main:main")] |}.
Proof.
  split_and!.
  - apply (brainContext_stores_nothing_otherwise overloaded user_message ∅
             "http://localhost:3100" eq_refl eq_refl eq_refl).
    right. left. by exists unavailable_reply.
  - apply (brainContext_stores_nothing_otherwise stalled user_message ∅
             "http://localhost:3100" eq_refl eq_refl eq_refl).
    left. by exists abort_error.
  - apply (proj1 (proj2 (brainContext_stores_nothing_otherwise stalled user_message ∅
                           "http://localhost:3100" eq_refl eq_refl eq_refl))
             abort_error).
    reflexivity.
Defined.

Lemma hooks_skip_witness :
  brainContext unconfigured user_message (starting ∅) = (Returned tt, starting ∅)
  ∧ brainIngest healthy command_event (starting ∅) = (Returned tt, starting ∅)
  ∧ brainIngest healthy (agent_message false) (starting ∅) = (Returned tt, starting ∅).
Proof.
  split_and!.
  - apply (proj1 (hooks_skip unconfigured user_message (starting ∅))).
    right. right. by exists "   ".
  - apply (proj1 (hooks_skip healthy command_event (starting ∅))).
    left. discriminate.
  - apply (proj2 (hooks_skip healthy (agent_message false) (starting ∅)) eq_refl).
    right. discriminate.
Defined.

Lemma brainIngest_forwards_turn_witness :
  requests (brainIngest healthy user_message (starting ∅)).2
  = [ingest_request healthy "http://localhost:3100"
       (received_turn user_message "2026-02-20T17:00:00.000Z")]
  ∧ requests (brainIngest healthy (agent_message true) (starting ∅)).2
    = [ingest_request healthy "http://localhost:3100"
         (sent_turn (agent_message true) "2026-02-20T17:00:05.000Z")].
Proof.
  split.
  - apply (proj1 (brainIngest_forwards_turn healthy user_message ∅
                    "http://localhost:3100" "2026-02-20T17:00:00.000Z"
                    eq_refl eq_refl eq_refl)).
    reflexivity.
  - apply (proj2 (brainIngest_forwards_turn healthy (agent_message true) ∅
                    "http://localhost:3100" "2026-02-20T17:00:05.000Z"
                    eq_refl eq_refl eq_refl));
      reflexivity.
Defined.

Lemma received_metadata_overrides_witness :
  ∃ props,
    object (received_metadata user_message "2026-02-20T17:00:00.000Z") = JObj props
    ∧ own_get "timestamp" props = Some (JStr "1999-01-01T00:00:00.000Z")
    ∧ own_get "conversation_id" props = Some (JStr "chat-123").
Proof.
  destruct (received_metadata_overrides user_message "2026-02-20T17:00:00.000Z")
    as (props & Hprops & Hover & Hkeep).
  exists props. split_and!; [done | |].
  - apply (Hover [("thread", Some (JStr "t-1"));
                  ("timestamp", Some (JStr "1999-01-01T00:00:00.000Z"))]);
      reflexivity.
  - rewrite Hkeep; [reflexivity|]. right. by eexists.
Defined.

Lemma brainIngest_reports_outcome_witness :
  logs (brainIngest stalled user_message (starting ∅)).2
  = [ {| level := Warn; text := "Intelligence service request timed out";
         meta := [("url", LStr "http://localhost:3100")] |} ]
  ∧ logs (brainIngest healthy undated_message (starting ∅)).2
    = [ {| level := Error; text := "Failed to ingest message";
           meta := [("error", LStr "Invalid time value")] |} ].
Proof.
  split.
  - apply (proj1 (proj1 (brainIngest_reports_outcome stalled user_message ∅
                           "http://localhost:3100" "2026-02-20T17:00:00.000Z"
                           (received_turn user_message "2026-02-20T17:00:00.000Z")
                           eq_refl eq_refl eq_refl) eq_refl) abort_error);
      reflexivity.
  - apply (proj2 (brainIngest_reports_outcome healthy undated_message ∅
                    "http://localhost:3100" ""
                    (received_turn undated_message "")
                    eq_refl eq_refl eq_refl) eq_refl).
Defined.

(** The sample service at work: one request, the block trimmed and stored. *)
Example brainContext_healthy :
  brainContext healthy user_message (starting ∅)
  = (Returned tt,
     {| cache :=
          {[ "agent:main:main" :=
               {| payload := retrieved healthy memory_body 120;
                  expiresAt := 31240 |} ]};
        requests := [inject_request healthy "http://localhost:3100" user_message 0];
        ticks := 3; timers_started := 1; timers_pending := [];
        logs := [closing_entry healthy "http://localhost:3100" user_message] |}).
Proof. reflexivity. Qed.

End HooksFacts.

(** ** The projects controller *)

Module ControllerFacts.
Import Js Registry Controller.

(** *** [Promise.all] *)

Lemma first_rejection_from (rs : list (option (nat * string))) (best : option (nat * string)) :
  let pick :=
    fold_left
      (λ best r,
         match best, r with
         | Some (t, _), Some (t', _) => if (t' <? t)%nat then r else best
         | None, _ => r
         | _, None => best
         end)
      rs best in
  (pick = None ↔ best = None ∧ Forall (λ r, r = None) rs)
  ∧ (∀ t err, pick = Some (t, err) →
       (best = Some (t, err) ∨ Some (t, err) ∈ rs)
       ∧ (∀ t' err', best = Some (t', err') ∨ Some (t', err') ∈ rs → t ≤ t')).
Proof.
  revert best. induction rs as [|r rs IH]; intros best; simpl.
  - split.
    + split; [intros ->; by split | by intros [-> _]].
    + intros t err ->. split; [by left|].
      intros t' err' [[= <- <-]|Hin]; [done | by apply elem_of_nil in Hin].
  - destruct (IH (match best, r with
                  | Some (t, _), Some (t', _) => if (t' <? t)%nat then r else best
                  | None, _ => r
                  | _, None => best
                  end)) as [Hnone Hsome].
    split.
    + rewrite Hnone. destruct best as [[t e]|], r as [[t' e']|]; simpl.
      * destruct (t' <? t)%nat; split; [by intros [? _] | by intros [? _]
                                        | by intros [? _] | by intros [? _]].
      * split; [by intros [? _] | by intros [? _]].
      * split; [by intros [? _] | intros [_ H]; by apply Forall_cons in H as [? _]].
      * split; [intros [_ H]; split; [done | by apply Forall_cons] |
                intros [_ H]; split; [done | by apply Forall_cons in H as [_ ?]]].
    + intros t err Hpick. destruct (Hsome t err Hpick) as [Hin Hmin]. split.
      * destruct Hin as [Hin|Hin]; [|right; by apply list_elem_of_further].
        destruct best as [[t0 e0]|], r as [[t' e']|]; simpl in Hin.
        -- destruct (t' <? t0)%nat; [right; rewrite <- Hin; apply list_elem_of_here | by left].
        -- by left.
        -- right. rewrite <- Hin. apply list_elem_of_here.
        -- done.
      * intros t' err' Hin'.
        destruct Hin' as [->|Hin'].
        -- destruct r as [[t1 e1]|]; simpl in *.
           ++ destruct (Nat.ltb_spec t1 t') as [Hlt|Hge].
              ** specialize (Hmin t1 e1 (or_introl eq_refl)). lia.
              ** apply (Hmin t' err'). by left.
           ++ apply (Hmin t' err'). by left.
        -- apply elem_of_cons in Hin' as [<-|Hin'].
           ++ destruct best as [[t0 e0]|]; simpl in *.
              ** destruct (Nat.ltb_spec t' t0) as [Hlt|Hge].
                 --- apply (Hmin t' err'). by left.
                 --- specialize (Hmin t0 e0 (or_introl eq_refl)). lia.
              ** apply (Hmin t' err'). by left.
           ++ apply (Hmin t' err'). by right.
Qed.

(** [Promise.all] resolves when nothing rejects, and rejects with a
    rejection that no other precedes. *)
Lemma first_rejection_spec (rs : list (option (nat * string))) :
  (first_rejection rs = None ↔ Forall (λ r, r = None) rs)
  ∧ (∀ t err, first_rejection rs = Some (t, err) →
       Some (t, err) ∈ rs ∧ ∀ t' err', Some (t', err') ∈ rs → t ≤ t').
Proof.
  destruct (first_rejection_from rs None) as [Hnone Hsome]. split.
  - unfold first_rejection. rewrite Hnone. split; [by intros [_ ?] | by intros ?].
  - intros t err Hpick. destruct (Hsome t err Hpick) as [[?|Hin] Hmin]; [done|].
    split; [done|]. intros t' err' Hin'. apply (Hmin t' err'). by right.
Qed.

Section State.
Context {Usage Git : Type}.
Implicit Types (w : World Usage Git) (c : Client Usage Git).

Lemma rejections_none {A B C : Type} (r1 : Reply A) (r2 : Reply B) (r3 : Reply C) :
  first_rejection [rejection r1; rejection r2; rejection r3] = None
  ↔ (∃ a, outcome r1 = Gateway.Ok a) ∧ (∃ b, outcome r2 = Gateway.Ok b)
    ∧ (∃ z, outcome r3 = Gateway.Ok z).
Proof.
  rewrite (proj1 (first_rejection_spec _)). unfold rejection.
  rewrite !Forall_cons, Forall_nil.
  destruct (outcome r1) as [a|e1], (outcome r2) as [b|e2], (outcome r3) as [g|e3]; split;
    try (intros (H1 & H2 & H3 & _); discriminate);
    try (intros ((? & ?) & (? & ?) & (? & ?)); discriminate).
  - intros _. eauto 10.
  - intros _. by repeat split.
Qed.

(** A [loadProjects] that gets to work. *)
Lemma loadProjects_run w c :
  client (state w) = Some c → connected (state w) = true →
  projectsLoading (state w) = false →
  let days := projectsDays (state w) in
  let n := length (sent w) in
  let registryRes := projects_list c n in
  let usageRes := projects_usage c (S n) days in
  let gitRes := projects_git c (S (S n)) days in
  loadProjects w
  = {| state :=
         with_loading false
           (match first_rejection [rejection registryRes; rejection usageRes;
                                   rejection gitRes] with
            | None =>
                with_git (keep_truthy (resolved gitRes) (projectsGit (state w)))
                  (with_usage (keep_truthy (resolved usageRes) (projectsUsage (state w)))
                     (with_registry
                        (keep_truthy (resolved registryRes) (projectsRegistry (state w)))
                        (with_error None (with_loading true (state w)))))
            | Some (_, err) =>
                with_error (Some err) (with_error None (with_loading true (state w)))
            end);
       sent := sent w ++ load_calls days;
       platform_writes := platform_writes w |}.
Proof.
  intros Hc Hcon Hload. unfold loadProjects. rewrite Hc, Hcon, Hload. simpl.
  by destruct (first_rejection _) as [[t err]|].
Qed.

Lemma loadProjects_idle w :
  client (state w) = None ∨ connected (state w) = false
  ∨ projectsLoading (state w) = true →
  loadProjects w = w.
Proof.
  unfold loadProjects. destruct (client (state w)); [|done].
  destruct (connected (state w)); simpl; [|done].
  destruct (projectsLoading (state w)); [done|]. by intros [?|[?|?]].
Qed.

(** What a [loadProjects] that gets to work leaves in the state. *)
Lemma loadProjects_outcome w c :
  client (state w) = Some c → connected (state w) = true →
  projectsLoading (state w) = false →
  let out := loadProjects w in
  let days := projectsDays (state w) in
  let n := length (sent w) in
  let registryRes := projects_list c n in
  let usageRes := projects_usage c (S n) days in
  let gitRes := projects_git c (S (S n)) days in
  (∀ a b g, outcome registryRes = Gateway.Ok a → outcome usageRes = Gateway.Ok b →
            outcome gitRes = Gateway.Ok g →
     projectsError (state out) = None
     ∧ projectsRegistry (state out) = keep_truthy a (projectsRegistry (state w))
     ∧ projectsUsage (state out) = keep_truthy b (projectsUsage (state w))
     ∧ projectsGit (state out) = keep_truthy g (projectsGit (state w)))
  ∧ ((∃ err, outcome registryRes = Gateway.Throw err)
     ∨ (∃ err, outcome usageRes = Gateway.Throw err)
     ∨ (∃ err, outcome gitRes = Gateway.Throw err) →
     projectsRegistry (state out) = projectsRegistry (state w)
     ∧ projectsUsage (state out) = projectsUsage (state w)
     ∧ projectsGit (state out) = projectsGit (state w)
     ∧ ∃ t err,
         projectsError (state out) = Some err
         ∧ Some (t, err) ∈ [rejection registryRes; rejection usageRes; rejection gitRes]
         ∧ ∀ t' err',
             Some (t', err') ∈ [rejection registryRes; rejection usageRes;
                                rejection gitRes] → t ≤ t').
Proof.
  intros Hc Hcon Hload. cbv zeta. rewrite (loadProjects_run w c Hc Hcon Hload). simpl.
  destruct (first_rejection _) as [[t err]|] eqn:Hfirst; simpl.
  - split.
    + intros a b g Ha Hb Hg.
      assert (first_rejection
                [rejection (projects_list c (length (sent w)));
                 rejection (projects_usage c (S (length (sent w))) (projectsDays (state w)));
                 rejection (projects_git c (S (S (length (sent w))))
                              (projectsDays (state w)))] = None) as Hnone
        by (apply rejections_none; eauto 10).
      congruence.
    + intros _. split_and!; [done..|].
      exists t, err. split; [done|]. by apply first_rejection_spec.
  - apply rejections_none in Hfirst as ((a & Ha) & (b & Hb) & (g & Hg)).
    split.
    + intros a' b' g' Ha' Hb' Hg'. unfold resolved. rewrite Ha, Hb, Hg.
      rewrite Ha in Ha'. rewrite Hb in Hb'. rewrite Hg in Hg'.
      by simplify_eq.
    + intros [[err He]|[[err He]|[err He]]]; congruence.
Qed.

(** X28. [loadProjects]. Without a client, when disconnected, or while a
    load is running it does nothing. Otherwise it sends exactly the three
    requests [projects.list], [projects.usage] and [projects.git], the last
    two with the days of the state, and [projectsLoading] is false when it
    returns. When all three resolve, the error is cleared and each result
    that is truthy replaces its part of the state. When one rejects, the
    registry, the usage and the git activity are all left as they were, and
    the error is the text of a rejection that no other rejection
    precedes. *)
Theorem loadProjects_settles w :
  let out := loadProjects w in
  (client (state w) = None ∨ connected (state w) = false
   ∨ projectsLoading (state w) = true → out = w)
  ∧ (∀ c, client (state w) = Some c → connected (state w) = true →
          projectsLoading (state w) = false →
     let days := projectsDays (state w) in
     let n := length (sent w) in
     let registryRes := projects_list c n in
     let usageRes := projects_usage c (S n) days in
     let gitRes := projects_git c (S (S n)) days in
     sent out = sent w ++ load_calls days
     ∧ projectsLoading (state out) = false
     ∧ client (state out) = Some c ∧ connected (state out) = true
     ∧ projectsDays (state out) = days
     ∧ projectsScanning (state out) = projectsScanning (state w)
     ∧ platform_writes out = platform_writes w
     ∧ (∀ a b g, outcome registryRes = Gateway.Ok a → outcome usageRes = Gateway.Ok b →
                 outcome gitRes = Gateway.Ok g →
          projectsError (state out) = None
          ∧ projectsRegistry (state out) = keep_truthy a (projectsRegistry (state w))
          ∧ projectsUsage (state out) = keep_truthy b (projectsUsage (state w))
          ∧ projectsGit (state out) = keep_truthy g (projectsGit (state w)))
     ∧ ((∃ err, outcome registryRes = Gateway.Throw err)
        ∨ (∃ err, outcome usageRes = Gateway.Throw err)
        ∨ (∃ err, outcome gitRes = Gateway.Throw err) →
        projectsRegistry (state out) = projectsRegistry (state w)
        ∧ projectsUsage (state out) = projectsUsage (state w)
        ∧ projectsGit (state out) = projectsGit (state w)
        ∧ ∃ t err,
            projectsError (state out) = Some err
            ∧ Some (t, err) ∈ [rejection registryRes; rejection usageRes; rejection gitRes]
            ∧ ∀ t' err',
                Some (t', err') ∈ [rejection registryRes; rejection usageRes;
                                   rejection gitRes] → t ≤ t')).
Proof.
  cbv zeta. split; [apply loadProjects_idle|].
  intros c Hc Hcon Hload.
  destruct (loadProjects_outcome w c Hc Hcon Hload) as [Hok Hfail].
  split_and!; [| | | | | | | apply Hok | apply Hfail];
    rewrite (loadProjects_run w c Hc Hcon Hload); simpl; by repeat case_match.
Qed.


Lemma entry_of_set_enabled (name k : string) (flag : bool)
    (ps : list (string * ProjectEntry)) :
  entry_of k (set_enabled name flag ps)
  = (if String.eqb k name then flagged flag else id) <$> entry_of k ps.
Proof.
  unfold entry_of, set_enabled.
  induction ps as [|[k1 e1] ps IH]; simpl; [done|].
  destruct (String.eqb_spec k1 name) as [->|Hne]; simpl.
  - destruct (String.eqb_spec name k) as [->|Hne']; simpl.
    + by rewrite String.eqb_refl.
    + apply IH.
  - destruct (String.eqb_spec k1 k) as [->|Hne']; simpl; [|apply IH].
    by destruct (String.eqb_spec k name) as [->|].
Qed.

Lemma set_enabled_keys (name : string) (flag : bool) (ps : list (string * ProjectEntry)) :
  (set_enabled name flag ps).*1 = ps.*1.
Proof.
  unfold set_enabled. induction ps as [|[k1 e1] ps IH]; simpl; [done|].
  f_equal; [by destruct (String.eqb k1 name) | apply IH].
Qed.




End State.

(** *** The properties at the sample gateways *)

Import ControllerSamples.

Lemma loadProjects_settles_witness :
  (let out := loadProjects (view (Some gateway) None) in
   projectsError (state out) = None
   ∧ projectsRegistry (state out) = Some listed_registry
   ∧ projectsUsage (state out) = Some "usage of 7 days"
   ∧ projectsGit (state out) = Some "commits of 7 days")
  ∧ (let out := loadProjects (view (Some broken_gateway) None) in
     projectsRegistry (state out) = None
     ∧ projectsError (state out) = Some "Error: git script failed"
     ∧ projectsLoading (state out) = false).
Proof.
  split.
  - destruct (proj2 (loadProjects_settles (view (Some gateway) None)) gateway
                eq_refl eq_refl eq_refl) as (_ & _ & _ & _ & _ & _ & _ & Hok & _).
    apply (Hok (Some listed_registry) (Some "usage of 7 days") (Some "commits of 7 days"));
      reflexivity.
  - destruct (proj2 (loadProjects_settles (view (Some broken_gateway) None)) broken_gateway
                eq_refl eq_refl eq_refl) as (_ & Hload & _ & _ & _ & _ & _ & _ & Hfail).
    destruct Hfail as (Hreg & _ & _ & t & err & Herr & _ & _).
    + right. left. by eexists.
    + split_and!; [exact Hreg | reflexivity | exact Hload].
Defined.



(** A toggle of a name that the registry lacks and [Object.prototype]
    defines writes on the prototype, not on the state. *)
Example toggleProject_prototype_name :
  let w := view (Some gateway) (Some listed_registry) in
  let out := toggleProject "__proto__" true w in
  state out = state w ∧ platform_writes out = [("__proto__", true)].
Proof. by split. Qed.

End ControllerFacts.
